(** * The SOEM shim of XeryonEtherCAT: session lifecycle and cyclic exchange

    A shallow embedding of [src/native/soemshim-linux/soem_shim.c] (the
    extended shim), of its header [src/native/soemshim/soem_shim.h] and of
    the exchange routine of the older [src/native/soemshim/soem_shim.c].

    The SOEM protocol stack ([soem/soem.h]: [ecx_init], [ecx_statecheck],
    [ecx_send_processdata], ...) is an external library.  It is taken as a
    record of functions over an opaque port state, so every theorem below
    holds for any behaviour of the bus.

    Conventions.  A C [int] is a [Z]; a conversion that can wrap is written
    out ([to_int], [to_size_t]).  The process image and the regions mapped
    into it are in a flat memory of bytes, reached through addresses.  A
    pointer to a struct is an [option]: [None] is [NULL], and a function
    that writes through the pointer returns the struct after the call.  A
    caller's byte buffer is a list, apart from the flat memory, passed with
    its declared length as in C.  Each function threads the [world]: memory,
    heap, logging sink and the calls made into the stack. *)

From Stdlib Require Import ZArith List String Bool Lia.
Import ListNotations.
Local Open Scope Z_scope.

(** ** Machine integers *)

Definition INT_MAX : Z := 2147483647.

(** The conversion [(int)x] of a 32-bit unsigned value, and the value of an
    [int32_t] whose object representation is the 32-bit pattern [x]. *)
Definition to_int (x : Z) : Z := (x + 2147483648) mod 4294967296 - 2147483648.

(** The conversion [(size_t)x] on the 64-bit targets the shim is built for. *)
Definition to_size_t (x : Z) : Z := x mod 18446744073709551616.

(** The [n] bytes of the object representation of [v], least significant
    byte first (the host order the shim assumes). *)
Fixpoint le_bytes (n : nat) (v : Z) : list Z :=
  match n with
  | O => []
  | S n' => Z.land v 255 :: le_bytes n' (Z.shiftr v 8)
  end.

(** The unsigned value of a little-endian byte sequence. *)
Fixpoint le_value (bs : list Z) : Z :=
  match bs with
  | [] => 0
  | b :: bs' => Z.lor b (Z.shiftl (le_value bs') 8)
  end.

(** ** Memory

    The process image and every region the stack maps into it live in a flat
    byte-addressed memory.  A pointer is an address; [NULL] is address 0. *)

Definition mem : Type := Z -> Z.
Definition NULL : Z := 0.

Definition store (a v : Z) (m : mem) : mem :=
  fun x => if x =? a then v else m x.

Definition memset (dst c n : Z) (m : mem) : mem :=
  fun x => if (dst <=? x) && (x <? dst + n) then c else m x.

(** [memcpy] from a buffer that is not part of the flat memory (a caller's
    array or a field of a record passed by pointer). *)
Fixpoint store_bytes (a : Z) (bs : list Z) (m : mem) : mem :=
  match bs with
  | [] => m
  | b :: bs' => store_bytes (a + 1) bs' (store a b m)
  end.

(** The [n] bytes of memory starting at [a]. *)
Fixpoint load_bytes (a : Z) (n : nat) (m : mem) : list Z :=
  match n with
  | O => []
  | S n' => m a :: load_bytes (a + 1) n' m
  end.

(** The first [n] elements of a caller's array.  Reading past the end of the
    array is undefined in C; the model reads 0 there. *)
Definition buffer_prefix (buf : list Z) (n : nat) : list Z :=
  map (fun i => nth i buf 0) (seq 0 n).

(** [memcpy] of [bs] over the start of a caller's array.  Writing past the
    end of the array is undefined in C; the model lets the array grow. *)
Definition buffer_fill (buf bs : list Z) : list Z :=
  bs ++ skipn (List.length bs) buf.

(** ** Constants of the shim ([soem_shim.h], [soem_shim.c]) *)

Definition SOEM_ERR_BAD_ARGS : Z := -13.
Definition SOEM_ERR_SEND_FAIL : Z := -11.
Definition SOEM_ERR_RECV_FAIL : Z := -12.
Definition SOEM_ERR_WKC_LOW : Z := -10.

Definition IO_RX_BYTES : Z := 20.
Definition IO_TX_BYTES : Z := 8.

Inductive soem_log_level_t : Type :=
| SOEM_LOG_INFO
| SOEM_LOG_WARN
| SOEM_LOG_ERR.

(** ** Constants of SOEM ([ec_state], [EC_TIMEOUTSTATE], [EC_MAXSLAVE]) *)

Definition EC_STATE_INIT : Z := 1.
Definition EC_STATE_PRE_OP : Z := 2.
Definition EC_STATE_SAFE_OP : Z := 4.
Definition EC_STATE_OPERATIONAL : Z := 8.
Definition EC_STATE_ACK : Z := 16.
Definition EC_STATE_ERROR : Z := 16.
Definition EC_TIMEOUTSTATE : Z := 2000000.
Definition EC_MAXSLAVE : Z := 200.

(** ** Data model *)

(** [ec_slavet], restricted to the fields the shim touches. *)
Module Slave.
Record t : Type := mk {
  state : Z;          (* uint16 *)
  ALstatuscode : Z;   (* uint16 *)
  Obytes : Z;         (* uint32 *)
  outputs : Z;        (* uint8* *)
  Ibytes : Z;         (* uint32 *)
  inputs : Z          (* uint8* *)
}.
Definition zero : t := mk 0 0 0 NULL 0 NULL.
Definition set_state (v : Z) (s : t) : t :=
  mk v (ALstatuscode s) (Obytes s) (outputs s) (Ibytes s) (inputs s).
End Slave.

(** [ec_groupt], restricted to the fields the shim touches. *)
Module Group.
Record t : Type := mk {
  Obytes : Z;         (* uint32 *)
  outputs : Z;        (* uint8* *)
  Ibytes : Z;         (* uint32 *)
  inputs : Z;         (* uint8* *)
  outputsWKC : Z;     (* uint16 *)
  inputsWKC : Z       (* uint16 *)
}.
Definition zero : t := mk 0 NULL 0 NULL 0 0.
End Group.

Definition ec_slavet : Type := Slave.t.
Definition ec_groupt : Type := Group.t.

(** [ecx_contextt]: the slave and group tables, and the rest of the stack's
    state (port, buffers, error list) as an opaque value. *)
Record ecx_contextt (P : Type) : Type := mk_context {
  port : P;
  slavelist : list ec_slavet;
  slavecount : Z;     (* int *)
  grouplist : list ec_groupt
}.
Arguments mk_context {P}.
Arguments port {P}.
Arguments slavelist {P}.
Arguments slavecount {P}.
Arguments grouplist {P}.

(** [DriveRxPDO]; the field [Parameter] of the C struct is [Parameter_]
    here, the plain name being reserved. *)
Record DriveRxPDO : Type := mk_rx {
  Command : list Z;   (* char[32] *)
  (* int32_t *) Parameter_ : Z;
  Velocity : Z;       (* uint32_t *)
  Acceleration : Z;   (* uint16_t *)
  Deceleration : Z;   (* uint16_t *)
  Execute : Z         (* uint8_t *)
}.

(** [DriveTxPDO] *)
Record DriveTxPDO : Type := mk_tx {
  ActualPosition : Z; (* int32_t *)
  AmplifiersEnabled : Z;
  EndStop : Z;
  ThermalProtection1 : Z;
  ThermalProtection2 : Z;
  ForceZero : Z;
  MotorOn : Z;
  ClosedLoop : Z;
  EncoderIndex : Z;
  EncoderValid : Z;
  SearchingIndex : Z;
  PositionReached : Z;
  ErrorCompensation : Z;
  EncoderError : Z;
  Scanning : Z;
  LeftEndStop : Z;
  RightEndStop : Z;
  ErrorLimit : Z;
  SearchingOptimalFrequency : Z;
  SafetyTimeout : Z;
  ExecuteAck : Z;
  EmergencyStop : Z;
  PositionFail : Z;
  Slot : Z
}.

(** [soem_health_t] *)
Module Health.
Record t : Type := mk {
  slaves_found : Z;
  group_expected_wkc : Z;
  last_wkc : Z;
  bytes_out : Z;
  bytes_in : Z;
  slaves_op : Z;
  al_status_code : Z
}.
Definition zero : t := mk 0 0 0 0 0 0 0.
End Health.

Definition soem_health_t : Type := Health.t.

(** [soem_handle_t] of [soem_shim.h].  [base] is the address of the block
    [calloc] returned for the struct, that is the value of the handle
    pointer; a null handle is [None]. *)
Record soem_handle_t (P : Type) : Type := mk_handle {
  base : Z;
  context : ecx_contextt P;
  IOmap : Z;          (* uint8* *)
  output_length : Z;
  input_length : Z;
  last_wkc : Z;
  last_expected_wkc : Z
}.
Arguments mk_handle {P}.
Arguments base {P}.
Arguments context {P}.
Arguments IOmap {P}.
Arguments output_length {P}.
Arguments input_length {P}.
Arguments last_wkc {P}.
Arguments last_expected_wkc {P}.

(** ** The external stack *)

(** The functions of SOEM the shim calls.  Each takes the context by pointer
    and may update it; the process-data functions also see and may update
    the memory the context points into. *)
Record soem_api (P : Type) : Type := mk_api {
  port_zero : P;
  api_init : ecx_contextt P -> option string -> Z * ecx_contextt P;
  api_config_init : ecx_contextt P -> Z * ecx_contextt P;
  api_config_map_group :
    ecx_contextt P -> Z -> Z -> mem -> Z * ecx_contextt P * mem;
  api_configdc : ecx_contextt P -> Z * ecx_contextt P;
  api_statecheck : ecx_contextt P -> Z -> Z -> Z -> Z * ecx_contextt P;
  api_writestate : ecx_contextt P -> Z -> Z * ecx_contextt P;
  api_readstate : ecx_contextt P -> Z * ecx_contextt P;
  api_send_processdata : ecx_contextt P -> mem -> Z * ecx_contextt P * mem;
  api_receive_processdata :
    ecx_contextt P -> Z -> mem -> Z * ecx_contextt P * mem;
  api_close : ecx_contextt P -> ecx_contextt P
}.
Arguments mk_api {P}.
Arguments port_zero {P}.
Arguments api_init {P}.
Arguments api_config_init {P}.
Arguments api_config_map_group {P}.
Arguments api_configdc {P}.
Arguments api_statecheck {P}.
Arguments api_writestate {P}.
Arguments api_readstate {P}.
Arguments api_send_processdata {P}.
Arguments api_receive_processdata {P}.
Arguments api_close {P}.

(** One call into the stack, with its scalar arguments and its result. *)
Inductive ecx_call : Type :=
| call_init (rc : Z)
| call_config_init (rc : Z)
| call_config_map_group (iomap group rc : Z)
| call_configdc
| call_statecheck (slave reqstate timeout rc : Z)
| call_writestate (slave : Z)
| call_readstate
| call_send_processdata (rc : Z)
| call_receive_processdata (timeout rc : Z)
| call_close.

(** ** The world outside the handle

    [heap] lists the blocks handed out by [malloc]/[calloc] and not yet
    freed, most recent first.  [allocator] is the sequence of addresses the
    next allocations return ([NULL], or an exhausted sequence, is a failed
    allocation).  [log_cb] tells whether a logging sink is registered and
    [log_out] is what was delivered to it.  [bus_calls] is the sequence of
    calls made into the stack. *)
Record world : Type := mk_world {
  memory : mem;
  heap : list Z;
  allocator : list Z;
  log_cb : bool;
  log_out : list (soem_log_level_t * string * list Z);
  bus_calls : list ecx_call
}.

Definition with_memory (m : mem) (w : world) : world :=
  mk_world m (heap w) (allocator w) (log_cb w) (log_out w) (bus_calls w).

Definition record_call (c : ecx_call) (w : world) : world :=
  mk_world (memory w) (heap w) (allocator w) (log_cb w) (log_out w)
           (bus_calls w ++ [c]).

(** [log_message]: nothing happens without a registered sink; otherwise the
    message (its format and integer arguments) reaches the sink. *)
Definition log_message (lvl : soem_log_level_t) (fmt : string)
    (args : list Z) (w : world) : world :=
  if log_cb w
  then mk_world (memory w) (heap w) (allocator w) (log_cb w)
                (log_out w ++ [(lvl, fmt, args)]) (bus_calls w)
  else w.

Definition LOGI := log_message SOEM_LOG_INFO.
Definition LOGW := log_message SOEM_LOG_WARN.
Definition LOGE := log_message SOEM_LOG_ERR.

Definition soem_set_log_callback (cb : bool) (w : world) : world :=
  mk_world (memory w) (heap w) (allocator w) cb (log_out w) (bus_calls w).

Definition malloc (size : Z) (w : world) : Z * world :=
  match allocator w with
  | [] => (NULL, w)
  | p :: rest =>
      if p =? NULL
      then (NULL, mk_world (memory w) (heap w) rest (log_cb w) (log_out w)
                           (bus_calls w))
      else (p, mk_world (memory w) (p :: heap w) rest (log_cb w) (log_out w)
                        (bus_calls w))
  end.

Fixpoint remove_block (p : Z) (l : list Z) : list Z :=
  match l with
  | [] => []
  | q :: l' => if q =? p then l' else q :: remove_block p l'
  end.

Definition free (p : Z) (w : world) : world :=
  if p =? NULL then w
  else mk_world (memory w) (remove_block p (heap w)) (allocator w) (log_cb w)
                (log_out w) (bus_calls w).

(** ** Arrays of the context *)

(** Assignment to entry [n] of a fixed-size C array held as a list: entries
    the list does not have yet read as [d]. *)
Fixpoint array_set {A : Type} (d : A) (n : nat) (x : A) (l : list A) : list A :=
  match n, l with
  | O, [] => [x]
  | O, _ :: l' => x :: l'
  | S n', [] => d :: array_set d n' x []
  | S n', y :: l' => y :: array_set d n' x l'
  end.

(** [(b >> k) & 0x1] *)
Definition bit (b k : Z) : Z := Z.land (Z.shiftr b k) 1.

(** [DriveRxPDO rx = { 0 }; memcpy(rx.Command, "NOP", 3);] *)
Definition nop_command : DriveRxPDO :=
  mk_rx ([78; 79; 80] ++ repeat 0 29) 0 0 0 0 0.

Definition zero_tx : DriveTxPDO :=
  mk_tx 0 0 0 0 0 0 0 0 0 0 0 0 0 0 0 0 0 0 0 0 0 0 0 0.

(** The block under "Prepare outputs" of [soem_exchange_process_data]
    (soemshim-linux, lines 274-282), on the group [g]. *)
Definition stage_outputs (g : ec_groupt) (outputs : option (list Z))
    (outputs_len : Z) (m : mem) : mem :=
  if Group.Obytes g =? 0 then m
  else
    match outputs with
    | Some buf =>
        if outputs_len >? 0 then
          let m1 := memset (Group.outputs g) 0 (Group.Obytes g) m in
          let copy :=
            if outputs_len <? to_int (Group.Obytes g)
            then outputs_len else to_int (Group.Obytes g) in
          if copy >? 0
          then store_bytes (Group.outputs g)
                           (buffer_prefix buf (Z.to_nat copy)) m1
          else m1
        else m
    | None => m
    end.

(** The block under "Copy inputs up to Ibytes" (lines 301-305): the
    caller's buffer after the call. *)
Definition copy_inputs (g : ec_groupt) (inputs : option (list Z))
    (inputs_len : Z) (m : mem) : option (list Z) :=
  match inputs with
  | Some buf =>
      if (inputs_len >? 0) && negb (Group.Ibytes g =? 0) then
        let copy :=
          if inputs_len <? to_int (Group.Ibytes g)
          then inputs_len else to_int (Group.Ibytes g) in
        if copy >? 0
        then Some (buffer_fill buf
                     (load_bytes (Group.inputs g) (Z.to_nat copy) m))
        else inputs
      else inputs
  | None => None
  end.

Section Shim.

Context {P : Type}.
Variable stack : soem_api P.

Definition get_slave (c : ecx_contextt P) (i : Z) : ec_slavet :=
  nth (Z.to_nat i) (slavelist c) Slave.zero.

Definition set_slave (c : ecx_contextt P) (i : Z) (s : ec_slavet)
  : ecx_contextt P :=
  mk_context (port c) (array_set Slave.zero (Z.to_nat i) s (slavelist c))
             (slavecount c) (grouplist c).

(** [&context.grouplist[0]] *)
Definition group0 (c : ecx_contextt P) : ec_groupt :=
  nth 0 (grouplist c) Group.zero.

Definition with_context (c : ecx_contextt P) (h : soem_handle_t P)
  : soem_handle_t P :=
  mk_handle (base h) c (IOmap h) (output_length h) (input_length h)
            (last_wkc h) (last_expected_wkc h).

(** *** Calls into the stack, each recorded in [bus_calls] *)

Definition ecx_init (c : ecx_contextt P) (ifname : option string) (w : world)
  : Z * ecx_contextt P * world :=
  let '(rc, c') := api_init stack c ifname in
  (rc, c', record_call (call_init rc) w).

Definition ecx_config_init (c : ecx_contextt P) (w : world)
  : Z * ecx_contextt P * world :=
  let '(rc, c') := api_config_init stack c in
  (rc, c', record_call (call_config_init rc) w).

Definition ecx_config_map_group (c : ecx_contextt P) (iomap group : Z)
    (w : world) : Z * ecx_contextt P * world :=
  let '(rc, c', m') := api_config_map_group stack c iomap group (memory w) in
  (rc, c', record_call (call_config_map_group iomap group rc)
                       (with_memory m' w)).

Definition ecx_configdc (c : ecx_contextt P) (w : world)
  : Z * ecx_contextt P * world :=
  let '(rc, c') := api_configdc stack c in
  (rc, c', record_call call_configdc w).

Definition ecx_statecheck (c : ecx_contextt P) (slave reqstate timeout : Z)
    (w : world) : Z * ecx_contextt P * world :=
  let '(rc, c') := api_statecheck stack c slave reqstate timeout in
  (rc, c', record_call (call_statecheck slave reqstate timeout rc) w).

Definition ecx_writestate (c : ecx_contextt P) (slave : Z) (w : world)
  : Z * ecx_contextt P * world :=
  let '(rc, c') := api_writestate stack c slave in
  (rc, c', record_call (call_writestate slave) w).

Definition ecx_readstate (c : ecx_contextt P) (w : world)
  : Z * ecx_contextt P * world :=
  let '(rc, c') := api_readstate stack c in
  (rc, c', record_call call_readstate w).

Definition ecx_send_processdata (c : ecx_contextt P) (w : world)
  : Z * ecx_contextt P * world :=
  let '(rc, c', m') := api_send_processdata stack c (memory w) in
  (rc, c', record_call (call_send_processdata rc) (with_memory m' w)).

Definition ecx_receive_processdata (c : ecx_contextt P) (timeout : Z)
    (w : world) : Z * ecx_contextt P * world :=
  let '(rc, c', m') := api_receive_processdata stack c timeout (memory w) in
  (rc, c', record_call (call_receive_processdata timeout rc)
                       (with_memory m' w)).

Definition ecx_close (c : ecx_contextt P) (w : world)
  : ecx_contextt P * world :=
  (api_close stack c, record_call call_close w).

(** *** Introspection *)

Definition soem_get_slave_count (handle : option (soem_handle_t P)) : Z :=
  match handle with
  | None => 0
  | Some h => slavecount (context h)
  end.

Definition soem_expected_rx_bytes : Z := IO_RX_BYTES.
Definition soem_expected_tx_bytes : Z := IO_TX_BYTES.

(** *** PDO codec *)

(** [soem_read_txpdo]: the result code, the caller's record after the call
    ([None] for a null [out]) and the world. *)
Definition soem_read_txpdo (handle : option (soem_handle_t P))
    (slave_index : Z) (out : option DriveTxPDO) (w : world)
  : Z * option DriveTxPDO * world :=
  match handle, out with
  | Some h, Some _ =>
      if (slave_index <=? 0) || (slave_index >? slavecount (context h))
      then (0, out, w)
      else
        let slave := get_slave (context h) slave_index in
        if Slave.inputs slave =? NULL then (0, out, w)
        else if to_int (Slave.Ibytes slave) <? IO_TX_BYTES then
          (0, out,
           LOGE "soem_read_txpdo: slave %d Ibytes too small (%d < %d)"
                [slave_index; to_int (Slave.Ibytes slave); IO_TX_BYTES] w)
        else
          let buf := Slave.inputs slave in
          let m := memory w in
          let pos := to_int (le_value (load_bytes (buf + 0) 4 m)) in
          let b4 := m (buf + 4) in
          let b5 := m (buf + 5) in
          let b6 := m (buf + 6) in
          (1,
           Some (mk_tx pos
                   (bit b4 0) (bit b4 1) (bit b4 2) (bit b4 3)
                   (bit b4 4) (bit b4 5) (bit b4 6) (bit b4 7)
                   (bit b5 0) (bit b5 1) (bit b5 2) (bit b5 3)
                   (bit b5 4) (bit b5 5) (bit b5 6) (bit b5 7)
                   (bit b6 0) (bit b6 1) (bit b6 2) (bit b6 3)
                   (bit b6 4) (bit b6 5)
                   (m (buf + 7))),
           w)
  | _, _ => (0, out, w)
  end.

(** [soem_write_rxpdo]: the result code and the world. *)
Definition soem_write_rxpdo (handle : option (soem_handle_t P))
    (slave_index : Z) (rx : option DriveRxPDO) (w : world) : Z * world :=
  match handle, rx with
  | Some h, Some r =>
      if (slave_index <=? 0) || (slave_index >? slavecount (context h))
      then (0, w)
      else
        let slave := get_slave (context h) slave_index in
        if Slave.outputs slave =? NULL then (0, w)
        else if to_int (Slave.Obytes slave) <? IO_RX_BYTES then
          (0,
           LOGE "soem_write_rxpdo: slave %d Obytes too small (%d < %d)"
                [slave_index; to_int (Slave.Obytes slave); IO_RX_BYTES] w)
        else
          let buf := Slave.outputs slave in
          let m := memory w in
          let m := store_bytes (buf + 0) (buffer_prefix (Command r) 4) m in
          let m := store_bytes (buf + 4) (le_bytes 4 (Parameter_ r)) m in
          let m := store_bytes (buf + 8) (le_bytes 4 (Velocity r)) m in
          let m := store_bytes (buf + 12) (le_bytes 2 (Acceleration r)) m in
          let m := store_bytes (buf + 14) (le_bytes 2 (Deceleration r)) m in
          let m := store (buf + 16) (Execute r) m in
          (1, with_memory m w)
  | _, _ => (0, w)
  end.

(** *** Cyclic exchange *)

(** [soem_exchange_process_data]: the result code, the handle after the
    call, the caller's [inputs] buffer after the call, and the world.
    [outputsWKC] and [inputsWKC] are [uint16]: promoted to [int], twice the
    one plus the other cannot overflow, so [expected] is their plain sum. *)
Definition soem_exchange_process_data (handle : option (soem_handle_t P))
    (outputs : option (list Z)) (outputs_len : Z)
    (inputs : option (list Z)) (inputs_len : Z) (timeout_us : Z) (w : world)
  : Z * option (soem_handle_t P) * option (list Z) * world :=
  match handle with
  | None => (SOEM_ERR_BAD_ARGS, None, inputs, w)
  | Some h =>
      let timeout_us := if timeout_us <? 0 then 0 else timeout_us in
      let w :=
        with_memory
          (stage_outputs (group0 (context h)) outputs outputs_len (memory w))
          w in
      let '(wkc, c, w) := ecx_send_processdata (context h) w in
      let expected :=
        Group.outputsWKC (group0 c) * 2 + Group.inputsWKC (group0 c) in
      if wkc <? 0 then
        (SOEM_ERR_SEND_FAIL, Some (with_context c h), inputs,
         LOGE "ecx_send_processdata failed rc=%d (expected WKC=%d)"
              [wkc; expected] w)
      else
        let '(wkc, c, w) := ecx_receive_processdata c timeout_us w in
        let h' :=
          mk_handle (base h) c (IOmap h) (output_length h) (input_length h)
                    wkc expected in
        if wkc <? 0 then
          (SOEM_ERR_RECV_FAIL, Some h', inputs,
           LOGE ("ecx_receive_processdata failed rc=%d " ++
                 "(expected WKC=%d, timeout_us=%d)")
                [wkc; expected; timeout_us] w)
        else
          let g := group0 c in
          let inputs' := copy_inputs g inputs inputs_len (memory w) in
          if expected <=? 0 then
            (wkc, Some h', inputs',
             LOGW "Expected WKC is %d (check mapping). Returning wkc=%d"
                  [expected; wkc] w)
          else if wkc <? expected then
            (SOEM_ERR_WKC_LOW, Some h', inputs',
             LOGE ("WKC low: got=%d expected=%d " ++
                   "(Obytes=%u Ibytes=%u, oWKC=%u iWKC=%u)")
                  [wkc; expected; Group.Obytes g; Group.Ibytes g;
                   Group.outputsWKC g; Group.inputsWKC g] w)
          else (wkc, Some h', inputs', w)
  end.

(** *** Recovery *)

(** The first loop of [soem_try_recover]: every slave flagged ERROR is
    acknowledged.  The bound [slavecount] is read again at each turn, after
    the stack has run; the slave table has [EC_MAXSLAVE] entries, which
    bounds the walk. *)
Fixpoint ack_errors (fuel : nat) (i : Z) (c : ecx_contextt P) (w : world)
  : ecx_contextt P * world :=
  match fuel with
  | O => (c, w)
  | S fuel' =>
      if i <=? slavecount c then
        let s := get_slave c i in
        if negb (Z.land (Slave.state s) EC_STATE_ERROR =? 0) then
          let c :=
            set_slave c i
              (Slave.set_state (Z.lor EC_STATE_SAFE_OP EC_STATE_ACK) s) in
          let '(_, c, w) := ecx_writestate c i w in
          ack_errors fuel' (i + 1) c w
        else ack_errors fuel' (i + 1) c w
      else (c, w)
  end.

(** [for (k = 0; k < 3; ++k) { send; receive(1000); }] *)
Fixpoint settle_cycles (k : nat) (c : ecx_contextt P) (w : world)
  : ecx_contextt P * world :=
  match k with
  | O => (c, w)
  | S k' =>
      let '(_, c, w) := ecx_send_processdata c w in
      let '(_, c, w) := ecx_receive_processdata c 1000 w in
      settle_cycles k' c w
  end.

(** The per-slave verification loop, slaves [i .. i + n - 1]: 0 at the
    first slave that is not OPERATIONAL, else 1. *)
Fixpoint verify_slaves (n : nat) (i : Z) (c : ecx_contextt P) : Z :=
  match n with
  | O => 1
  | S n' =>
      if negb (Slave.state (get_slave c i) =? EC_STATE_OPERATIONAL) then 0
      else verify_slaves n' (i + 1) c
  end.

(** [soem_try_recover]: the result code, the handle after the call and the
    world.  [timeout_ms * 1000] is the product over the integers (an
    overflowing product is undefined in C). *)
Definition soem_try_recover (handle : option (soem_handle_t P))
    (timeout_ms : Z) (w : world) : Z * option (soem_handle_t P) * world :=
  match handle with
  | None => (0, None, w)
  | Some h =>
      let '(_, c, w) := ecx_readstate (context h) w in
      let '(c, w) := ack_errors (Z.to_nat EC_MAXSLAVE) 1 c w in
      let c :=
        set_slave c 0 (Slave.set_state EC_STATE_OPERATIONAL (get_slave c 0)) in
      let '(_, c, w) := ecx_writestate c 0 w in
      let '(c, w) := settle_cycles 3 c w in
      let '(rc, c, w) :=
        ecx_statecheck c 0 EC_STATE_OPERATIONAL (timeout_ms * 1000) w in
      if negb (rc =? EC_STATE_OPERATIONAL) then
        (0, Some (with_context c h),
         log_message SOEM_LOG_WARN "Group failed to reach OP in %d ms"
                     [timeout_ms] w)
      else
        let w := log_message SOEM_LOG_INFO "Recovery OK" [] w in
        (verify_slaves (Z.to_nat (slavecount c)) 1 c,
         Some (with_context c h), w)
  end.

(** *** Health *)

(** The counting loop of [soem_get_health], slaves [i .. i + n - 1]. *)
Fixpoint count_operational (n : nat) (i : Z) (c : ecx_contextt P) : Z :=
  match n with
  | O => 0
  | S n' =>
      (if Slave.state (get_slave c i) =? EC_STATE_OPERATIONAL then 1 else 0)
      + count_operational n' (i + 1) c
  end.

(** [soem_get_health]: the result code, the handle after the call, the
    caller's record after the call ([None] for a null [out]) and the
    world. *)
Definition soem_get_health (handle : option (soem_handle_t P))
    (out : option soem_health_t) (w : world)
  : Z * option (soem_handle_t P) * option soem_health_t * world :=
  match handle, out with
  | Some h, Some _ =>
      let g := group0 (context h) in
      let found := slavecount (context h) in
      let expected := Group.outputsWKC g * 2 + Group.inputsWKC g in
      let last := last_wkc h in
      let bytes_out := to_int (Group.Obytes g) in
      let bytes_in := to_int (Group.Ibytes g) in
      let '(_, c, w) := ecx_readstate (context h) w in
      let op := count_operational (Z.to_nat (slavecount c)) 1 c in
      let al :=
        if slavecount c >=? 1 then Slave.ALstatuscode (get_slave c 1)
        else Health.al_status_code Health.zero in
      (1, Some (with_context c h),
       Some (Health.mk found expected last bytes_out bytes_in op al), w)
  | _, _ => (0, handle, out, w)
  end.

(** *** Session lifecycle *)

(** The staging loop of [soem_initialize], slaves [i .. i + n - 1]. *)
Fixpoint stage_nop (n : nat) (i : Z) (h : soem_handle_t P) (w : world)
  : world :=
  match n with
  | O => w
  | S n' =>
      let '(ok, w) := soem_write_rxpdo (Some h) i (Some nop_command) w in
      let w :=
        if ok =? 0 then LOGE "write_rxpdo failed for slave %d" [i] w else w in
      stage_nop n' (i + 1) h w
  end.

(** The read-back loop of [soem_initialize], slaves [i .. i + n - 1]. *)
Fixpoint report_inputs (n : nat) (i : Z) (h : soem_handle_t P) (w : world)
  : world :=
  match n with
  | O => w
  | S n' =>
      let '(ok, tx, w) := soem_read_txpdo (Some h) i (Some zero_tx) w in
      let w :=
        match tx with
        | Some t =>
            if negb (ok =? 0)
            then LOGI "Slave %d ActualPosition=%d" [i; ActualPosition t] w
            else w
        | None => w
        end in
      report_inputs n' (i + 1) h w
  end.

Definition zero_context : ecx_contextt P :=
  mk_context (port_zero stack) [] 0 [].

(** [soem_initialize]: the handle ([None] for [NULL]) and the world. *)
Definition soem_initialize (ifname : option string) (w : world)
  : option (soem_handle_t P) * world :=
  let '(p, w) := malloc 1 w in                      (* calloc(1, sizeof) *)
  if p =? NULL then (None, w)
  else
    let '(rc, c, w) := ecx_init zero_context ifname w in
    if rc =? 0 then
      let w := LOGE "ecx_init failed for interface '%s'" [] w in
      (None, free p w)
    else
      let '(slave_count, c, w) := ecx_config_init c w in
      if slave_count <=? 0 then
        let w :=
          LOGE "ecx_config_init failed: no slaves found or error (rc=%d)"
               [slave_count] w in
        let '(c, w) := ecx_close c w in
        (None, free p w)
      else
        let iomap_size := 64 * 1024 in
        let '(io, w) := malloc iomap_size w in
        if io =? NULL then
          let w := LOGE "IOmap allocation failed (size=%zu)" [iomap_size] w in
          let '(c, w) := ecx_close c w in
          (None, free p w)
        else
          let w := with_memory (memset io 0 iomap_size (memory w)) w in
          let '(actual_size, c, w) := ecx_config_map_group c io 0 w in
          if actual_size <=? 0 then
            let w :=
              LOGE "ecx_config_map_group failed: rc=%d" [actual_size] w in
            let '(c, w) := ecx_close c w in
            (None, free p (free io w))
          else if to_size_t actual_size >? iomap_size then
            let w :=
              LOGE ("ecx_config_map_group: actual IOmap size (%d) exceeds " ++
                    "allocated size (%zu). Aborting to prevent memory " ++
                    "corruption.")
                   [actual_size; iomap_size] w in
            let '(c, w) := ecx_close c w in
            (None, free p (free io w))
          else
            let '(_, c, w) := ecx_configdc c w in
            let h := mk_handle p c io 0 0 (-1) 0 in
            let count := soem_get_slave_count (Some h) in
            let w := stage_nop (Z.to_nat count) 1 h w in
            let '(rc, h_opt, _, w) :=
              soem_exchange_process_data (Some h) None 0 None 0 2000 w in
            let h := match h_opt with Some h' => h' | None => h end in
            let w :=
              if rc <? 0 then LOGE "probe exchange failed rc=%d" [rc] w
              else w in
            let w := report_inputs (Z.to_nat count) 1 h w in
            let '(_, c, w) :=
              ecx_statecheck (context h) 0 EC_STATE_SAFE_OP
                             (EC_TIMEOUTSTATE * 4) w in
            let c :=
              set_slave c 0
                (Slave.set_state EC_STATE_OPERATIONAL (get_slave c 0)) in
            let '(_, c, w) := ecx_writestate c 0 w in
            let '(_, c, w) :=
              ecx_statecheck c 0 EC_STATE_OPERATIONAL EC_TIMEOUTSTATE w in
            let group := group0 c in
            (Some (mk_handle p c io (to_int (Group.Obytes group))
                             (to_int (Group.Ibytes group))
                             (last_wkc h) (last_expected_wkc h)),
             w).

(** [soem_shutdown] *)
Definition soem_shutdown (handle : option (soem_handle_t P)) (w : world)
  : world :=
  match handle with
  | None => w
  | Some h =>
      let c :=
        set_slave (context h) 0
          (Slave.set_state EC_STATE_INIT (get_slave (context h) 0)) in
      let '(_, c, w) := ecx_writestate c 0 w in
      let '(c, w) := ecx_close c w in
      free (base h) (free (IOmap h) w)
  end.

End Shim.

Arguments get_slave {P} c i.
Arguments set_slave {P} c i s.
Arguments group0 {P} c.
Arguments with_context {P} c h.

(** ** The older shim ([src/native/soemshim/soem_shim.c]) *)

Module Legacy.

(** Its [soem_handle_t].  The [IOmap[4096]] array is part of the struct's
    block; its bytes are in the flat memory and are reached through the
    pointers of the context. *)
Record soem_handle_t (P : Type) : Type := mk_handle {
  base : Z;
  context : ecx_contextt P;
  output_length : Z;
  input_length : Z
}.
Arguments mk_handle {P}.
Arguments base {P}.
Arguments context {P}.
Arguments output_length {P}.
Arguments input_length {P}.

Section Shim.

Context {P : Type}.
Variable stack : soem_api P.

(** [soem_exchange_process_data] of the older shim (lines 128-166): the
    result code, the handle after the call, the caller's [inputs] buffer
    after the call, and the world.  A negative [copy] converted to [size_t]
    is outside what [memcpy] defines; the model copies nothing then. *)
Definition soem_exchange_process_data (handle : option (soem_handle_t P))
    (outputs : option (list Z)) (outputs_length : Z)
    (inputs : option (list Z)) (inputs_length : Z) (timeout : Z) (w : world)
  : Z * option (soem_handle_t P) * option (list Z) * world :=
  match handle with
  | None => (-1, None, inputs, w)
  | Some h =>
      let group := group0 (context h) in
      let w :=
        match outputs with
        | Some buf =>
            if (outputs_length >? 0) && (Group.Obytes group >? 0) then
              let copy := outputs_length in
              let copy :=
                if copy >? to_int (Group.Obytes group)
                then to_int (Group.Obytes group) else copy in
              with_memory
                (store_bytes (Group.outputs group)
                             (buffer_prefix buf (Z.to_nat copy)) (memory w))
                w
            else w
        | None => w
        end in
      let '(wkc, c, w) := ecx_send_processdata stack (context h) w in
      if wkc <? 0 then
        (wkc, Some (mk_handle (base h) c (output_length h) (input_length h)),
         inputs, w)
      else
        let '(wkc, c, w) := ecx_receive_processdata stack c timeout w in
        let group := group0 c in
        let inputs' :=
          match inputs with
          | Some buf =>
              if (inputs_length >? 0) && (Group.Ibytes group >? 0) then
                let copy := inputs_length in
                let copy :=
                  if copy >? to_int (Group.Ibytes group)
                  then to_int (Group.Ibytes group) else copy in
                Some (buffer_fill buf
                        (load_bytes (Group.inputs group) (Z.to_nat copy)
                                    (memory w)))
              else inputs
          | None => None
          end in
        (wkc, Some (mk_handle (base h) c (output_length h) (input_length h)),
         inputs', w)
  end.

End Shim.

End Legacy.

(** ** A scripted bus

    A stand-in for the stack whose answers are fixed in advance: what
    discovery and mapping install and return, what one send and one receive
    return, the frame a receive leaves in the input region, and what a state
    check returns. *)

Module Mock.

Record bus : Type := mk_bus {
  init_rc : Z;
  found : Z;
  slaves : list ec_slavet;
  mapped : Z;
  groups : list ec_groupt;
  send_rc : Z;
  recv_rc : Z;
  frame : list Z;
  check_rc : Z
}.

Definition api (b : bus) : soem_api unit :=
  mk_api tt
    (fun c _ => (init_rc b, c))
    (fun c => (found b, mk_context tt (slaves b) (found b) (grouplist c)))
    (fun c _ _ m =>
       (mapped b, mk_context tt (slavelist c) (slavecount c) (groups b), m))
    (fun c => (1, c))
    (fun c _ _ _ => (check_rc b, c))
    (fun c _ => (0, c))
    (fun c => (check_rc b, c))
    (fun c m => (send_rc b, c, m))
    (fun c _ m =>
       (recv_rc b, c, store_bytes (Group.inputs (group0 c)) (frame b) m))
    (fun c => c).

(** One drive: 20 output bytes at 4096, 8 input bytes at 4116, in the
    image the second allocation returns. *)
Definition drive (st : Z) : ec_slavet := Slave.mk st 0 20 4096 8 4116.
Definition one_group : ec_groupt := Group.mk 20 4096 8 4116 1 1.

Definition one_drive (send recv chk st : Z) : bus :=
  mk_bus 1 1 [Slave.zero; drive st] 28 [one_group] send recv
         [57; 48; 0; 0; 33; 4; 8; 2] chk.

(** One drive whose regions are too short for the two records. *)
Definition short_group : ec_groupt := Group.mk 10 4096 4 4106 1 1.

Definition short_drive : bus :=
  mk_bus 1 1 [Slave.zero; Slave.mk 8 0 10 4096 4 4106] 14 [short_group]
         0 3 [1; 2; 3; 4] 8.

(** One drive on a group whose mapping gives no working-counter
    contribution. *)
Definition unmapped (recv : Z) : bus :=
  mk_bus 1 1 [Slave.zero; drive 8] 28 [Group.mk 20 4096 8 4116 0 0] 0 recv
         [57; 48; 0; 0; 33; 4; 8; 2] 8.

(** A bus on which discovery finds nothing, and one whose mapping claims
    more than the image holds. *)
Definition no_slaves : bus := mk_bus 1 0 [] 0 [] 0 0 [] 1.

Definition oversized : bus :=
  mk_bus 1 1 [Slave.zero; drive 8] 70000 [one_group] 0 3 [] 8.

Definition context_of (b : bus) : ecx_contextt unit :=
  mk_context tt (slaves b) (found b) (groups b).

Definition handle_of (b : bus) : soem_handle_t unit :=
  mk_handle 1024 (context_of b) 4096 20 8 (-1) 0.

(** The handle of a session whose last cycle observed and expected 3. *)
Definition cycled_handle_of (b : bus) : soem_handle_t unit :=
  mk_handle 1024 (context_of b) 4096 20 8 3 3.

Definition legacy_handle_of (b : bus) : Legacy.soem_handle_t unit :=
  Legacy.mk_handle 1024 (context_of b) 20 8.

(** A world whose memory holds [fill] everywhere, with the two blocks of a
    session live, or with both still to be allocated. *)
Definition world_of (fill : Z) : world :=
  mk_world (fun _ => fill) [4096; 1024] [] true [] [].

Definition fresh_world : world :=
  mk_world (fun _ => 0) [] [1024; 4096] true [] [].

(** A world whose input region at 4116 holds a status frame. *)
Definition status_world : world :=
  mk_world (store_bytes 4116 [255; 255; 255; 255; 165; 3; 32; 7] (fun _ => 0))
           [4096; 1024] [] true [] [].

(** The session [soem_initialize] creates on the bus [b]. *)
Definition session (b : bus) : option (soem_handle_t unit) * world :=
  soem_initialize (api b) (Some "eth0"%string) fresh_world.

End Mock.

(** ** The rest of the extended shim *)

(** [EC_MAXNAME] of SOEM. *)
Definition EC_MAXNAME : Z := 40.

(** The fields of [ec_slavet] that only [soem_scan_slaves] reads. *)
Record ec_slave_identity : Type := mk_identity {
  eep_man : Z;            (* uint32 *)
  eep_id : Z;             (* uint32 *)
  eep_rev : Z;            (* uint32 *)
  slave_name : list Z     (* char[EC_MAXNAME + 1] *)
}.

(** [soem_slave_info_t] *)
Record soem_slave_info_t : Type := mk_info {
  position : Z;
  vendor_id : Z;
  product_code : Z;
  revision : Z;
  name : list Z           (* char[EC_MAXNAME + 1] *)
}.

(** [strlen] of the C string held at the start of [s]: the index of its
    first zero byte.  An array without a zero byte counts in full (reading
    on past it is undefined in C). *)
Fixpoint c_strlen (s : list Z) : nat :=
  match s with
  | [] => O
  | c :: s' => if c =? 0 then O else S (c_strlen s')
  end.

(** [strnlen(s, n)] *)
Definition strnlen (s : list Z) (n : nat) : nat := Nat.min (c_strlen s) n.

(** The [n] bytes [strncpy(dst, src, n)] writes: the string, cut to [n]
    bytes, then zero bytes up to [n]. *)
Definition strncpy (src : list Z) (n : nat) : list Z :=
  firstn (strnlen src n) src ++ repeat 0 (n - strnlen src n).

Section Introspection.

Context {P : Type}.

(** [&context.slavelist[i]] seen through the identity fields, which
    [Slave.t] does not carry. *)
Variable identity_of : ecx_contextt P -> Z -> ec_slave_identity.

(** [ecx_elist2string]: the text of the oldest pending error of the
    context, [None] for a null pointer, and the context without that
    error. *)
Variable api_elist2string :
  ecx_contextt P -> option (list Z) * ecx_contextt P.

(** [soem_get_process_sizes]: the result code and the two integers behind
    [outputs] and [inputs] after the call ([None] for a null pointer). *)
Definition soem_get_process_sizes (handle : option (soem_handle_t P))
    (outputs inputs : option Z) : Z * option Z * option Z :=
  match handle, outputs, inputs with
  | Some h, Some _, Some _ =>
      (1, Some (output_length h), Some (input_length h))
  | _, _, _ => (0, outputs, inputs)
  end.

(** The loop of [soem_scan_slaves], turns [i .. i + n - 1], over the
    caller's array.  An entry the array does not have is written all the
    same (past the end of the array in C). *)
Fixpoint scan_loop (n : nat) (i : Z) (c : ecx_contextt P)
    (buffer : list soem_slave_info_t) : list soem_slave_info_t :=
  match n with
  | O => buffer
  | S n' =>
      let slave := identity_of c (i + 1) in
      let entry :=
        mk_info (i + 1) (eep_man slave) (eep_id slave) (eep_rev slave)
                (strncpy (slave_name slave) (Z.to_nat EC_MAXNAME) ++ [0]) in
      scan_loop n' (i + 1) c
        (array_set (mk_info 0 0 0 0 []) (Z.to_nat i) entry buffer)
  end.

(** [soem_scan_slaves]: the result and the caller's array after the call. *)
Definition soem_scan_slaves (handle : option (soem_handle_t P))
    (buffer : option (list soem_slave_info_t)) (max_count : Z)
  : Z * option (list soem_slave_info_t) :=
  match handle, buffer with
  | Some h, Some buf =>
      if max_count <=? 0 then (0, buffer)
      else
        let count := slavecount (context h) in
        let count := if count >? max_count then max_count else count in
        (count, Some (scan_loop (Z.to_nat count) 0 (context h) buf))
  | _, _ => (0, buffer)
  end.

(** [soem_drain_error_list]: the result code, the handle after the call,
    the caller's buffer after the call and the world.  The pointer
    arguments of the first message are left out of the log. *)
Definition soem_drain_error_list (handle : option (soem_handle_t P))
    (buf : option (list Z)) (buf_sz : Z) (w : world)
  : Z * option (soem_handle_t P) * option (list Z) * world :=
  match handle, buf with
  | Some h, Some b =>
      if buf_sz <=? 0 then
        (0, handle, buf,
         LOGE "Invalid arguments: h=%p, buf=%p, buf_sz=%d\n" [buf_sz] w)
      else
        let '(err, c) := api_elist2string (context h) in
        match err with
        | None =>
            (1, Some (with_context c h), Some (buffer_fill b [0]),
             LOGE "No error string available.\n" [] w)
        | Some e =>
            let n := strnlen e (Z.to_nat (buf_sz - 1)) in
            let b' := buffer_fill b (firstn n e ++ [0]) in
            (1, Some (with_context c h), Some b',
             if (0 <? Z.of_nat n)
             then LOGE "Drained error string: %s\n" [] w else w)
        end
  | _, _ =>
      (0, handle, buf,
       LOGE "Invalid arguments: h=%p, buf=%p, buf_sz=%d\n" [buf_sz] w)
  end.

End Introspection.

(** ** The rest of the older shim *)

Module LegacySession.

Section Shim.

Context {P : Type}.
Variable stack : soem_api P.

(** [offsetof(soem_handle_t, IOmap)] in the older struct, that is
    [sizeof(ecx_contextt)]. *)
Variable IOmap_offset : Z.

(** [soem_initialize] of the older shim (lines 29-64).  [calloc] zeroes the
    block, so the 4096 bytes of its [IOmap] array are zero. *)
Definition soem_initialize (ifname : option string) (w : world)
  : option (Legacy.soem_handle_t P) * world :=
  let '(p, w) := malloc 1 w in                      (* calloc(1, sizeof) *)
  if p =? NULL then (None, w)
  else
    let iomap := p + IOmap_offset in
    let w := with_memory (memset iomap 0 4096 (memory w)) w in
    let '(rc, c, w) := ecx_init stack (zero_context stack) ifname w in
    if rc =? 0 then (None, free p w)
    else
      let '(found, c, w) := ecx_config_init stack c w in
      if found <=? 0 then
        let '(c, w) := ecx_close stack c w in
        (None, free p w)
      else
        let '(_, c, w) := ecx_config_map_group stack c iomap 0 w in
        let '(_, c, w) := ecx_configdc stack c w in
        let '(_, c, w) :=
          ecx_statecheck stack c 0 EC_STATE_SAFE_OP (EC_TIMEOUTSTATE * 4) w in
        let c :=
          set_slave c 0
            (Slave.set_state EC_STATE_OPERATIONAL (get_slave c 0)) in
        let '(_, c, w) := ecx_writestate stack c 0 w in
        let '(_, c, w) :=
          ecx_statecheck stack c 0 EC_STATE_OPERATIONAL EC_TIMEOUTSTATE w in
        let group := group0 c in
        (Some (Legacy.mk_handle p c (to_int (Group.Obytes group))
                                (to_int (Group.Ibytes group))),
         w).

(** [soem_shutdown] of the older shim (lines 66-77). *)
Definition soem_shutdown (handle : option (Legacy.soem_handle_t P))
    (w : world) : world :=
  match handle with
  | None => w
  | Some h =>
      let c :=
        set_slave (Legacy.context h) 0
          (Slave.set_state EC_STATE_INIT (get_slave (Legacy.context h) 0)) in
      let '(_, c, w) := ecx_writestate stack c 0 w in
      let '(c, w) := ecx_close stack c w in
      free (Legacy.base h) w
  end.

End Shim.

End LegacySession.

(** ** Further scripted set-ups *)

Module Rig.

(** The drive of [Mock.one_drive], and a second slave whose 8 input bytes
    lie over bytes 4..11 of the drive's output region. *)
Definition mirror_context : ecx_contextt unit :=
  mk_context tt [Slave.zero; Mock.drive 8; Slave.mk 8 0 0 NULL 8 4100] 2
             [Mock.one_group].

Definition mirror_handle : soem_handle_t unit :=
  mk_handle 1024 mirror_context 4096 20 8 (-1) 0.

Definition dpos : DriveRxPDO := mk_rx [68; 80; 79; 83] (-2) 1000 500 600 1.

(** The handle of the session brought up on [Mock.one_drive 0 3 8 8]. *)
Definition session_handle : soem_handle_t unit := Eval vm_compute in
  match fst (Mock.session (Mock.one_drive 0 3 8 8)) with
  | Some h => h
  | None => Mock.handle_of (Mock.one_drive 0 3 8 8)
  end.

(** The older shim on the same bus: its image lies 3072 bytes into the
    handle, at 4096 for a handle at 1024. *)
Definition legacy_session
  : option (Legacy.soem_handle_t unit) * world :=
  LegacySession.soem_initialize (Mock.api (Mock.one_drive 0 3 8 8)) 3072
                                (Some "eth0"%string) Mock.fresh_world.

Definition legacy_session_handle : Legacy.soem_handle_t unit :=
  Eval vm_compute in
  match fst legacy_session with
  | Some h => h
  | None => Mock.legacy_handle_of (Mock.one_drive 0 3 8 8)
  end.

(** Identity fields for every slave: vendor 1337, product 100 plus the
    position, revision 2, and the name "XD-C". *)
Definition identity_of (c : ecx_contextt unit) (i : Z) : ec_slave_identity :=
  mk_identity 1337 (100 + i) 2 ([88; 68; 45; 67] ++ repeat 0 37).

(** An error list whose oldest entry reads "SDO abort", and an empty
    one. *)
Definition pending_error (c : ecx_contextt unit)
  : option (list Z) * ecx_contextt unit :=
  (Some [83; 68; 79; 32; 97; 98; 111; 114; 116; 0], c).

Definition no_error (c : ecx_contextt unit)
  : option (list Z) * ecx_contextt unit := (None, c).

(** Two info records the caller's array holds before a scan. *)
Definition stale_info : soem_slave_info_t := mk_info 9 9 9 9 [].

End Rig.

(** * Properties *)

(** ** Integers and bytes *)

Lemma to_int_small (x : Z) : 0 <= x <= INT_MAX -> to_int x = x.
Proof.
  unfold to_int, INT_MAX. intros Hx.
  rewrite Z.mod_small by lia. lia.
Qed.

Lemma to_int_signed (x : Z) :
  -2147483648 <= x <= INT_MAX -> to_int x = x.
Proof.
  unfold to_int, INT_MAX. intros Hx.
  rewrite Z.mod_small by lia. lia.
Qed.

Lemma bit_testbit (b k : Z) : 0 <= k -> bit b k = Z.b2z (Z.testbit b k).
Proof.
  intros Hk. unfold bit.
  change 1 with (Z.ones 1) at 1.
  rewrite Z.land_ones by lia.
  change (2 ^ 1) with 2.
  rewrite <- Z.bit0_mod, Z.shiftr_spec by lia.
  reflexivity.
Qed.

Lemma bit_is_flag (b k : Z) : 0 <= k -> bit b k = 0 \/ bit b k = 1.
Proof.
  intros Hk. rewrite bit_testbit by assumption.
  destruct (Z.testbit b k); simpl; auto.
Qed.

Lemma length_le_bytes (n : nat) : forall v, List.length (le_bytes n v) = n.
Proof.
  induction n as [|n IH]; intros v; simpl; [reflexivity|].
  now rewrite IH.
Qed.

Lemma le_bytes_range (n : nat) :
  forall v b, In b (le_bytes n v) -> 0 <= b < 256.
Proof.
  induction n as [|n IH]; intros v b; simpl; [tauto|].
  intros [<- | Hin]; [|now apply (IH (Z.shiftr v 8))].
  change 255 with (Z.ones 8). rewrite Z.land_ones by lia.
  apply Z.mod_pos_bound. reflexivity.
Qed.

(** The bytes [le_bytes] writes are the little-endian representation: read
    back, they give the value modulo the width. *)
Lemma le_value_le_bytes (n : nat) :
  forall v, le_value (le_bytes n v) = v mod 2 ^ (8 * Z.of_nat n).
Proof.
  induction n as [|n IH]; intros v.
  - simpl. now rewrite Z.mod_1_r.
  - cbn [le_bytes le_value]. rewrite IH.
    replace (8 * Z.of_nat (S n)) with (8 * Z.of_nat n + 8) by lia.
    change 255 with (Z.ones 8).
    rewrite <- !Z.land_ones by lia.
    apply Z.bits_inj'. intros k Hk.
    rewrite Z.lor_spec, !Z.land_spec.
    destruct (Z_lt_ge_dec k 8) as [Hlt | Hge].
    + rewrite Z.shiftl_spec_low by assumption.
      rewrite !Z.ones_spec_low by lia.
      now rewrite orb_false_r.
    + rewrite Z.shiftl_spec by assumption.
      rewrite Z.land_spec, Z.shiftr_spec by lia.
      rewrite (Z.ones_spec_high 8 k) by lia.
      replace (k - 8 + 8) with k by lia.
      rewrite andb_false_r. cbn [orb].
      destruct (Z_lt_ge_dec k (8 * Z.of_nat n + 8)) as [Hlt' | Hge'].
      * now rewrite !Z.ones_spec_low by lia.
      * now rewrite !Z.ones_spec_high by lia.
Qed.

(** A 32-bit signed value survives being written and read back. *)
Lemma int32_roundtrip (v : Z) :
  -2147483648 <= v <= INT_MAX -> to_int (le_value (le_bytes 4 v)) = v.
Proof.
  intros Hv. rewrite le_value_le_bytes.
  change (2 ^ (8 * Z.of_nat 4)) with 4294967296.
  unfold to_int, INT_MAX in *.
  rewrite Zplus_mod_idemp_l.
  rewrite Z.mod_small by lia. lia.
Qed.

(** ** Memory *)

Lemma store_bytes_outside (bs : list Z) :
  forall a m x,
    x < a \/ a + Z.of_nat (List.length bs) <= x -> store_bytes a bs m x = m x.
Proof.
  induction bs as [|b bs IH]; intros a m x Hx; simpl in *; [reflexivity|].
  rewrite IH by lia. unfold store.
  destruct (Z.eqb_spec x a); [lia | reflexivity].
Qed.

Lemma store_bytes_inside (bs : list Z) :
  forall a m i,
    (i < List.length bs)%nat -> store_bytes a bs m (a + Z.of_nat i) = nth i bs 0.
Proof.
  induction bs as [|b bs IH]; intros a m i Hi; simpl in *; [lia|].
  destruct i as [|i].
  - rewrite store_bytes_outside by lia. unfold store.
    replace (a + Z.of_nat 0) with a by lia. now rewrite Z.eqb_refl.
  - replace (a + Z.of_nat (S i)) with (a + 1 + Z.of_nat i) by lia.
    apply IH. lia.
Qed.

Lemma store_bytes_app (xs ys : list Z) :
  forall a m,
    store_bytes a (xs ++ ys) m =
    store_bytes (a + Z.of_nat (List.length xs)) ys (store_bytes a xs m).
Proof.
  induction xs as [|x xs IH]; intros a m; simpl.
  - now replace (a + 0) with a by lia.
  - rewrite IH. f_equal. lia.
Qed.

Lemma length_load_bytes (n : nat) :
  forall a m, List.length (load_bytes a n m) = n.
Proof.
  induction n as [|n IH]; intros a m; simpl; [reflexivity|].
  now rewrite IH.
Qed.

Lemma nth_load_bytes (n : nat) :
  forall a m i, (i < n)%nat -> nth i (load_bytes a n m) 0 = m (a + Z.of_nat i).
Proof.
  induction n as [|n IH]; intros a m i Hi; [lia|].
  destruct i as [|i]; simpl.
  - now replace (a + 0) with a by lia.
  - rewrite IH by lia. f_equal. lia.
Qed.

Lemma load_bytes_ext (n : nat) :
  forall a m1 m2,
    (forall k, 0 <= k < Z.of_nat n -> m1 (a + k) = m2 (a + k)) ->
    load_bytes a n m1 = load_bytes a n m2.
Proof.
  induction n as [|n IH]; intros a m1 m2 Hagree; simpl; [reflexivity|].
  f_equal.
  - specialize (Hagree 0). rewrite Z.add_0_r in Hagree. apply Hagree. lia.
  - apply IH. intros k Hk.
    replace (a + 1 + k) with (a + (1 + k)) by lia. apply Hagree. lia.
Qed.

Lemma load_bytes_store_bytes (bs : list Z) :
  forall a m, load_bytes a (List.length bs) (store_bytes a bs m) = bs.
Proof.
  induction bs as [|b bs IH]; intros a m; simpl; [reflexivity|].
  rewrite IH. f_equal.
  rewrite store_bytes_outside by lia.
  unfold store. now rewrite Z.eqb_refl.
Qed.

Lemma load_bytes_field (pre bs post : list Z) (a x : Z) (n : nat) (m : mem) :
  x = a + Z.of_nat (List.length pre) ->
  n = List.length bs ->
  load_bytes x n (store_bytes a (pre ++ bs ++ post) m) = bs.
Proof.
  intros -> ->. rewrite !store_bytes_app.
  transitivity (load_bytes (a + Z.of_nat (List.length pre)) (List.length bs)
                  (store_bytes (a + Z.of_nat (List.length pre)) bs
                     (store_bytes a pre m))).
  - apply load_bytes_ext. intros k Hk.
    apply store_bytes_outside. lia.
  - apply load_bytes_store_bytes.
Qed.

Lemma length_buffer_prefix (buf : list Z) (n : nat) :
  List.length (buffer_prefix buf n) = n.
Proof. unfold buffer_prefix. now rewrite length_map, length_seq. Qed.

Lemma nth_map_seq (f : nat -> Z) (n : nat) :
  forall s i, (i < n)%nat -> nth i (map f (seq s n)) 0 = f (s + i)%nat.
Proof.
  induction n as [|n IH]; intros s i Hi; [lia|].
  destruct i as [|i]; simpl.
  - now rewrite Nat.add_0_r.
  - rewrite IH by lia. f_equal. lia.
Qed.

Lemma nth_buffer_prefix (buf : list Z) (n i : nat) :
  (i < n)%nat -> nth i (buffer_prefix buf n) 0 = nth i buf 0.
Proof.
  intros Hi. unfold buffer_prefix. now rewrite nth_map_seq.
Qed.

Lemma firstn_buffer_fill (buf bs : list Z) :
  firstn (List.length bs) (buffer_fill buf bs) = bs.
Proof.
  unfold buffer_fill.
  rewrite firstn_app, Nat.sub_diag, firstn_all. simpl. apply app_nil_r.
Qed.

Lemma skipn_buffer_fill (buf bs : list Z) :
  skipn (List.length bs) (buffer_fill buf bs) = skipn (List.length bs) buf.
Proof.
  unfold buffer_fill.
  rewrite skipn_app, Nat.sub_diag, skipn_all. reflexivity.
Qed.

(** ** The world under logging and bus calls *)

Lemma memory_log_message lvl fmt args w :
  memory (log_message lvl fmt args w) = memory w.
Proof. unfold log_message. now destruct (log_cb w). Qed.

Lemma heap_log_message lvl fmt args w :
  heap (log_message lvl fmt args w) = heap w.
Proof. unfold log_message. now destruct (log_cb w). Qed.

Lemma bus_calls_log_message lvl fmt args w :
  bus_calls (log_message lvl fmt args w) = bus_calls w.
Proof. unfold log_message. now destruct (log_cb w). Qed.

(** ** PDO codec *)

Section Codec.

Context {P : Type}.

Lemma index_in_range (h : soem_handle_t P) (i : Z) :
  0 < i <= slavecount (context h) ->
  (i <=? 0) || (i >? slavecount (context h)) = false.
Proof.
  intros Hi. apply orb_false_iff. split.
  - apply Z.leb_gt. lia.
  - rewrite Z.gtb_ltb. apply Z.ltb_ge. lia.
Qed.

(** The six writes of [soem_write_rxpdo] amount to one write of 17 bytes. *)
Lemma write_rxpdo_image (buf : Z) (r : DriveRxPDO) (m : mem) :
  store (buf + 16) (Execute r)
    (store_bytes (buf + 14) (le_bytes 2 (Deceleration r))
       (store_bytes (buf + 12) (le_bytes 2 (Acceleration r))
          (store_bytes (buf + 8) (le_bytes 4 (Velocity r))
             (store_bytes (buf + 4) (le_bytes 4 (Parameter_ r))
                (store_bytes (buf + 0) (buffer_prefix (Command r) 4) m)))))
  = store_bytes buf
      (buffer_prefix (Command r) 4 ++ le_bytes 4 (Parameter_ r) ++
       le_bytes 4 (Velocity r) ++ le_bytes 2 (Acceleration r) ++
       le_bytes 2 (Deceleration r) ++ [Execute r]) m.
Proof.
  rewrite !store_bytes_app.
  rewrite length_buffer_prefix, !length_le_bytes.
  cbn [store_bytes].
  repeat (f_equal; try lia).
Qed.

(** C3.  On a slave whose output region has at least 20 bytes,
    [soem_write_rxpdo] succeeds and writes 17 bytes: the first four bytes of
    the command at offset 0, the parameter at 4, the velocity at 8, the
    acceleration at 12, the deceleration at 14 (each least significant byte
    first) and the execute flag at 16; no other byte of memory changes, so
    bytes 17-19 of the region keep their values.  On a slave whose output
    region is shorter than 20 bytes it returns 0 and memory is unchanged. *)
Theorem write_rxpdo_layout (h : soem_handle_t P) (i : Z) (r : DriveRxPDO)
    (w : world) :
  0 < i <= slavecount (context h) ->
  Slave.outputs (get_slave (context h) i) <> NULL ->
  0 <= Slave.Obytes (get_slave (context h) i) <= INT_MAX ->
  let s := get_slave (context h) i in
  let buf := Slave.outputs s in
  let rc := fst (soem_write_rxpdo (Some h) i (Some r) w) in
  let w' := snd (soem_write_rxpdo (Some h) i (Some r) w) in
  (IO_RX_BYTES <= Slave.Obytes s ->
   rc = 1 /\
   load_bytes buf 4 (memory w') = buffer_prefix (Command r) 4 /\
   load_bytes (buf + 4) 4 (memory w') = le_bytes 4 (Parameter_ r) /\
   load_bytes (buf + 8) 4 (memory w') = le_bytes 4 (Velocity r) /\
   load_bytes (buf + 12) 2 (memory w') = le_bytes 2 (Acceleration r) /\
   load_bytes (buf + 14) 2 (memory w') = le_bytes 2 (Deceleration r) /\
   memory w' (buf + 16) = Execute r /\
   load_bytes (buf + 17) 3 (memory w') = load_bytes (buf + 17) 3 (memory w) /\
   (forall a, a < buf \/ buf + 17 <= a -> memory w' a = memory w a)) /\
  (Slave.Obytes s < IO_RX_BYTES ->
   rc = 0 /\ forall a, memory w' a = memory w a).
Proof.
  intros Hi Hptr Hsz. cbv zeta.
  unfold soem_write_rxpdo.
  rewrite (index_in_range h i Hi).
  destruct (Z.eqb_spec (Slave.outputs (get_slave (context h) i)) NULL)
    as [Hnull | _]; [contradiction|].
  rewrite (to_int_small _ Hsz).
  set (buf := Slave.outputs (get_slave (context h) i)).
  split; intros Hlen.
  - destruct (Z.ltb_spec (Slave.Obytes (get_slave (context h) i)) IO_RX_BYTES)
      as [Hlt | _]; [lia|].
    cbn [fst snd memory with_memory].
    rewrite write_rxpdo_image.
    set (image := buffer_prefix (Command r) 4 ++ le_bytes 4 (Parameter_ r) ++
                  le_bytes 4 (Velocity r) ++ le_bytes 2 (Acceleration r) ++
                  le_bytes 2 (Deceleration r) ++ [Execute r]).
    assert (Hin : forall k, (k < 17)%nat ->
              store_bytes buf image (memory w) (buf + Z.of_nat k)
              = nth k image 0).
    { intros k Hk. apply store_bytes_inside. exact Hk. }
    assert (Hout : forall a, a < buf \/ buf + 17 <= a ->
              store_bytes buf image (memory w) a = memory w a).
    { intros a Ha. apply store_bytes_outside. exact Ha. }
    split; [reflexivity|].
    split.
    { apply (load_bytes_field [] (buffer_prefix (Command r) 4)); [|reflexivity].
      cbn [List.length]. lia. }
    split.
    { now apply (load_bytes_field (buffer_prefix (Command r) 4)
                   (le_bytes 4 (Parameter_ r))). }
    split.
    { now apply (load_bytes_field
                   (buffer_prefix (Command r) 4 ++ le_bytes 4 (Parameter_ r))
                   (le_bytes 4 (Velocity r))). }
    split.
    { now apply (load_bytes_field
                   (buffer_prefix (Command r) 4 ++ le_bytes 4 (Parameter_ r) ++
                    le_bytes 4 (Velocity r))
                   (le_bytes 2 (Acceleration r))). }
    split.
    { now apply (load_bytes_field
                   (buffer_prefix (Command r) 4 ++ le_bytes 4 (Parameter_ r) ++
                    le_bytes 4 (Velocity r) ++ le_bytes 2 (Acceleration r))
                   (le_bytes 2 (Deceleration r))). }
    split.
    { replace (buf + 16) with (buf + Z.of_nat 16) by lia.
      rewrite Hin by lia. reflexivity. }
    split.
    { apply load_bytes_ext. intros k Hk. apply Hout. lia. }
    exact Hout.
  - destruct (Z.ltb_spec (Slave.Obytes (get_slave (context h) i)) IO_RX_BYTES)
      as [_ | Hge]; [|lia].
    cbn [fst snd]. split; [reflexivity|].
    intros a. unfold LOGE. now rewrite memory_log_message.
Qed.

(** What [soem_read_txpdo] computes from memory on its success path. *)
Lemma read_txpdo_success (h : soem_handle_t P) (i : Z) (o : DriveTxPDO)
    (w : world) :
  0 < i <= slavecount (context h) ->
  Slave.inputs (get_slave (context h) i) <> NULL ->
  IO_TX_BYTES <= Slave.Ibytes (get_slave (context h) i) <= INT_MAX ->
  let buf := Slave.inputs (get_slave (context h) i) in
  let m := memory w in
  soem_read_txpdo (Some h) i (Some o) w =
  (1,
   Some (mk_tx
           (to_int (le_value [m buf; m (buf + 1); m (buf + 2); m (buf + 3)]))
           (Z.b2z (Z.testbit (m (buf + 4)) 0))
           (Z.b2z (Z.testbit (m (buf + 4)) 1))
           (Z.b2z (Z.testbit (m (buf + 4)) 2))
           (Z.b2z (Z.testbit (m (buf + 4)) 3))
           (Z.b2z (Z.testbit (m (buf + 4)) 4))
           (Z.b2z (Z.testbit (m (buf + 4)) 5))
           (Z.b2z (Z.testbit (m (buf + 4)) 6))
           (Z.b2z (Z.testbit (m (buf + 4)) 7))
           (Z.b2z (Z.testbit (m (buf + 5)) 0))
           (Z.b2z (Z.testbit (m (buf + 5)) 1))
           (Z.b2z (Z.testbit (m (buf + 5)) 2))
           (Z.b2z (Z.testbit (m (buf + 5)) 3))
           (Z.b2z (Z.testbit (m (buf + 5)) 4))
           (Z.b2z (Z.testbit (m (buf + 5)) 5))
           (Z.b2z (Z.testbit (m (buf + 5)) 6))
           (Z.b2z (Z.testbit (m (buf + 5)) 7))
           (Z.b2z (Z.testbit (m (buf + 6)) 0))
           (Z.b2z (Z.testbit (m (buf + 6)) 1))
           (Z.b2z (Z.testbit (m (buf + 6)) 2))
           (Z.b2z (Z.testbit (m (buf + 6)) 3))
           (Z.b2z (Z.testbit (m (buf + 6)) 4))
           (Z.b2z (Z.testbit (m (buf + 6)) 5))
           (m (buf + 7))),
   w).
Proof.
  intros Hi Hptr Hsz. cbv zeta.
  unfold soem_read_txpdo.
  rewrite (index_in_range h i Hi).
  destruct (Z.eqb_spec (Slave.inputs (get_slave (context h) i)) NULL)
    as [Hnull | _]; [contradiction|].
  rewrite to_int_small by (unfold IO_TX_BYTES in Hsz; lia).
  destruct (Z.ltb_spec (Slave.Ibytes (get_slave (context h) i)) IO_TX_BYTES)
    as [Hlt | _]; [lia|].
  rewrite !bit_testbit by lia.
  cbn [load_bytes].
  set (buf := Slave.inputs (get_slave (context h) i)).
  replace (buf + 0) with buf by lia.
  replace (buf + 1 + 1) with (buf + 2) by lia.
  replace (buf + 2 + 1) with (buf + 3) by lia.
  reflexivity.
Qed.

(** C2.  On a slave whose input region has at least 8 bytes,
    [soem_read_txpdo] succeeds and fills the record from bytes 0..7 of the
    region alone: the position is the signed 32-bit little-endian value of
    bytes 0-3, the 22 flags are bits 0-7 of byte 4, bits 0-7 of byte 5 and
    bits 0-5 of byte 6, in the order of the table, and the slot is byte 7;
    memory that agrees on these 8 bytes gives the same record.  On a slave
    whose input region is shorter than 8 bytes it returns 0, leaves the
    record alone, and the outcome is the same whatever memory holds. *)
Theorem read_txpdo_layout (h : soem_handle_t P) (i : Z) (o : DriveTxPDO)
    (w : world) :
  0 < i <= slavecount (context h) ->
  Slave.inputs (get_slave (context h) i) <> NULL ->
  0 <= Slave.Ibytes (get_slave (context h) i) <= INT_MAX ->
  let s := get_slave (context h) i in
  let buf := Slave.inputs s in
  let m := memory w in
  (IO_TX_BYTES <= Slave.Ibytes s ->
   soem_read_txpdo (Some h) i (Some o) w =
   (1,
    Some (mk_tx
            (to_int (le_value [m buf; m (buf + 1); m (buf + 2); m (buf + 3)]))
            (Z.b2z (Z.testbit (m (buf + 4)) 0))
            (Z.b2z (Z.testbit (m (buf + 4)) 1))
            (Z.b2z (Z.testbit (m (buf + 4)) 2))
            (Z.b2z (Z.testbit (m (buf + 4)) 3))
            (Z.b2z (Z.testbit (m (buf + 4)) 4))
            (Z.b2z (Z.testbit (m (buf + 4)) 5))
            (Z.b2z (Z.testbit (m (buf + 4)) 6))
            (Z.b2z (Z.testbit (m (buf + 4)) 7))
            (Z.b2z (Z.testbit (m (buf + 5)) 0))
            (Z.b2z (Z.testbit (m (buf + 5)) 1))
            (Z.b2z (Z.testbit (m (buf + 5)) 2))
            (Z.b2z (Z.testbit (m (buf + 5)) 3))
            (Z.b2z (Z.testbit (m (buf + 5)) 4))
            (Z.b2z (Z.testbit (m (buf + 5)) 5))
            (Z.b2z (Z.testbit (m (buf + 5)) 6))
            (Z.b2z (Z.testbit (m (buf + 5)) 7))
            (Z.b2z (Z.testbit (m (buf + 6)) 0))
            (Z.b2z (Z.testbit (m (buf + 6)) 1))
            (Z.b2z (Z.testbit (m (buf + 6)) 2))
            (Z.b2z (Z.testbit (m (buf + 6)) 3))
            (Z.b2z (Z.testbit (m (buf + 6)) 4))
            (Z.b2z (Z.testbit (m (buf + 6)) 5))
            (m (buf + 7))),
    w) /\
   (forall m2,
      (forall k, 0 <= k < 8 -> m2 (buf + k) = m (buf + k)) ->
      fst (soem_read_txpdo (Some h) i (Some o) (with_memory m2 w)) =
      fst (soem_read_txpdo (Some h) i (Some o) w))) /\
  (Slave.Ibytes s < IO_TX_BYTES ->
   fst (soem_read_txpdo (Some h) i (Some o) w) = (0, Some o) /\
   (forall m2,
      fst (soem_read_txpdo (Some h) i (Some o) (with_memory m2 w)) =
      fst (soem_read_txpdo (Some h) i (Some o) w))).
Proof.
  intros Hi Hptr Hsz. cbv zeta. split; intros Hlen.
  - split; [apply read_txpdo_success; auto; lia|].
    intros m2 Hagree.
    rewrite !read_txpdo_success by (auto; lia).
    cbn [fst memory with_memory].
    set (buf := Slave.inputs (get_slave (context h) i)) in *.
    assert (H0 := Hagree 0). rewrite Z.add_0_r in H0.
    rewrite H0, !Hagree by lia.
    reflexivity.
  - assert (Hfail : forall w0,
              fst (soem_read_txpdo (Some h) i (Some o) w0) = (0, Some o)).
    { intros w0. unfold soem_read_txpdo.
      rewrite (index_in_range h i Hi).
      destruct (Z.eqb_spec (Slave.inputs (get_slave (context h) i)) NULL)
        as [Hnull | _]; [contradiction|].
      rewrite (to_int_small _ Hsz).
      destruct (Z.ltb_spec (Slave.Ibytes (get_slave (context h) i))
                           IO_TX_BYTES) as [_ | Hge]; [reflexivity | lia]. }
    split; [apply Hfail|].
    intros m2. now rewrite !Hfail.
Qed.

(** A call that returns 0 has not touched the caller's record. *)
Lemma read_txpdo_zero_keeps_record (handle : option (soem_handle_t P))
    (i : Z) (out : option DriveTxPDO) (w : world) :
  fst (fst (soem_read_txpdo handle i out w)) = 0 ->
  snd (fst (soem_read_txpdo handle i out w)) = out.
Proof.
  unfold soem_read_txpdo.
  destruct handle as [h|]; [|reflexivity].
  destruct out as [o|]; [|reflexivity].
  destruct ((i <=? 0) || (i >? slavecount (context h))); [reflexivity|].
  destruct (Slave.inputs (get_slave (context h) i) =? NULL); [reflexivity|].
  destruct (to_int (Slave.Ibytes (get_slave (context h) i)) <? IO_TX_BYTES);
    [reflexivity|].
  cbn [fst snd]. discriminate.
Qed.

(** C10.  Every failing call of [soem_read_txpdo] - null handle, null
    record, slave index not in [1 .. slavecount], null input-region pointer,
    or an input region shorter than 8 bytes - returns 0 and leaves the
    caller's record as it was. *)
Theorem read_txpdo_failure_keeps_record (handle : option (soem_handle_t P))
    (i : Z) (out : option DriveTxPDO) (w : world) :
  (handle = None \/
   out = None \/
   i <= 0 \/
   exists h, handle = Some h /\
     (slavecount (context h) < i \/
      Slave.inputs (get_slave (context h) i) = NULL \/
      0 <= Slave.Ibytes (get_slave (context h) i) < IO_TX_BYTES)) ->
  fst (fst (soem_read_txpdo handle i out w)) = 0 /\
  snd (fst (soem_read_txpdo handle i out w)) = out.
Proof.
  intros Hfail.
  assert (Hrc : fst (fst (soem_read_txpdo handle i out w)) = 0).
  { unfold soem_read_txpdo.
    destruct handle as [h|]; [|reflexivity].
    destruct out as [o|]; [|reflexivity].
    destruct (Z.leb_spec i 0) as [Hle | Hpos]; [reflexivity|].
    destruct (Z.gtb_spec i (slavecount (context h))) as [Hgt | Hin];
      [reflexivity|].
    cbn [orb].
    destruct (Z.eqb_spec (Slave.inputs (get_slave (context h) i)) NULL)
      as [Hnull | Hptr]; [reflexivity|].
    destruct (Z.ltb_spec (to_int (Slave.Ibytes (get_slave (context h) i)))
                         IO_TX_BYTES) as [Hlt | Hge]; [reflexivity|].
    exfalso.
    destruct Hfail as [Hh | [Ho | [Hi | [h' [Hh [Hcnt | [Hnull | Hlen]]]]]]];
      try discriminate; try lia.
    - injection Hh as <-. lia.
    - injection Hh as <-. contradiction.
    - injection Hh as <-.
      rewrite to_int_small in Hge by (unfold INT_MAX, IO_TX_BYTES in *; lia).
      lia. }
  split; [exact Hrc|].
  now apply read_txpdo_zero_keeps_record.
Qed.

End Codec.

(** ** Cyclic exchange *)

Section Exchange.

Context {P : Type}.
Variable stack : soem_api P.

(** The world [soem_exchange_process_data] hands to the send step. *)
Local Abbreviation staged h outputs outputs_len w :=
  (with_memory
     (stage_outputs (group0 (context h)) outputs outputs_len (memory w)) w).

(** The timeout it hands to the receive step. *)
Local Abbreviation clamped t := (if (t <? 0)%Z then 0%Z else t%Z).

Lemma bus_calls_send (c : ecx_contextt P) (w : world) :
  bus_calls (snd (ecx_send_processdata stack c w)) =
  bus_calls w ++
  [call_send_processdata (fst (fst (ecx_send_processdata stack c w)))].
Proof.
  unfold ecx_send_processdata.
  destruct (api_send_processdata stack c (memory w)) as [[rc c'] m'].
  reflexivity.
Qed.

Lemma bus_calls_receive (c : ecx_contextt P) (t : Z) (w : world) :
  bus_calls (snd (ecx_receive_processdata stack c t w)) =
  bus_calls w ++
  [call_receive_processdata t
     (fst (fst (ecx_receive_processdata stack c t w)))].
Proof.
  unfold ecx_receive_processdata.
  destruct (api_receive_processdata stack c t (memory w)) as [[rc c'] m'].
  reflexivity.
Qed.

(** C1.  When the send and the receive both return a non-negative result,
    the expected working counter is twice the group's output contribution
    plus its input contribution.  If it is not positive the observed counter
    is returned as it is (a non-negative value, not an error code); if it is
    positive and the observed counter is below it, the call returns
    [SOEM_ERR_WKC_LOW], which is -10; otherwise it returns the observed
    counter. *)
Theorem exchange_wkc_policy (h : soem_handle_t P)
    (outputs : option (list Z)) (outputs_len : Z)
    (inputs : option (list Z)) (inputs_len timeout_us : Z) (w : world) :
  let sent :=
    ecx_send_processdata stack (context h) (staged h outputs outputs_len w) in
  let received :=
    ecx_receive_processdata stack (snd (fst sent)) (clamped timeout_us)
                            (snd sent) in
  let g := group0 (snd (fst sent)) in
  let expected := 2 * Group.outputsWKC g + Group.inputsWKC g in
  let wkc := fst (fst received) in
  let rc :=
    fst (fst (fst (soem_exchange_process_data stack (Some h) outputs
                     outputs_len inputs inputs_len timeout_us w))) in
  0 <= fst (fst sent) ->
  0 <= wkc ->
  (expected <= 0 -> rc = wkc /\ 0 <= rc) /\
  (0 < expected -> wkc < expected -> rc = SOEM_ERR_WKC_LOW /\ rc = -10) /\
  (0 < expected -> expected <= wkc -> rc = wkc).
Proof.
  cbv zeta. unfold soem_exchange_process_data.
  destruct (ecx_send_processdata stack (context h)
              (staged h outputs outputs_len w)) as [[wkc_s c1] w1].
  cbn [fst snd].
  destruct (ecx_receive_processdata stack c1 (clamped timeout_us) w1)
    as [[wkc_r c2] w2].
  cbn [fst snd]. intros Hs Hr.
  destruct (Z.ltb_spec wkc_s 0) as [Hneg | _]; [lia|].
  destruct (Z.ltb_spec wkc_r 0) as [Hneg | _]; [lia|].
  replace (Group.outputsWKC (group0 c1) * 2 + Group.inputsWKC (group0 c1))
    with (2 * Group.outputsWKC (group0 c1) + Group.inputsWKC (group0 c1))
    by lia.
  set (expected :=
         2 * Group.outputsWKC (group0 c1) + Group.inputsWKC (group0 c1)).
  destruct (Z.leb_spec expected 0) as [Hle | Hpos].
  - cbn [fst]. repeat split; intros; try lia.
  - destruct (Z.ltb_spec wkc_r expected) as [Hlow | Hok];
      cbn [fst]; repeat split; intros; try reflexivity; lia.
Qed.

(** C9.  A negative send result makes the call return
    [SOEM_ERR_SEND_FAIL] without reaching the receive step, and the handle
    keeps its [last_wkc] and [last_expected_wkc].  Otherwise the receive
    step runs, and the handle then holds the receive result in [last_wkc],
    negative or not, and the expected counter in [last_expected_wkc]; a
    negative receive result makes the call return [SOEM_ERR_RECV_FAIL]. *)
Theorem exchange_cache_update (h : soem_handle_t P)
    (outputs : option (list Z)) (outputs_len : Z)
    (inputs : option (list Z)) (inputs_len timeout_us : Z) (w : world) :
  let sent :=
    ecx_send_processdata stack (context h) (staged h outputs outputs_len w) in
  let received :=
    ecx_receive_processdata stack (snd (fst sent)) (clamped timeout_us)
                            (snd sent) in
  let g := group0 (snd (fst sent)) in
  let res :=
    soem_exchange_process_data stack (Some h) outputs outputs_len inputs
                               inputs_len timeout_us w in
  let rc := fst (fst (fst res)) in
  let h' := snd (fst (fst res)) in
  (fst (fst sent) < 0 ->
   rc = SOEM_ERR_SEND_FAIL /\
   option_map last_wkc h' = Some (last_wkc h) /\
   option_map last_expected_wkc h' = Some (last_expected_wkc h) /\
   bus_calls (snd res) =
   bus_calls w ++ [call_send_processdata (fst (fst sent))]) /\
  (0 <= fst (fst sent) ->
   option_map last_wkc h' = Some (fst (fst received)) /\
   option_map last_expected_wkc h' =
   Some (2 * Group.outputsWKC g + Group.inputsWKC g) /\
   bus_calls (snd res) =
   bus_calls w ++
   [call_send_processdata (fst (fst sent));
    call_receive_processdata (clamped timeout_us) (fst (fst received))] /\
   (fst (fst received) < 0 -> rc = SOEM_ERR_RECV_FAIL)).
Proof.
  cbv zeta. unfold soem_exchange_process_data.
  pose proof (bus_calls_send (context h) (staged h outputs outputs_len w))
    as Hcs.
  destruct (ecx_send_processdata stack (context h)
              (staged h outputs outputs_len w)) as [[wkc_s c1] w1].
  cbn [fst snd] in *.
  pose proof (bus_calls_receive c1 (clamped timeout_us) w1) as Hcr.
  destruct (ecx_receive_processdata stack c1 (clamped timeout_us) w1)
    as [[wkc_r c2] w2].
  cbn [fst snd] in *.
  replace (bus_calls (staged h outputs outputs_len w)) with (bus_calls w)
    in Hcs by reflexivity.
  split; intros Hs.
  - destruct (Z.ltb_spec wkc_s 0) as [_ | Hge]; [|lia].
    cbn [fst snd option_map with_context last_wkc last_expected_wkc].
    unfold LOGE. rewrite bus_calls_log_message. auto.
  - destruct (Z.ltb_spec wkc_s 0) as [Hneg | _]; [lia|].
    assert (Hcalls : bus_calls w2 =
              bus_calls w ++
              [call_send_processdata wkc_s;
               call_receive_processdata (clamped timeout_us) wkc_r]).
    { rewrite Hcr, Hcs, <- app_assoc. reflexivity. }
    replace (Group.outputsWKC (group0 c1) * 2 + Group.inputsWKC (group0 c1))
      with (2 * Group.outputsWKC (group0 c1) + Group.inputsWKC (group0 c1))
      by lia.
    destruct (Z.ltb_spec wkc_r 0) as [Hrneg | Hrok].
    + cbn [fst snd option_map last_wkc last_expected_wkc].
      unfold LOGE. rewrite bus_calls_log_message. auto.
    + destruct (_ <=? 0); [|destruct (wkc_r <? _)];
        cbn [fst snd option_map last_wkc last_expected_wkc];
        unfold LOGE, LOGW; rewrite ?bus_calls_log_message;
        repeat split; try assumption; try reflexivity; intros; lia.
Qed.

(** C6.  When the receive step returns a non-negative result and the caller
    passed a buffer with a positive length, the buffer comes back with the
    first [min inputs_len Ibytes] bytes of the input region, as memory holds
    them after the receive, and its remaining bytes as they were - whether
    the call returns the observed counter or [SOEM_ERR_WKC_LOW]. *)
Theorem exchange_copies_inputs (h : soem_handle_t P)
    (outputs : option (list Z)) (outputs_len : Z)
    (buf : list Z) (inputs_len timeout_us : Z) (w : world) :
  let sent :=
    ecx_send_processdata stack (context h) (staged h outputs outputs_len w) in
  let received :=
    ecx_receive_processdata stack (snd (fst sent)) (clamped timeout_us)
                            (snd sent) in
  let g := group0 (snd (fst received)) in
  let res :=
    soem_exchange_process_data stack (Some h) outputs outputs_len (Some buf)
                               inputs_len timeout_us w in
  let n := Z.to_nat (Z.min inputs_len (Group.Ibytes g)) in
  0 <= fst (fst sent) ->
  0 <= fst (fst received) ->
  0 < inputs_len ->
  0 <= Group.Ibytes g <= INT_MAX ->
  (fst (fst (fst res)) = fst (fst received) \/
   fst (fst (fst res)) = SOEM_ERR_WKC_LOW) /\
  exists buf',
    snd (fst res) = Some buf' /\
    firstn n buf' = load_bytes (Group.inputs g) n (memory (snd received)) /\
    skipn n buf' = skipn n buf.
Proof.
  cbv zeta. unfold soem_exchange_process_data.
  destruct (ecx_send_processdata stack (context h)
              (staged h outputs outputs_len w)) as [[wkc_s c1] w1].
  cbn [fst snd].
  destruct (ecx_receive_processdata stack c1 (clamped timeout_us) w1)
    as [[wkc_r c2] w2].
  cbn [fst snd]. intros Hs Hr Hlen Hsz.
  destruct (Z.ltb_spec wkc_s 0) as [Hneg | _]; [lia|].
  destruct (Z.ltb_spec wkc_r 0) as [Hneg | _]; [lia|].
  assert (Hcopy :
    exists buf',
      copy_inputs (group0 c2) (Some buf) inputs_len (memory w2) = Some buf' /\
      firstn (Z.to_nat (Z.min inputs_len (Group.Ibytes (group0 c2)))) buf' =
      load_bytes (Group.inputs (group0 c2))
                 (Z.to_nat (Z.min inputs_len (Group.Ibytes (group0 c2))))
                 (memory w2) /\
      skipn (Z.to_nat (Z.min inputs_len (Group.Ibytes (group0 c2)))) buf' =
      skipn (Z.to_nat (Z.min inputs_len (Group.Ibytes (group0 c2)))) buf).
  { unfold copy_inputs.
    destruct (Z.gtb_spec inputs_len 0) as [_ | Hle]; [|lia].
    rewrite (to_int_small _ Hsz).
    destruct (Z.eqb_spec (Group.Ibytes (group0 c2)) 0) as [Hz | Hnz].
    - cbn [andb negb]. exists buf. rewrite Hz.
      replace (Z.min inputs_len 0) with 0 by lia. auto.
    - cbn [andb negb].
      set (copy := if inputs_len <? Group.Ibytes (group0 c2)
                   then inputs_len else Group.Ibytes (group0 c2)).
      assert (Hmin : copy = Z.min inputs_len (Group.Ibytes (group0 c2))).
      { unfold copy.
        destruct (Z.ltb_spec inputs_len (Group.Ibytes (group0 c2))); lia. }
      destruct (Z.gtb_spec copy 0) as [_ | Hle]; [|lia].
      rewrite <- Hmin.
      eexists. split; [reflexivity|].
      pose proof (length_load_bytes (Z.to_nat copy)
                    (Group.inputs (group0 c2)) (memory w2)) as Hl.
      split.
      + rewrite <- Hl at 1. apply firstn_buffer_fill.
      + rewrite <- Hl at 1 3. apply skipn_buffer_fill. }
  destruct Hcopy as [buf' [Heq Hbuf]].
  rewrite Heq.
  destruct (_ <=? 0); [|destruct (wkc_r <? _)]; cbn [fst snd];
    (split; [auto | exists buf'; split; [reflexivity | exact Hbuf]]).
Qed.

End Exchange.

(** ** Staging of the outputs *)

Lemma store_bytes_at (bs : list Z) (a k : Z) (m : mem) :
  0 <= k < Z.of_nat (List.length bs) ->
  store_bytes a bs m (a + k) = nth (Z.to_nat k) bs 0.
Proof.
  intros Hk.
  replace (a + k) with (a + Z.of_nat (Z.to_nat k)) by lia.
  apply store_bytes_inside. lia.
Qed.

(** With a payload, the extended shim leaves in the output region the
    payload, cut to the region's length, followed by zeros; nothing outside
    the region changes. *)
Lemma stage_outputs_provided (g : ec_groupt) (buf : list Z) (len : Z)
    (m : mem) :
  0 < len ->
  0 < Group.Obytes g <= INT_MAX ->
  (forall k, 0 <= k < Group.Obytes g ->
     stage_outputs g (Some buf) len m (Group.outputs g + k) =
     if k <? len then nth (Z.to_nat k) buf 0 else 0) /\
  (forall a, a < Group.outputs g \/ Group.outputs g + Group.Obytes g <= a ->
     stage_outputs g (Some buf) len m a = m a).
Proof.
  intros Hlen Hsz. unfold stage_outputs.
  destruct (Z.eqb_spec (Group.Obytes g) 0) as [Hz | _]; [lia|].
  destruct (Z.gtb_spec len 0) as [_ | Hle]; [|lia].
  rewrite to_int_small by lia.
  set (copy := if len <? Group.Obytes g then len else Group.Obytes g).
  assert (Hcopy : copy = Z.min len (Group.Obytes g)).
  { unfold copy. destruct (Z.ltb_spec len (Group.Obytes g)); lia. }
  destruct (Z.gtb_spec copy 0) as [_ | Hle]; [|lia].
  split.
  - intros k Hk. destruct (Z.ltb_spec k len) as [Hin | Hout].
    + rewrite store_bytes_at by (rewrite length_buffer_prefix; lia).
      apply nth_buffer_prefix. lia.
    + rewrite store_bytes_outside by (rewrite length_buffer_prefix; lia).
      unfold memset.
      destruct (Z.leb_spec (Group.outputs g) (Group.outputs g + k)); [|lia].
      destruct (Z.ltb_spec (Group.outputs g + k)
                           (Group.outputs g + Group.Obytes g)); [|lia].
      reflexivity.
  - intros a Ha.
    rewrite store_bytes_outside by (rewrite length_buffer_prefix; lia).
    unfold memset.
    destruct (Z.leb_spec (Group.outputs g) a);
      destruct (Z.ltb_spec a (Group.outputs g + Group.Obytes g));
      cbn [andb]; try reflexivity; lia.
Qed.

(** Without a payload the extended shim leaves memory as it is. *)
Lemma stage_outputs_omitted (g : ec_groupt) (outputs : option (list Z))
    (len : Z) (m : mem) :
  outputs = None \/ len <= 0 -> stage_outputs g outputs len m = m.
Proof.
  intros Hom. unfold stage_outputs.
  destruct (Group.Obytes g =? 0); [reflexivity|].
  destruct outputs as [buf|]; [|reflexivity].
  destruct (Z.gtb_spec len 0) as [Hpos | _]; [|reflexivity].
  destruct Hom as [Hnone | Hle]; [discriminate | lia].
Qed.

Section OutputRegion.

Context {P : Type}.
Variable stack : soem_api P.

(** If the stack leaves the output region alone, that region holds at the
    end of an exchange of the extended shim what the staging step put
    there. *)
Lemma exchange_output_region (h : soem_handle_t P)
    (outputs : option (list Z)) (outputs_len : Z)
    (inputs : option (list Z)) (inputs_len timeout_us : Z) (w : world) :
  let g := group0 (context h) in
  (forall c m a,
     Group.outputs g <= a < Group.outputs g + Group.Obytes g ->
     snd (api_send_processdata stack c m) a = m a) ->
  (forall c t m a,
     Group.outputs g <= a < Group.outputs g + Group.Obytes g ->
     snd (api_receive_processdata stack c t m) a = m a) ->
  forall a,
    Group.outputs g <= a < Group.outputs g + Group.Obytes g ->
    memory (snd (soem_exchange_process_data stack (Some h) outputs
                   outputs_len inputs inputs_len timeout_us w)) a =
    stage_outputs g outputs outputs_len (memory w) a.
Proof.
  cbv zeta. intros Hsend Hrecv a Ha.
  unfold soem_exchange_process_data, ecx_send_processdata,
    ecx_receive_processdata.
  cbn [memory with_memory].
  set (m0 := stage_outputs (group0 (context h)) outputs outputs_len
                           (memory w)).
  specialize (Hsend (context h) m0 a Ha).
  destruct (api_send_processdata stack (context h) m0) as [[wkc_s c1] m1].
  cbn [snd] in Hsend.
  destruct (wkc_s <? 0).
  { cbn [snd]. unfold LOGE. rewrite memory_log_message. exact Hsend. }
  cbn [memory record_call with_memory].
  set (t := if timeout_us <? 0 then 0 else timeout_us).
  specialize (Hrecv c1 t m1 a Ha).
  destruct (api_receive_processdata stack c1 t m1) as [[wkc_r c2] m2].
  cbn [snd] in Hrecv.
  destruct (wkc_r <? 0); [|destruct (_ <=? 0); [|destruct (wkc_r <? _)]];
    cbn [snd]; unfold LOGE, LOGW; rewrite ?memory_log_message;
    cbn [memory record_call with_memory]; congruence.
Qed.

(** X29.  If the stack leaves the output region alone, the older shim
    leaves in the output region the payload, cut to the region's length,
    followed by whatever the region held before the call. *)
Lemma legacy_exchange_output_region (h : Legacy.soem_handle_t P)
    (buf : list Z) (outputs_length : Z)
    (inputs : option (list Z)) (inputs_length timeout : Z) (w : world) :
  let g := group0 (Legacy.context h) in
  (forall c m a,
     Group.outputs g <= a < Group.outputs g + Group.Obytes g ->
     snd (api_send_processdata stack c m) a = m a) ->
  (forall c t m a,
     Group.outputs g <= a < Group.outputs g + Group.Obytes g ->
     snd (api_receive_processdata stack c t m) a = m a) ->
  0 < outputs_length ->
  0 < Group.Obytes g <= INT_MAX ->
  forall k, 0 <= k < Group.Obytes g ->
    memory (snd (Legacy.soem_exchange_process_data stack (Some h) (Some buf)
                   outputs_length inputs inputs_length timeout w))
           (Group.outputs g + k) =
    if k <? outputs_length then nth (Z.to_nat k) buf 0
    else memory w (Group.outputs g + k).
Proof.
  cbv zeta. intros Hsend Hrecv Hlen Hsz k Hk.
  unfold Legacy.soem_exchange_process_data, ecx_send_processdata,
    ecx_receive_processdata.
  set (g := group0 (Legacy.context h)) in *.
  destruct (Z.gtb_spec outputs_length 0) as [_ | Hle]; [|lia].
  destruct (Z.gtb_spec (Group.Obytes g) 0) as [_ | Hle]; [|lia].
  cbn [andb memory with_memory].
  rewrite to_int_small by lia.
  set (copy := if outputs_length >? Group.Obytes g
               then Group.Obytes g else outputs_length).
  assert (Hcopy : copy = Z.min outputs_length (Group.Obytes g)).
  { unfold copy. destruct (Z.gtb_spec outputs_length (Group.Obytes g)); lia. }
  set (m0 := store_bytes (Group.outputs g)
                         (buffer_prefix buf (Z.to_nat copy)) (memory w)).
  assert (Hm0 : m0 (Group.outputs g + k) =
                if k <? outputs_length then nth (Z.to_nat k) buf 0
                else memory w (Group.outputs g + k)).
  { unfold m0. destruct (Z.ltb_spec k outputs_length) as [Hin | Hout].
    - rewrite store_bytes_at by (rewrite length_buffer_prefix; lia).
      apply nth_buffer_prefix. lia.
    - apply store_bytes_outside. rewrite length_buffer_prefix. lia. }
  assert (Ha : Group.outputs g <= Group.outputs g + k
               < Group.outputs g + Group.Obytes g) by lia.
  specialize (Hsend (Legacy.context h) m0 _ Ha).
  destruct (api_send_processdata stack (Legacy.context h) m0)
    as [[wkc_s c1] m1].
  cbn [snd] in Hsend.
  destruct (wkc_s <? 0).
  { cbn [snd memory record_call with_memory]. congruence. }
  cbn [memory record_call with_memory].
  specialize (Hrecv c1 timeout m1 _ Ha).
  destruct (api_receive_processdata stack c1 timeout m1) as [[wkc_r c2] m2].
  cbn [snd memory record_call with_memory] in *. congruence.
Qed.

End OutputRegion.

(** ** Recovery and health *)

Section Diagnostics.

Context {P : Type}.
Variable stack : soem_api P.

Lemma verify_slaves_flag (n : nat) :
  forall i (c : ecx_contextt P),
    verify_slaves n i c = 0 \/ verify_slaves n i c = 1.
Proof.
  induction n as [|n IH]; intros i c; simpl; [now right|].
  destruct (negb _); [now left | apply IH].
Qed.

Lemma verify_slaves_all (n : nat) :
  forall i (c : ecx_contextt P),
    verify_slaves n i c = 1 <->
    forall j, i <= j < i + Z.of_nat n ->
              Slave.state (get_slave c j) = EC_STATE_OPERATIONAL.
Proof.
  induction n as [|n IH]; intros i c; cbn [verify_slaves].
  - split; [intros _ j Hj; lia | reflexivity].
  - destruct (Z.eqb_spec (Slave.state (get_slave c i)) EC_STATE_OPERATIONAL)
      as [Hop | Hnop]; cbn [negb].
    + rewrite IH. split; intros Hall j Hj.
      * destruct (Z.eq_dec j i) as [-> | Hne]; [exact Hop|].
        apply Hall. lia.
      * apply Hall. lia.
    + split; [discriminate|].
      intros Hall. exfalso. apply Hnop, Hall. lia.
Qed.

Lemma bus_calls_statecheck (c : ecx_contextt P) (slave req t : Z)
    (w : world) :
  bus_calls (snd (ecx_statecheck stack c slave req t w)) =
  bus_calls w ++
  [call_statecheck slave req t
     (fst (fst (ecx_statecheck stack c slave req t w)))].
Proof.
  unfold ecx_statecheck.
  destruct (api_statecheck stack c slave req t) as [rc c'].
  reflexivity.
Qed.

(** C5.  [soem_try_recover] on a valid handle ends with a group-level state
    check for OPERATIONAL with the caller's timeout, and returns 1 exactly
    when that check returns OPERATIONAL and every slave [1 .. slavecount] of
    the context it leaves is in state OPERATIONAL; it returns 0 otherwise,
    so a passing group check with one slave in another state is a
    failure. *)
Theorem try_recover_success_iff (h : soem_handle_t P) (timeout_ms : Z)
    (w : world) :
  let res := soem_try_recover stack (Some h) timeout_ms w in
  let rc := fst (fst res) in
  exists group_rc c calls,
    snd (fst res) = Some (with_context c h) /\
    bus_calls (snd res) =
    calls ++ [call_statecheck 0 EC_STATE_OPERATIONAL (timeout_ms * 1000)
                              group_rc] /\
    (rc = 1 <->
     group_rc = EC_STATE_OPERATIONAL /\
     forall i, 1 <= i <= slavecount c ->
               Slave.state (get_slave c i) = EC_STATE_OPERATIONAL) /\
    (rc = 0 \/ rc = 1).
Proof.
  cbv zeta. unfold soem_try_recover.
  destruct (ecx_readstate stack (context h) w) as [[r0 c0] w0].
  destruct (ack_errors stack (Z.to_nat EC_MAXSLAVE) 1 c0 w0) as [c1 w1].
  destruct (ecx_writestate stack _ 0 w1) as [[r2 c2] w2].
  destruct (settle_cycles stack 3 c2 w2) as [c3 w3].
  pose proof (bus_calls_statecheck c3 0 EC_STATE_OPERATIONAL
                                   (timeout_ms * 1000) w3) as Hcalls.
  destruct (ecx_statecheck stack c3 0 EC_STATE_OPERATIONAL
                           (timeout_ms * 1000) w3) as [[rc c4] w4].
  cbn [fst snd] in Hcalls.
  exists rc, c4, (bus_calls w3).
  destruct (Z.eqb_spec rc EC_STATE_OPERATIONAL) as [Hop | Hnop];
    cbn [negb fst snd]; rewrite ?bus_calls_log_message.
  - split; [reflexivity|]. split; [exact Hcalls|]. split.
    + rewrite verify_slaves_all. split.
      * intros Hall. split; [exact Hop|]. intros i Hi. apply Hall. lia.
      * intros [_ Hall] j Hj. apply Hall. lia.
    + apply verify_slaves_flag.
  - split; [reflexivity|]. split; [exact Hcalls|]. split.
    + split; [discriminate | intros [Hop _]; contradiction].
    + now left.
Qed.

Lemma count_operational_filter (n : nat) :
  forall k (c : ecx_contextt P),
    count_operational n (Z.of_nat k) c =
    Z.of_nat
      (List.length
         (filter (fun i => Slave.state (get_slave c i) =? EC_STATE_OPERATIONAL)
                 (map Z.of_nat (seq k n)))).
Proof.
  induction n as [|n IH]; intros k c; [reflexivity|].
  cbn [count_operational seq map filter].
  replace (Z.of_nat k + 1) with (Z.of_nat (S k)) by lia.
  rewrite IH.
  destruct (Slave.state (get_slave c (Z.of_nat k)) =? EC_STATE_OPERATIONAL);
    cbn [List.length]; lia.
Qed.

(** C8, as the code has it.  [soem_get_health] on a valid handle and record
    asks the stack to read the slave states once, and reports: the slave
    count; the expected working counter computed at the call from the
    group's contributions (twice the output one plus the input one), not
    the handle's [last_expected_wkc]; the handle's cached [last_wkc]; the
    group's byte counts; the number of slaves [1 .. slavecount] in state
    OPERATIONAL after the read; and the first slave's AL status code, or 0
    when there is no slave.  The handle's cached counters are not changed. *)
Theorem get_health_report (h : soem_handle_t P) (o : soem_health_t)
    (w : world) :
  let g := group0 (context h) in
  let read := ecx_readstate stack (context h) w in
  let c := snd (fst read) in
  soem_get_health stack (Some h) (Some o) w =
  (1, Some (with_context c h),
   Some (Health.mk
           (slavecount (context h))
           (2 * Group.outputsWKC g + Group.inputsWKC g)
           (last_wkc h)
           (to_int (Group.Obytes g))
           (to_int (Group.Ibytes g))
           (Z.of_nat
              (List.length
                 (filter
                    (fun i =>
                       Slave.state (get_slave c i) =? EC_STATE_OPERATIONAL)
                    (map Z.of_nat (seq 1 (Z.to_nat (slavecount c)))))))
           (if 1 <=? slavecount c then Slave.ALstatuscode (get_slave c 1)
            else 0)),
   snd read) /\
  bus_calls (snd read) = bus_calls w ++ [call_readstate].
Proof.
  cbv zeta. unfold soem_get_health, ecx_readstate.
  destruct (api_readstate stack (context h)) as [r0 c0].
  cbn [fst snd]. split; [|reflexivity].
  rewrite <- (count_operational_filter (Z.to_nat (slavecount c0)) 1 c0).
  change (Z.of_nat 1) with 1.
  replace (Group.outputsWKC (group0 (context h)) * 2)
    with (2 * Group.outputsWKC (group0 (context h))) by lia.
  rewrite Z.geb_leb.
  reflexivity.
Qed.

End Diagnostics.

(** ** Session lifecycle *)

Section Lifecycle.

Context {P : Type}.
Variable stack : soem_api P.

Lemma remove_block_head (p : Z) (l : list Z) : remove_block p (p :: l) = l.
Proof. simpl. now rewrite Z.eqb_refl. Qed.

Lemma free_live (p : Z) (w : world) :
  p <> NULL ->
  free p w =
  mk_world (memory w) (remove_block p (heap w)) (allocator w) (log_cb w)
           (log_out w) (bus_calls w).
Proof.
  intros Hp. unfold free.
  now destruct (Z.eqb_spec p NULL) as [Hnull | _]; [contradiction|].
Qed.

Lemma to_size_t_small (x : Z) : 0 <= x <= INT_MAX -> to_size_t x = x.
Proof.
  unfold to_size_t, INT_MAX. intros Hx. apply Z.mod_small. lia.
Qed.

(** A failure branch of [soem_initialize]: no handle comes back, each block
    allocated so far is freed, and the calls made into the stack are
    [calls]; what is left to show is the shape of [calls]. *)
Ltac bring_up_failed calls :=
  unfold ecx_close, LOGE; cbn [fst snd];
  split; [first [reflexivity | lia] |];
  split; [first [reflexivity | intros ? ? ? Heq; discriminate Heq] |];
  intros _;
  rewrite ?free_live by assumption;
  cbn [heap bus_calls record_call with_memory];
  rewrite ?heap_log_message, ?bus_calls_log_message;
  cbn [heap bus_calls record_call with_memory];
  rewrite ?remove_block_head;
  split; [reflexivity |];
  exists calls;
  split; [now rewrite <- ?app_assoc |].

(** C7.  [soem_initialize] returns no handle whenever discovery reports a
    slave count that is zero or negative, and whenever the mapping reports a
    size above the 64 KiB allocated for the image.  Whenever it returns no
    handle, the blocks it allocated have been freed (the heap is as it was),
    and if the stack was opened the last call into it is [ecx_close]. *)
Theorem initialize_failure_releases (ifname : option string) (w : world) :
  let res := soem_initialize stack ifname w in
  let discovered :=
    api_config_init stack (snd (api_init stack (zero_context stack) ifname)) in
  (fst discovered <= 0 -> fst res = None) /\
  (forall p io rest,
     allocator w = p :: io :: rest ->
     64 * 1024 <
       fst (fst (api_config_map_group stack (snd discovered) io 0
                   (memset io 0 (64 * 1024) (memory w)))) <= INT_MAX ->
     fst res = None) /\
  (fst res = None ->
   heap (snd res) = heap w /\
   exists calls,
     bus_calls (snd res) = bus_calls w ++ calls /\
     (calls = [] \/ calls = [call_init 0] \/
      exists pre, calls = pre ++ [call_close])).
Proof.
  cbv zeta. unfold soem_initialize, malloc.
  destruct (allocator w) as [|p rest] eqn:Halloc.
  { cbn [fst snd]. split; [reflexivity|]. split; [reflexivity|].
    intros _. split; [reflexivity|].
    exists []. rewrite app_nil_r. auto. }
  destruct (Z.eqb_spec p NULL) as [Hp | Hp].
  { subst p. cbn [fst snd heap bus_calls Z.eqb NULL].
    split; [reflexivity|]. split; [reflexivity|].
    intros _. split; [reflexivity|].
    exists []. rewrite app_nil_r. auto. }
  cbv beta iota.
  destruct (Z.eqb_spec p NULL) as [Hnull | _]; [contradiction|].
  unfold ecx_init.
  destruct (api_init stack (zero_context stack) ifname) as [rc c1].
  cbn [snd].
  destruct (Z.eqb_spec rc 0) as [Hrc | Hrc].
  { subst rc. bring_up_failed [call_init 0]. auto. }
  unfold ecx_config_init.
  destruct (api_config_init stack c1) as [n c2].
  cbn [fst snd].
  destruct (Z.leb_spec n 0) as [Hn | Hn].
  { bring_up_failed [call_init rc; call_config_init n; call_close].
    right. right. now exists [call_init rc; call_config_init n]. }
  cbn [allocator record_call].
  destruct rest as [|io rest'].
  { bring_up_failed [call_init rc; call_config_init n; call_close].
    right. right. now exists [call_init rc; call_config_init n]. }
  destruct (Z.eqb_spec io NULL) as [Hio | Hio].
  { subst io. cbn [Z.eqb NULL].
    bring_up_failed [call_init rc; call_config_init n; call_close].
    right. right. now exists [call_init rc; call_config_init n]. }
  cbv beta iota.
  destruct (Z.eqb_spec io NULL) as [Hnull | _]; [contradiction|].
  unfold ecx_config_map_group.
  cbn [memory with_memory record_call].
  destruct (api_config_map_group stack c2 io 0
              (memset io 0 (64 * 1024) (memory w))) as [[actual c3] m3]
    eqn:Hmap.
  destruct (Z.leb_spec actual 0) as [Hact | Hact].
  { bring_up_failed [call_init rc; call_config_init n;
                     call_config_map_group io 0 actual; call_close].
    right. right.
    now exists [call_init rc; call_config_init n;
                call_config_map_group io 0 actual]. }
  destruct (Z.gtb_spec (to_size_t actual) (64 * 1024)) as [Hbig | Hfit].
  { bring_up_failed [call_init rc; call_config_init n;
                     call_config_map_group io 0 actual; call_close].
    right. right.
    now exists [call_init rc; call_config_init n;
                call_config_map_group io 0 actual]. }
  repeat match goal with
         | |- context [match ?e with pair _ _ => _ end] => destruct e
         end.
  cbn [fst snd].
  split; [lia|]. split; [|discriminate].
  intros p0 io0 rest0 Heq Hsize. injection Heq as <- <- <-.
  rewrite Hmap in Hsize. cbn [fst] in Hsize.
  rewrite to_size_t_small in Hfit by lia. lia.
Qed.

End Lifecycle.

(** ** The output region after an exchange *)

Section OutputPolicy.

Context {P : Type}.
Variable stack : soem_api P.

(** X27.  The extended shim, payload given, on a stack that leaves the
    output region alone: the region ends up holding the payload, cut to the
    region's length, then zeros. *)
Lemma exchange_zero_then_copy (h : soem_handle_t P)
    (buf : list Z) (outputs_len : Z)
    (inputs : option (list Z)) (inputs_len timeout_us : Z) (w : world) :
  let g := group0 (context h) in
  (forall c m a,
     Group.outputs g <= a < Group.outputs g + Group.Obytes g ->
     snd (api_send_processdata stack c m) a = m a) ->
  (forall c t m a,
     Group.outputs g <= a < Group.outputs g + Group.Obytes g ->
     snd (api_receive_processdata stack c t m) a = m a) ->
  0 < outputs_len ->
  0 < Group.Obytes g <= INT_MAX ->
  forall k, 0 <= k < Group.Obytes g ->
    memory (snd (soem_exchange_process_data stack (Some h) (Some buf)
                   outputs_len inputs inputs_len timeout_us w))
           (Group.outputs g + k) =
    if k <? outputs_len then nth (Z.to_nat k) buf 0 else 0.
Proof.
  cbv zeta. intros Hsend Hrecv Hlen Hsz k Hk.
  rewrite (exchange_output_region stack h (Some buf) outputs_len inputs
             inputs_len timeout_us w Hsend Hrecv) by lia.
  now apply stage_outputs_provided.
Qed.

(** X28.  The extended shim, payload omitted (a null pointer or a length
    that is not positive), on a stack that leaves the output region alone:
    the region is as it was. *)
Lemma exchange_outputs_omitted (h : soem_handle_t P)
    (outputs : option (list Z)) (outputs_len : Z)
    (inputs : option (list Z)) (inputs_len timeout_us : Z) (w : world) :
  let g := group0 (context h) in
  (forall c m a,
     Group.outputs g <= a < Group.outputs g + Group.Obytes g ->
     snd (api_send_processdata stack c m) a = m a) ->
  (forall c t m a,
     Group.outputs g <= a < Group.outputs g + Group.Obytes g ->
     snd (api_receive_processdata stack c t m) a = m a) ->
  outputs = None \/ outputs_len <= 0 ->
  forall a, Group.outputs g <= a < Group.outputs g + Group.Obytes g ->
    memory (snd (soem_exchange_process_data stack (Some h) outputs
                   outputs_len inputs inputs_len timeout_us w)) a =
    memory w a.
Proof.
  cbv zeta. intros Hsend Hrecv Hom a Ha.
  rewrite (exchange_output_region stack h outputs outputs_len inputs
             inputs_len timeout_us w Hsend Hrecv) by lia.
  now rewrite stage_outputs_omitted.
Qed.

End OutputPolicy.

(** * On the scripted bus *)

Ltac by_evaluation :=
  vm_compute;
  repeat split;
  first [reflexivity | discriminate | intro; discriminate].

(** Expected 3 and observed 2 give [SOEM_ERR_WKC_LOW]; expected 0 gives the
    observed counter back. *)
Lemma exchange_wkc_policy_witness :
  fst (fst (fst (soem_exchange_process_data
                   (Mock.api (Mock.one_drive 0 2 8 8))
                   (Some (Mock.handle_of (Mock.one_drive 0 2 8 8)))
                   None 0 None 0 1000 (Mock.world_of 0)))) = -10 /\
  fst (fst (fst (soem_exchange_process_data
                   (Mock.api (Mock.unmapped 5))
                   (Some (Mock.handle_of (Mock.unmapped 5)))
                   None 0 None 0 1000 (Mock.world_of 0)))) = 5.
Proof.
  split.
  - refine (proj2 (proj1 (proj2 (exchange_wkc_policy
                                   (Mock.api (Mock.one_drive 0 2 8 8))
                                   (Mock.handle_of (Mock.one_drive 0 2 8 8))
                                   None 0 None 0 1000 (Mock.world_of 0) _ _))
                         _ _));
      by_evaluation.
  - refine (proj1 (proj1 (exchange_wkc_policy
                            (Mock.api (Mock.unmapped 5))
                            (Mock.handle_of (Mock.unmapped 5))
                            None 0 None 0 1000 (Mock.world_of 0) _ _)
                         _));
      by_evaluation.
Defined.

(** A status frame decoded on the 8-byte region, and the refusal on a
    4-byte region. *)
Lemma read_txpdo_layout_witness :
  fst (soem_read_txpdo (Some (Mock.handle_of (Mock.one_drive 0 3 8 8))) 1
                       (Some zero_tx) Mock.status_world) =
  (1, Some (mk_tx (-1) 1 0 1 0 0 1 0 1 1 1 0 0 0 0 0 0 0 0 0 0 0 1 7)) /\
  fst (soem_read_txpdo (Some (Mock.handle_of Mock.short_drive)) 1
                       (Some zero_tx) Mock.status_world) =
  (0, Some zero_tx).
Proof.
  split.
  - refine (f_equal fst
              (proj1 (proj1 (read_txpdo_layout
                               (Mock.handle_of (Mock.one_drive 0 3 8 8)) 1
                               zero_tx Mock.status_world _ _ _) _)));
      by_evaluation.
  - refine (proj1 (proj2 (read_txpdo_layout
                            (Mock.handle_of Mock.short_drive) 1
                            zero_tx Mock.status_world _ _ _) _));
      by_evaluation.
Defined.

(** A DPOS command written into a region filled with 0xFF, and the refusal
    on a 10-byte region. *)
Lemma write_rxpdo_layout_witness :
  (let w' :=
     snd (soem_write_rxpdo (Some (Mock.handle_of (Mock.one_drive 0 3 8 8))) 1
            (Some (mk_rx [68; 80; 79; 83] (-2) 1000 500 600 1))
            (Mock.world_of 255)) in
   load_bytes 4096 4 (memory w') = [68; 80; 79; 83] /\
   load_bytes 4100 4 (memory w') = [254; 255; 255; 255] /\
   load_bytes 4104 4 (memory w') = [232; 3; 0; 0] /\
   load_bytes 4108 2 (memory w') = [244; 1] /\
   load_bytes 4110 2 (memory w') = [88; 2] /\
   memory w' 4112 = 1 /\
   load_bytes 4113 3 (memory w') = [255; 255; 255]) /\
  fst (soem_write_rxpdo (Some (Mock.handle_of Mock.short_drive)) 1
         (Some nop_command) (Mock.world_of 255)) = 0.
Proof.
  split.
  - cbv zeta.
    destruct (proj1 (write_rxpdo_layout
                       (Mock.handle_of (Mock.one_drive 0 3 8 8)) 1
                       (mk_rx [68; 80; 79; 83] (-2) 1000 500 600 1)
                       (Mock.world_of 255)
                       ltac:(by_evaluation) ltac:(by_evaluation)
                       ltac:(by_evaluation))
                    ltac:(by_evaluation))
      as [_ [Hc [Hp [Hv [Ha [Hd [He [Hpad _]]]]]]]].
    exact (conj Hc (conj Hp (conj Hv (conj Ha (conj Hd (conj He Hpad)))))).
  - refine (proj1 (proj2 (write_rxpdo_layout
                            (Mock.handle_of Mock.short_drive) 1 nop_command
                            (Mock.world_of 255) _ _ _) _));
      by_evaluation.
Defined.

(** The frame reaches the caller's 10-byte buffer on a cycle that reports
    [SOEM_ERR_WKC_LOW]. *)
Lemma exchange_copies_inputs_witness :
  let res :=
    soem_exchange_process_data
      (Mock.api (Mock.one_drive 0 2 8 8))
      (Some (Mock.handle_of (Mock.one_drive 0 2 8 8)))
      None 0 (Some [9; 9; 9; 9; 9; 9; 9; 9; 9; 9]) 10 1000
      (Mock.world_of 0) in
  (fst (fst (fst res)) = 2 \/ fst (fst (fst res)) = SOEM_ERR_WKC_LOW) /\
  exists buf',
    snd (fst res) = Some buf' /\
    firstn 8 buf' = [57; 48; 0; 0; 33; 4; 8; 2] /\
    skipn 8 buf' = [9; 9].
Proof.
  exact (exchange_copies_inputs
           (Mock.api (Mock.one_drive 0 2 8 8))
           (Mock.handle_of (Mock.one_drive 0 2 8 8))
           None 0 [9; 9; 9; 9; 9; 9; 9; 9; 9; 9] 10 1000 (Mock.world_of 0)
           ltac:(by_evaluation) ltac:(by_evaluation)
           ltac:(by_evaluation) ltac:(by_evaluation)).
Defined.

(** No slave found, and a mapping of 70000 bytes: no handle, nothing left
    on the heap. *)
Lemma initialize_failure_releases_witness :
  (fst (Mock.session Mock.no_slaves) = None /\
   heap (snd (Mock.session Mock.no_slaves)) = []) /\
  (fst (Mock.session Mock.oversized) = None /\
   heap (snd (Mock.session Mock.oversized)) = []).
Proof.
  pose proof (initialize_failure_releases (Mock.api Mock.no_slaves)
                (Some "eth0"%string) Mock.fresh_world) as [Hnone [_ Hfree]].
  pose proof (initialize_failure_releases (Mock.api Mock.oversized)
                (Some "eth0"%string) Mock.fresh_world) as [_ [Hbig Hfree']].
  assert (H1 : fst (Mock.session Mock.no_slaves) = None).
  { apply Hnone. by_evaluation. }
  assert (H2 : fst (Mock.session Mock.oversized) = None).
  { apply (Hbig 1024 4096 []); by_evaluation. }
  exact (conj (conj H1 (proj1 (Hfree H1))) (conj H2 (proj1 (Hfree' H2)))).
Defined.

(** A failed send keeps the cached 3 and 3; a failed receive caches its
    result -1 and the expected 3. *)
Lemma exchange_cache_update_witness :
  (let res :=
     soem_exchange_process_data
       (Mock.api (Mock.one_drive (-1) 3 8 8))
       (Some (Mock.cycled_handle_of (Mock.one_drive (-1) 3 8 8)))
       None 0 None 0 1000 (Mock.world_of 0) in
   fst (fst (fst res)) = SOEM_ERR_SEND_FAIL /\
   option_map last_wkc (snd (fst (fst res))) = Some 3 /\
   option_map last_expected_wkc (snd (fst (fst res))) = Some 3 /\
   bus_calls (snd res) = [call_send_processdata (-1)]) /\
  (let res :=
     soem_exchange_process_data
       (Mock.api (Mock.one_drive 0 (-1) 8 8))
       (Some (Mock.handle_of (Mock.one_drive 0 (-1) 8 8)))
       None 0 None 0 1000 (Mock.world_of 0) in
   option_map last_wkc (snd (fst (fst res))) = Some (-1) /\
   option_map last_expected_wkc (snd (fst (fst res))) = Some 3 /\
   bus_calls (snd res) =
   [call_send_processdata 0; call_receive_processdata 1000 (-1)] /\
   fst (fst (fst res)) = SOEM_ERR_RECV_FAIL).
Proof.
  split.
  - exact (proj1 (exchange_cache_update
                    (Mock.api (Mock.one_drive (-1) 3 8 8))
                    (Mock.cycled_handle_of (Mock.one_drive (-1) 3 8 8))
                    None 0 None 0 1000 (Mock.world_of 0))
                 ltac:(by_evaluation)).
  - destruct (proj2 (exchange_cache_update
                       (Mock.api (Mock.one_drive 0 (-1) 8 8))
                       (Mock.handle_of (Mock.one_drive 0 (-1) 8 8))
                       None 0 None 0 1000 (Mock.world_of 0))
                    ltac:(by_evaluation))
      as [Hl [He [Hc Hr]]].
    exact (conj Hl (conj He (conj Hc (Hr ltac:(by_evaluation))))).
Defined.

(** A 4-byte input region: the call returns 0 and the record is as it
    was. *)
Lemma read_txpdo_failure_keeps_record_witness :
  fst (fst (soem_read_txpdo (Some (Mock.handle_of Mock.short_drive)) 1
              (Some zero_tx) Mock.status_world)) = 0 /\
  snd (fst (soem_read_txpdo (Some (Mock.handle_of Mock.short_drive)) 1
              (Some zero_tx) Mock.status_world)) = Some zero_tx.
Proof.
  apply (read_txpdo_failure_keeps_record
           (Some (Mock.handle_of Mock.short_drive)) 1 (Some zero_tx)
           Mock.status_world).
  right. right. right.
  exists (Mock.handle_of Mock.short_drive).
  split; [reflexivity|]. right. right. by_evaluation.
Defined.

(** C4, on the older shim.  The region is filled with 0xFF and the caller
    passes the 3-byte payload 1, 2, 3.  [soem_exchange_process_data] of
    [src/native/soemshim/soem_shim.c] copies the payload and leaves the 17
    bytes after it at 0xFF; that of [src/native/soemshim-linux/soem_shim.c]
    leaves them at zero. *)
Theorem legacy_exchange_keeps_stale_bytes :
  let b := Mock.one_drive 0 3 8 8 in
  load_bytes 4096 20
    (memory (snd (Legacy.soem_exchange_process_data (Mock.api b)
                    (Some (Mock.legacy_handle_of b)) (Some [1; 2; 3]) 3
                    None 0 1000 (Mock.world_of 255)))) =
  [1; 2; 3; 255; 255; 255; 255; 255; 255; 255;
   255; 255; 255; 255; 255; 255; 255; 255; 255; 255] /\
  load_bytes 4096 20
    (memory (snd (soem_exchange_process_data (Mock.api b)
                    (Some (Mock.handle_of b)) (Some [1; 2; 3]) 3
                    None 0 1000 (Mock.world_of 255)))) =
  [1; 2; 3; 0; 0; 0; 0; 0; 0; 0; 0; 0; 0; 0; 0; 0; 0; 0; 0; 0].
Proof. by_evaluation. Qed.

(** With the payload omitted, both shims leave the staged bytes alone. *)
Example exchange_without_payload_keeps_region :
  let b := Mock.one_drive 0 3 8 8 in
  load_bytes 4096 20
    (memory (snd (soem_exchange_process_data (Mock.api b)
                    (Some (Mock.handle_of b)) None 0 None 0 1000
                    (Mock.world_of 255)))) = repeat 255 20 /\
  load_bytes 4096 20
    (memory (snd (Legacy.soem_exchange_process_data (Mock.api b)
                    (Some (Mock.legacy_handle_of b)) None 0 None 0 1000
                    (Mock.world_of 255)))) = repeat 255 20.
Proof. by_evaluation. Qed.

(** The group check passes and the one slave is in SAFE_OP: recovery
    fails.  With the slave in OPERATIONAL it succeeds. *)
Example try_recover_slave_in_safe_op :
  fst (fst (soem_try_recover (Mock.api (Mock.one_drive 0 3 8 4))
              (Some (Mock.handle_of (Mock.one_drive 0 3 8 4))) 100
              (Mock.world_of 0))) = 0 /\
  fst (fst (soem_try_recover (Mock.api (Mock.one_drive 0 3 8 8))
              (Some (Mock.handle_of (Mock.one_drive 0 3 8 8))) 100
              (Mock.world_of 0))) = 1.
Proof. by_evaluation. Qed.

(** A session whose first exchange could not send still holds the initial
    -1 and 0. *)
Example initialize_cache_defaults :
  option_map last_wkc (fst (Mock.session (Mock.one_drive (-1) 3 8 8))) =
  Some (-1) /\
  option_map last_expected_wkc
    (fst (Mock.session (Mock.one_drive (-1) 3 8 8))) = Some 0.
Proof. by_evaluation. Qed.

(** C8, as stated, fails.  On a session whose first exchange
    could not send, the handle caches the expected counter 0, and
    [soem_get_health] reports 3, the value the group's contributions
    give. *)
Lemma get_health_expected_not_cached :
  let b := Mock.one_drive (-1) 3 8 8 in
  let h := fst (Mock.session b) in
  let w := snd (Mock.session b) in
  let out :=
    snd (fst (soem_get_health (Mock.api b) h (Some Health.zero) w)) in
  option_map last_expected_wkc h = Some 0 /\
  option_map Health.group_expected_wkc out = Some 3 /\
  option_map Health.group_expected_wkc out <>
  option_map last_expected_wkc h.
Proof. by_evaluation. Qed.

(** Each of the bytes 0..7 of the input region bears on the record: setting
    any one of them to 1 in a zeroed region changes what is read. *)
Example read_txpdo_reads_each_byte :
  Forall
    (fun k =>
       fst (soem_read_txpdo (Some (Mock.handle_of (Mock.one_drive 0 3 8 8))) 1
              (Some zero_tx)
              (with_memory (store (4116 + k) 1 (fun _ => 0))
                           (Mock.world_of 0))) <>
       fst (soem_read_txpdo (Some (Mock.handle_of (Mock.one_drive 0 3 8 8))) 1
              (Some zero_tx) (Mock.world_of 0)))
    [0; 1; 2; 3; 4; 5; 6; 7].
Proof. repeat constructor; by_evaluation. Qed.

(** * More of the shim *)

(** ** PDO codec *)

Section CodecMore.

Context {P : Type}.

(** The 17 bytes [soem_write_rxpdo] writes for [r]. *)
Local Abbreviation rx_image r :=
  (buffer_prefix (Command r) 4 ++ le_bytes 4 (Parameter_ r) ++
   le_bytes 4 (Velocity r) ++ le_bytes 2 (Acceleration r) ++
   le_bytes 2 (Deceleration r) ++ [Execute r]).

Lemma write_rxpdo_success (h : soem_handle_t P) (i : Z) (r : DriveRxPDO)
    (w : world) :
  0 < i <= slavecount (context h) ->
  Slave.outputs (get_slave (context h) i) <> NULL ->
  IO_RX_BYTES <= Slave.Obytes (get_slave (context h) i) <= INT_MAX ->
  soem_write_rxpdo (Some h) i (Some r) w =
  (1, with_memory
        (store_bytes (Slave.outputs (get_slave (context h) i)) (rx_image r)
                     (memory w)) w).
Proof.
  intros Hi Hptr Hsz. unfold soem_write_rxpdo.
  rewrite (index_in_range h i Hi).
  destruct (Z.eqb_spec (Slave.outputs (get_slave (context h) i)) NULL)
    as [Hnull | _]; [contradiction|].
  rewrite to_int_small by (unfold IO_RX_BYTES in Hsz; lia).
  destruct (Z.ltb_spec (Slave.Obytes (get_slave (context h) i)) IO_RX_BYTES)
    as [Hlt | _]; [lia|].
  now rewrite write_rxpdo_image.
Qed.

(** What [soem_read_txpdo] returns depends on memory through the 8 bytes
    of the slave's input region at most. *)
Lemma read_txpdo_agree (handle : option (soem_handle_t P)) (i : Z)
    (out : option DriveTxPDO) (w : world) (m2 : mem) :
  (forall h, handle = Some h ->
     forall k, 0 <= k < 8 ->
       m2 (Slave.inputs (get_slave (context h) i) + k) =
       memory w (Slave.inputs (get_slave (context h) i) + k)) ->
  fst (soem_read_txpdo handle i out (with_memory m2 w)) =
  fst (soem_read_txpdo handle i out w).
Proof.
  intros Hagree. unfold soem_read_txpdo.
  destruct handle as [h|]; [|reflexivity].
  destruct out as [o|]; [|reflexivity].
  destruct ((i <=? 0) || (i >? slavecount (context h))); [reflexivity|].
  destruct (Slave.inputs (get_slave (context h) i) =? NULL); [reflexivity|].
  destruct (to_int (Slave.Ibytes (get_slave (context h) i)) <? IO_TX_BYTES);
    [reflexivity|].
  specialize (Hagree h eq_refl).
  cbn [fst memory with_memory load_bytes].
  set (buf := Slave.inputs (get_slave (context h) i)) in *.
  replace (buf + 0 + 1) with (buf + 1) by lia.
  replace (buf + 1 + 1) with (buf + 2) by lia.
  replace (buf + 2 + 1) with (buf + 3) by lia.
  rewrite !Hagree by lia.
  reflexivity.
Qed.

(** X1.  Every failing call of [soem_write_rxpdo] - null handle, null
    record, slave index not in [1 .. slavecount], null output-region
    pointer, or an output region shorter than 20 bytes - returns 0 and
    leaves memory, the heap and the bus untouched. *)
Theorem write_rxpdo_failure_keeps_memory (handle : option (soem_handle_t P))
    (i : Z) (rx : option DriveRxPDO) (w : world) :
  (handle = None \/
   rx = None \/
   i <= 0 \/
   exists h, handle = Some h /\
     (slavecount (context h) < i \/
      Slave.outputs (get_slave (context h) i) = NULL \/
      0 <= Slave.Obytes (get_slave (context h) i) < IO_RX_BYTES)) ->
  fst (soem_write_rxpdo handle i rx w) = 0 /\
  memory (snd (soem_write_rxpdo handle i rx w)) = memory w /\
  heap (snd (soem_write_rxpdo handle i rx w)) = heap w /\
  bus_calls (snd (soem_write_rxpdo handle i rx w)) = bus_calls w.
Proof.
  intros Hfail. unfold soem_write_rxpdo.
  destruct handle as [h|]; [|auto].
  destruct rx as [r|]; [|auto].
  destruct (Z.leb_spec i 0) as [Hle | Hpos]; [auto|].
  destruct (Z.gtb_spec i (slavecount (context h))) as [Hgt | Hin]; [auto|].
  cbn [orb].
  destruct (Z.eqb_spec (Slave.outputs (get_slave (context h) i)) NULL)
    as [Hnull | Hptr]; [auto|].
  destruct (Z.ltb_spec (to_int (Slave.Obytes (get_slave (context h) i)))
                       IO_RX_BYTES) as [Hlt | Hge].
  { cbn [fst snd]. unfold LOGE.
    now rewrite memory_log_message, heap_log_message, bus_calls_log_message. }
  exfalso.
  destruct Hfail as [Hh | [Ho | [Hi | [h' [Hh [Hcnt | [Hnull | Hlen]]]]]]];
    try discriminate; try lia.
  - injection Hh as <-. lia.
  - injection Hh as <-. contradiction.
  - injection Hh as <-.
    rewrite to_int_small in Hge by (unfold INT_MAX, IO_RX_BYTES in *; lia).
    lia.
Qed.

(** The position [soem_read_txpdo] returns on its success path. *)
Lemma read_txpdo_position (h : soem_handle_t P) (i : Z) (o : DriveTxPDO)
    (w : world) :
  0 < i <= slavecount (context h) ->
  Slave.inputs (get_slave (context h) i) <> NULL ->
  IO_TX_BYTES <= Slave.Ibytes (get_slave (context h) i) <= INT_MAX ->
  option_map ActualPosition
    (snd (fst (soem_read_txpdo (Some h) i (Some o) w))) =
  Some (to_int (le_value
                  (load_bytes (Slave.inputs (get_slave (context h) i)) 4
                              (memory w)))).
Proof.
  intros Hi Hptr Hsz.
  rewrite (read_txpdo_success h i o w Hi Hptr Hsz).
  cbn [fst snd option_map ActualPosition load_bytes].
  set (buf := Slave.inputs (get_slave (context h) i)).
  replace (buf + 1 + 1) with (buf + 2) by lia.
  replace (buf + 2 + 1) with (buf + 3) by lia.
  reflexivity.
Qed.

(** X2.  The numeric fields survive the wire format.  After a successful
    [soem_write_rxpdo], [soem_read_txpdo] on a slave whose input region
    lies over bytes 4..11 of the written region returns the parameter as
    its position; and the velocity, acceleration and deceleration are the
    little-endian values of bytes 8-11, 12-13 and 14-15. *)
Theorem rxpdo_numeric_roundtrip (h h2 : soem_handle_t P) (i j : Z)
    (r : DriveRxPDO) (o : DriveTxPDO) (w : world) :
  0 < i <= slavecount (context h) ->
  Slave.outputs (get_slave (context h) i) <> NULL ->
  IO_RX_BYTES <= Slave.Obytes (get_slave (context h) i) <= INT_MAX ->
  0 < j <= slavecount (context h2) ->
  Slave.inputs (get_slave (context h2) j) =
  Slave.outputs (get_slave (context h) i) + 4 ->
  Slave.outputs (get_slave (context h) i) + 4 <> NULL ->
  IO_TX_BYTES <= Slave.Ibytes (get_slave (context h2) j) <= INT_MAX ->
  -2147483648 <= Parameter_ r <= INT_MAX ->
  0 <= Velocity r < 4294967296 ->
  0 <= Acceleration r < 65536 ->
  0 <= Deceleration r < 65536 ->
  let buf := Slave.outputs (get_slave (context h) i) in
  let w' := snd (soem_write_rxpdo (Some h) i (Some r) w) in
  option_map ActualPosition
    (snd (fst (soem_read_txpdo (Some h2) j (Some o) w'))) =
  Some (Parameter_ r) /\
  le_value (load_bytes (buf + 8) 4 (memory w')) = Velocity r /\
  le_value (load_bytes (buf + 12) 2 (memory w')) = Acceleration r /\
  le_value (load_bytes (buf + 14) 2 (memory w')) = Deceleration r.
Proof.
  intros Hi Hptr Hsz Hj Hmirror Hptr2 Hsz2 Hpar Hvel Hacc Hdec. cbv zeta.
  rewrite (write_rxpdo_success h i r w Hi Hptr Hsz).
  set (buf := Slave.outputs (get_slave (context h) i)) in *.
  set (w' := snd (1, with_memory (store_bytes buf (rx_image r) (memory w)) w)).
  assert (Hm : memory w' = store_bytes buf (rx_image r) (memory w))
    by reflexivity.
  clearbody w'.
  split.
  - rewrite read_txpdo_position;
      [| exact Hj | rewrite Hmirror; exact Hptr2 | exact Hsz2].
    rewrite Hmirror, Hm.
    rewrite (load_bytes_field (buffer_prefix (Command r) 4)
               (le_bytes 4 (Parameter_ r)) _ buf (buf + 4) 4 (memory w))
      by reflexivity.
    now rewrite int32_roundtrip.
  - rewrite Hm.
    assert (Hv : load_bytes (buf + 8) 4
                   (store_bytes buf (rx_image r) (memory w)) =
                 le_bytes 4 (Velocity r)).
    { now apply (load_bytes_field
                   (buffer_prefix (Command r) 4 ++ le_bytes 4 (Parameter_ r))
                   (le_bytes 4 (Velocity r))). }
    assert (Ha : load_bytes (buf + 12) 2
                   (store_bytes buf (rx_image r) (memory w)) =
                 le_bytes 2 (Acceleration r)).
    { now apply (load_bytes_field
                   (buffer_prefix (Command r) 4 ++ le_bytes 4 (Parameter_ r) ++
                    le_bytes 4 (Velocity r))
                   (le_bytes 2 (Acceleration r))). }
    assert (Hd : load_bytes (buf + 14) 2
                   (store_bytes buf (rx_image r) (memory w)) =
                 le_bytes 2 (Deceleration r)).
    { now apply (load_bytes_field
                   (buffer_prefix (Command r) 4 ++ le_bytes 4 (Parameter_ r) ++
                    le_bytes 4 (Velocity r) ++ le_bytes 2 (Acceleration r))
                   (le_bytes 2 (Deceleration r))). }
    rewrite Hv, Ha, Hd.
    rewrite !le_value_le_bytes.
    change (2 ^ (8 * Z.of_nat 4)) with 4294967296.
    change (2 ^ (8 * Z.of_nat 2)) with 65536.
    rewrite (Z.mod_small (Velocity r)) by lia.
    rewrite (Z.mod_small (Acceleration r)) by lia.
    rewrite (Z.mod_small (Deceleration r)) by lia.
    auto.
Qed.

(** X3.  Staging is last-writer-wins: a second successful
    [soem_write_rxpdo] on the same slave leaves memory exactly as if the
    first had not happened. *)
Theorem write_rxpdo_overwrites (h : soem_handle_t P) (i : Z)
    (r1 r2 : DriveRxPDO) (w : world) :
  0 < i <= slavecount (context h) ->
  Slave.outputs (get_slave (context h) i) <> NULL ->
  IO_RX_BYTES <= Slave.Obytes (get_slave (context h) i) <= INT_MAX ->
  forall a,
    memory (snd (soem_write_rxpdo (Some h) i (Some r2)
                   (snd (soem_write_rxpdo (Some h) i (Some r1) w)))) a =
    memory (snd (soem_write_rxpdo (Some h) i (Some r2) w)) a.
Proof.
  intros Hi Hptr Hsz a.
  rewrite !(write_rxpdo_success h i _ _ Hi Hptr Hsz).
  cbn [snd memory with_memory].
  set (buf := Slave.outputs (get_slave (context h) i)).
  assert (Hlen : forall r, List.length (rx_image r) = 17%nat).
  { intros r. rewrite !length_app, length_buffer_prefix, !length_le_bytes.
    reflexivity. }
  destruct (Z_lt_ge_dec a buf) as [Hlo | Hge].
  - rewrite !store_bytes_outside by (rewrite Hlen; lia). reflexivity.
  - destruct (Z_lt_ge_dec a (buf + 17)) as [Hin | Hhi].
    + replace a with (buf + (a - buf)) by lia.
      rewrite !store_bytes_at by (rewrite Hlen; lia). reflexivity.
    + rewrite !store_bytes_outside by (rewrite Hlen; lia). reflexivity.
Qed.

(** X4.  Staging a command does not disturb a status read: if the 8 input
    bytes of slave [j] do not meet the 17 bytes written for slave [i],
    [soem_read_txpdo] on [j] returns after the write what it returned
    before. *)
Theorem write_rxpdo_keeps_status (h h2 : soem_handle_t P) (i j : Z)
    (r : DriveRxPDO) (out : option DriveTxPDO) (w : world) :
  0 < i <= slavecount (context h) ->
  Slave.outputs (get_slave (context h) i) <> NULL ->
  IO_RX_BYTES <= Slave.Obytes (get_slave (context h) i) <= INT_MAX ->
  Slave.inputs (get_slave (context h2) j) + 8 <=
    Slave.outputs (get_slave (context h) i) \/
  Slave.outputs (get_slave (context h) i) + 17 <=
    Slave.inputs (get_slave (context h2) j) ->
  fst (soem_read_txpdo (Some h2) j out
         (snd (soem_write_rxpdo (Some h) i (Some r) w))) =
  fst (soem_read_txpdo (Some h2) j out w).
Proof.
  intros Hi Hptr Hsz Hapart.
  rewrite (write_rxpdo_success h i r w Hi Hptr Hsz). cbn [snd].
  apply read_txpdo_agree.
  intros h' Hh' k Hk. injection Hh' as <-.
  apply store_bytes_outside.
  rewrite !length_app, length_buffer_prefix, !length_le_bytes.
  cbn [List.length Nat.add]. lia.
Qed.

End CodecMore.

(** ** Cyclic exchange *)

Section ExchangeMore.

Context {P : Type}.
Variable stack : soem_api P.

(** X5.  On a valid handle the result of [soem_exchange_process_data] is
    one of the three failure codes -11, -12, -10 or a non-negative counter,
    never [SOEM_ERR_BAD_ARGS].  A non-negative result is the observed
    counter the handle now caches, and it is not below the cached expected
    counter unless that one is zero or negative. *)
Theorem exchange_result_classes (h : soem_handle_t P)
    (outputs : option (list Z)) (outputs_len : Z)
    (inputs : option (list Z)) (inputs_len timeout_us : Z) (w : world) :
  let res :=
    soem_exchange_process_data stack (Some h) outputs outputs_len inputs
                               inputs_len timeout_us w in
  let rc := fst (fst (fst res)) in
  let h' := snd (fst (fst res)) in
  (rc = -11 \/ rc = -12 \/ rc = -10 \/ 0 <= rc) /\
  rc <> SOEM_ERR_BAD_ARGS /\
  (0 <= rc ->
   option_map last_wkc h' = Some rc /\
   exists e, option_map last_expected_wkc h' = Some e /\
             (e <= 0 \/ e <= rc)).
Proof.
  cbv zeta. unfold soem_exchange_process_data.
  destruct (ecx_send_processdata stack (context h) _) as [[wkc_s c1] w1].
  destruct (Z.ltb_spec wkc_s 0) as [Hs | Hs].
  { cbn [fst snd]. unfold SOEM_ERR_SEND_FAIL, SOEM_ERR_BAD_ARGS.
    split; [auto|]. split; [discriminate | intros Hrc; lia]. }
  destruct (ecx_receive_processdata stack c1 _ w1) as [[wkc_r c2] w2].
  destruct (Z.ltb_spec wkc_r 0) as [Hr | Hr].
  { cbn [fst snd]. unfold SOEM_ERR_RECV_FAIL, SOEM_ERR_BAD_ARGS.
    split; [auto|]. split; [discriminate | intros Hrc; lia]. }
  set (expected :=
         Group.outputsWKC (group0 c1) * 2 + Group.inputsWKC (group0 c1)).
  destruct (Z.leb_spec expected 0) as [He | He].
  { cbn [fst snd option_map last_wkc last_expected_wkc].
    unfold SOEM_ERR_BAD_ARGS.
    split; [auto|]. split; [lia|]. intros _. split; [reflexivity|].
    exists expected. auto. }
  destruct (Z.ltb_spec wkc_r expected) as [Hlow | Hok].
  { cbn [fst snd]. unfold SOEM_ERR_WKC_LOW, SOEM_ERR_BAD_ARGS.
    split; [auto|]. split; [discriminate | intros Hrc; lia]. }
  cbn [fst snd option_map last_wkc last_expected_wkc].
  unfold SOEM_ERR_BAD_ARGS.
  split; [auto|]. split; [lia|]. intros _. split; [reflexivity|].
  exists expected. auto.
Qed.

(** X6.  A call that returns [SOEM_ERR_BAD_ARGS], [SOEM_ERR_SEND_FAIL] or
    [SOEM_ERR_RECV_FAIL] hands the caller's [inputs] buffer back as it
    was: inputs are copied out only after a successful receive. *)
Theorem exchange_failure_keeps_inputs (handle : option (soem_handle_t P))
    (outputs : option (list Z)) (outputs_len : Z)
    (inputs : option (list Z)) (inputs_len timeout_us : Z) (w : world) :
  let res :=
    soem_exchange_process_data stack handle outputs outputs_len inputs
                               inputs_len timeout_us w in
  fst (fst (fst res)) = SOEM_ERR_BAD_ARGS \/
  fst (fst (fst res)) = SOEM_ERR_SEND_FAIL \/
  fst (fst (fst res)) = SOEM_ERR_RECV_FAIL ->
  snd (fst res) = inputs.
Proof.
  cbv zeta. unfold soem_exchange_process_data.
  destruct handle as [h|]; [|reflexivity].
  destruct (ecx_send_processdata stack (context h) _) as [[wkc_s c1] w1].
  destruct (Z.ltb_spec wkc_s 0) as [Hs | Hs]; [reflexivity|].
  destruct (ecx_receive_processdata stack c1 _ w1) as [[wkc_r c2] w2].
  destruct (Z.ltb_spec wkc_r 0) as [Hr | Hr]; [reflexivity|].
  unfold SOEM_ERR_BAD_ARGS, SOEM_ERR_SEND_FAIL, SOEM_ERR_RECV_FAIL,
    SOEM_ERR_WKC_LOW.
  destruct (_ <=? 0); [|destruct (wkc_r <? _)]; cbn [fst snd];
    intros [Hrc | [Hrc | Hrc]]; first [lia | discriminate].
Qed.

(** X7.  A negative timeout is a timeout of zero: the two calls give the
    same result, handle, buffer and world. *)
Theorem exchange_negative_timeout (handle : option (soem_handle_t P))
    (outputs : option (list Z)) (outputs_len : Z)
    (inputs : option (list Z)) (inputs_len timeout_us : Z) (w : world) :
  timeout_us < 0 ->
  soem_exchange_process_data stack handle outputs outputs_len inputs
                             inputs_len timeout_us w =
  soem_exchange_process_data stack handle outputs outputs_len inputs
                             inputs_len 0 w.
Proof.
  intros Ht. unfold soem_exchange_process_data.
  destruct (Z.ltb_spec timeout_us 0) as [_ | Hge]; [|lia].
  reflexivity.
Qed.

(** X8.  What an exchange delivers to the logging sink.  With a sink
    registered and a valid handle, a call that fails delivers exactly one
    message, at level ERR; a call that succeeds delivers nothing, or one
    message at level WARN when the expected counter is not positive.
    Without a sink nothing is delivered. *)
Theorem exchange_logging (h : soem_handle_t P)
    (outputs : option (list Z)) (outputs_len : Z)
    (inputs : option (list Z)) (inputs_len timeout_us : Z) (w : world) :
  let res :=
    soem_exchange_process_data stack (Some h) outputs outputs_len inputs
                               inputs_len timeout_us w in
  let rc := fst (fst (fst res)) in
  (log_cb w = false -> log_out (snd res) = log_out w) /\
  (log_cb w = true -> rc < 0 ->
   exists fmt args,
     log_out (snd res) = log_out w ++ [(SOEM_LOG_ERR, fmt, args)]) /\
  (log_cb w = true -> 0 <= rc ->
   log_out (snd res) = log_out w \/
   exists fmt args,
     log_out (snd res) = log_out w ++ [(SOEM_LOG_WARN, fmt, args)] /\
     option_map last_expected_wkc (snd (fst (fst res))) <> None /\
     forall e, option_map last_expected_wkc (snd (fst (fst res))) = Some e ->
               e <= 0).
Proof.
  cbv zeta. unfold soem_exchange_process_data, ecx_send_processdata,
    ecx_receive_processdata, LOGE, LOGW, log_message.
  cbn [memory with_memory log_cb log_out].
  destruct (api_send_processdata stack (context h) _) as [[wkc_s c1] m1].
  cbn [record_call with_memory log_cb log_out memory].
  destruct (Z.ltb_spec wkc_s 0) as [Hs | Hs].
  { cbn [fst snd]. unfold SOEM_ERR_SEND_FAIL.
    destruct (log_cb w); cbn [log_out].
    - split; [discriminate|]. split; [eauto | intros _ Hrc; lia].
    - split; [reflexivity|]. split; discriminate. }
  destruct (api_receive_processdata stack c1 _ m1) as [[wkc_r c2] m2].
  cbn [record_call with_memory log_cb log_out memory].
  destruct (Z.ltb_spec wkc_r 0) as [Hr | Hr].
  { cbn [fst snd]. unfold SOEM_ERR_RECV_FAIL.
    destruct (log_cb w); cbn [log_out].
    - split; [discriminate|]. split; [eauto | intros _ Hrc; lia].
    - split; [reflexivity|]. split; discriminate. }
  set (expected :=
         Group.outputsWKC (group0 c1) * 2 + Group.inputsWKC (group0 c1)).
  destruct (Z.leb_spec expected 0) as [He | He].
  { cbn [fst snd option_map last_expected_wkc].
    destruct (log_cb w); cbn [log_out].
    - split; [discriminate|]. split; [intros _ Hrc; lia|].
      intros _ _. right. do 2 eexists. split; [reflexivity|].
      split; [discriminate|]. intros e Heq. injection Heq as <-. exact He.
    - split; [reflexivity|]. split; discriminate. }
  destruct (Z.ltb_spec wkc_r expected) as [Hlow | Hok].
  { cbn [fst snd]. unfold SOEM_ERR_WKC_LOW.
    destruct (log_cb w); cbn [log_out].
    - split; [discriminate|]. split; [eauto | intros _ Hrc; lia].
    - split; [reflexivity|]. split; discriminate. }
  cbn [fst snd log_out].
  split; [reflexivity|]. split; [intros _ Hrc; lia | auto].
Qed.

(** X9.  [soem_get_health] after an exchange reports as [last_wkc] the raw
    result of the receive step of that exchange - also when the exchange
    returned [SOEM_ERR_RECV_FAIL] or [SOEM_ERR_WKC_LOW] - and the value
    cached before when the send failed. *)
Theorem health_after_exchange (h : soem_handle_t P)
    (outputs : option (list Z)) (outputs_len : Z)
    (inputs : option (list Z)) (inputs_len timeout_us : Z)
    (o : soem_health_t) (w : world) :
  let sent :=
    ecx_send_processdata stack (context h)
      (with_memory
         (stage_outputs (group0 (context h)) outputs outputs_len (memory w))
         w) in
  let received :=
    ecx_receive_processdata stack (snd (fst sent))
      (if timeout_us <? 0 then 0 else timeout_us) (snd sent) in
  let ex :=
    soem_exchange_process_data stack (Some h) outputs outputs_len inputs
                               inputs_len timeout_us w in
  let report :=
    snd (fst (soem_get_health stack (snd (fst (fst ex))) (Some o) (snd ex))) in
  (fst (fst sent) < 0 ->
   option_map Health.last_wkc report = Some (last_wkc h)) /\
  (0 <= fst (fst sent) ->
   option_map Health.last_wkc report = Some (fst (fst received))).
Proof.
  cbv zeta. unfold soem_exchange_process_data.
  destruct (ecx_send_processdata stack (context h) _) as [[wkc_s c1] w1].
  cbn [fst snd].
  destruct (Z.ltb_spec wkc_s 0) as [Hs | Hs].
  { cbn [fst snd]. split; [intros _ | intros Hge; lia].
    unfold soem_get_health.
    destruct (ecx_readstate stack _ _) as [[r0 c0] w0].
    reflexivity. }
  destruct (ecx_receive_processdata stack c1 _ w1) as [[wkc_r c2] w2].
  cbn [fst snd]. split; [intros Hlt; lia | intros _].
  destruct (wkc_r <? 0); [|destruct (_ <=? 0); [|destruct (wkc_r <? _)]];
    cbn [fst snd]; unfold soem_get_health;
    destruct (ecx_readstate stack _ _) as [[r0 c0] w0]; reflexivity.
Qed.

End ExchangeMore.

(** ** Recovery and health *)

Section DiagnosticsMore.

Context {P : Type}.
Variable stack : soem_api P.

Lemma count_operational_bounds (n : nat) :
  forall i (c : ecx_contextt P),
    0 <= count_operational n i c <= Z.of_nat n.
Proof.
  induction n as [|n IH]; intros i c; cbn [count_operational]; [lia|].
  specialize (IH (i + 1) c).
  destruct (Slave.state (get_slave c i) =? EC_STATE_OPERATIONAL); lia.
Qed.

Lemma count_operational_full (n : nat) :
  forall i (c : ecx_contextt P),
    count_operational n i c = Z.of_nat n <-> verify_slaves n i c = 1.
Proof.
  induction n as [|n IH]; intros i c; cbn [count_operational verify_slaves].
  - split; reflexivity.
  - pose proof (count_operational_bounds n (i + 1) c) as Hb.
    destruct (Z.eqb_spec (Slave.state (get_slave c i)) EC_STATE_OPERATIONAL)
      as [Hop | Hnop]; cbn [negb].
    + rewrite <- IH. lia.
    + split; [lia | discriminate].
Qed.

(** X10.  The count of operational slaves [soem_get_health] reports lies
    between 0 and the slave count, and reaches the slave count exactly when
    every slave [1 .. slavecount] is OPERATIONAL after the read - the
    per-slave condition under which [soem_try_recover] reports success. *)
Theorem get_health_op_count (h : soem_handle_t P) (o : soem_health_t)
    (w : world) :
  let c := snd (fst (ecx_readstate stack (context h) w)) in
  exists report,
    snd (fst (soem_get_health stack (Some h) (Some o) w)) = Some report /\
    0 <= Health.slaves_op report <= Z.max 0 (slavecount c) /\
    (Health.slaves_op report = Z.max 0 (slavecount c) <->
     forall i, 1 <= i <= slavecount c ->
               Slave.state (get_slave c i) = EC_STATE_OPERATIONAL).
Proof.
  cbv zeta. unfold soem_get_health.
  destruct (ecx_readstate stack (context h) w) as [[r0 c0] w0].
  cbn [fst snd]. eexists. split; [reflexivity|].
  cbn [Health.slaves_op].
  pose proof (count_operational_bounds (Z.to_nat (slavecount c0)) 1 c0) as Hb.
  split; [lia|].
  replace (Z.max 0 (slavecount c0)) with (Z.of_nat (Z.to_nat (slavecount c0)))
    by lia.
  rewrite count_operational_full, verify_slaves_all.
  split; intros Hall i Hi; apply Hall; lia.
Qed.

Lemma bus_calls_writestate (c : ecx_contextt P) (slave : Z) (w : world) :
  bus_calls (snd (ecx_writestate stack c slave w)) =
  bus_calls w ++ [call_writestate slave].
Proof.
  unfold ecx_writestate.
  destruct (api_writestate stack c slave) as [rc c']. reflexivity.
Qed.

(** The calls of the acknowledge loop: state writes to slaves from [i]
    on, in rising order. *)
Lemma ack_errors_calls (fuel : nat) :
  forall i (c : ecx_contextt P) (w : world),
  exists acks,
    bus_calls (snd (ack_errors stack fuel i c w)) = bus_calls w ++ acks /\
    Forall (fun call => exists k, i <= k /\ call = call_writestate k) acks.
Proof.
  induction fuel as [|fuel IH]; intros i c w; cbn [ack_errors].
  - exists []. now rewrite app_nil_r.
  - destruct (i <=? slavecount c).
    + destruct (negb _).
      * pose proof (bus_calls_writestate
                      (set_slave c i
                         (Slave.set_state
                            (Z.lor EC_STATE_SAFE_OP EC_STATE_ACK)
                            (get_slave c i))) i w) as Hw.
        destruct (ecx_writestate stack _ i w) as [[r c'] w'].
        cbn [snd] in Hw.
        destruct (IH (i + 1) c' w') as [acks [Hcalls Hall]].
        exists (call_writestate i :: acks).
        rewrite Hcalls, Hw, <- app_assoc. split; [reflexivity|].
        constructor; [exists i; split; [lia | reflexivity]|].
        eapply Forall_impl; [|exact Hall].
        intros call [k [Hk ->]]. exists k. split; [lia | reflexivity].
      * destruct (IH (i + 1) c w) as [acks [Hcalls Hall]].
        exists acks. split; [exact Hcalls|].
        eapply Forall_impl; [|exact Hall].
        intros call [k [Hk ->]]. exists k. split; [lia | reflexivity].
    + exists []. now rewrite app_nil_r.
Qed.

Lemma settle_cycles_calls (k : nat) :
  forall (c : ecx_contextt P) (w : world),
  exists cycle,
    bus_calls (snd (settle_cycles stack k c w)) = bus_calls w ++ cycle /\
    List.length cycle = (2 * k)%nat /\
    Forall (fun call =>
              (exists r, call = call_send_processdata r) \/
              (exists r, call = call_receive_processdata 1000 r)) cycle.
Proof.
  induction k as [|k IH]; intros c w; cbn [settle_cycles].
  - exists []. now rewrite app_nil_r.
  - pose proof (bus_calls_send stack c w) as Hs.
    destruct (ecx_send_processdata stack c w) as [[r1 c1] w1].
    cbn [fst snd] in Hs.
    pose proof (bus_calls_receive stack c1 1000 w1) as Hr.
    destruct (ecx_receive_processdata stack c1 1000 w1) as [[r2 c2] w2].
    cbn [fst snd] in Hr.
    destruct (IH c2 w2) as [cycle [Hcalls [Hlen Hall]]].
    exists (call_send_processdata r1 ::
            call_receive_processdata 1000 r2 :: cycle).
    rewrite Hcalls, Hr, Hs, <- !app_assoc.
    split; [reflexivity|]. split; [cbn [List.length]; lia|].
    constructor; [left; eauto|]. constructor; [right; eauto | exact Hall].
Qed.

(** X11.  The calls [soem_try_recover] makes on a valid handle, whatever
    the stack answers: one state read; state writes to slaves with a
    positive index; the state write to the group (index 0); six
    process-data calls that are sends or receives with a 1000-microsecond
    wait; and the closing state check.  The handle keeps its cached
    counters: the settling cycles are not recorded in [last_wkc]. *)
Theorem try_recover_call_sequence (h : soem_handle_t P) (timeout_ms : Z)
    (w : world) :
  let res := soem_try_recover stack (Some h) timeout_ms w in
  exists acks cycles rc,
    bus_calls (snd res) =
    bus_calls w ++ [call_readstate] ++ acks ++ [call_writestate 0] ++
    cycles ++
    [call_statecheck 0 EC_STATE_OPERATIONAL (timeout_ms * 1000) rc] /\
    Forall (fun call => exists k, 1 <= k /\ call = call_writestate k) acks /\
    List.length cycles = 6%nat /\
    Forall (fun call =>
              (exists r, call = call_send_processdata r) \/
              (exists r, call = call_receive_processdata 1000 r)) cycles /\
    option_map last_wkc (snd (fst res)) = Some (last_wkc h) /\
    option_map last_expected_wkc (snd (fst res)) =
    Some (last_expected_wkc h).
Proof.
  cbv zeta. unfold soem_try_recover.
  assert (Hread : bus_calls (snd (ecx_readstate stack (context h) w)) =
                  bus_calls w ++ [call_readstate]).
  { unfold ecx_readstate.
    destruct (api_readstate stack (context h)) as [r c]. reflexivity. }
  destruct (ecx_readstate stack (context h) w) as [[r0 c0] w0].
  cbn [snd] in Hread.
  destruct (ack_errors_calls (Z.to_nat EC_MAXSLAVE) 1 c0 w0)
    as [acks [Hacks Hall]].
  destruct (ack_errors stack (Z.to_nat EC_MAXSLAVE) 1 c0 w0) as [c1 w1].
  cbn [snd] in Hacks.
  pose proof (bus_calls_writestate
                (set_slave c1 0
                   (Slave.set_state EC_STATE_OPERATIONAL (get_slave c1 0)))
                0 w1) as Hw.
  destruct (ecx_writestate stack _ 0 w1) as [[r2 c2] w2].
  cbn [snd] in Hw.
  destruct (settle_cycles_calls 3 c2 w2) as [cycles [Hcyc [Hlen Hshape]]].
  destruct (settle_cycles stack 3 c2 w2) as [c3 w3].
  cbn [snd] in Hcyc.
  pose proof (bus_calls_statecheck stack c3 0 EC_STATE_OPERATIONAL
                                   (timeout_ms * 1000) w3) as Hchk.
  destruct (ecx_statecheck stack c3 0 EC_STATE_OPERATIONAL
                           (timeout_ms * 1000) w3) as [[rc c4] w4].
  cbn [fst snd] in Hchk.
  exists acks, cycles, rc.
  assert (Hcalls : bus_calls w4 =
            bus_calls w ++ [call_readstate] ++ acks ++ [call_writestate 0] ++
            cycles ++
            [call_statecheck 0 EC_STATE_OPERATIONAL (timeout_ms * 1000) rc]).
  { rewrite Hchk, Hcyc, Hw, Hacks, Hread, <- !app_assoc. reflexivity. }
  destruct (negb (rc =? EC_STATE_OPERATIONAL));
    cbn [fst snd option_map with_context last_wkc last_expected_wkc];
    rewrite ?bus_calls_log_message;
    (split; [exact Hcalls|]); (split; [exact Hall|]);
    (split; [exact Hlen|]); (split; [exact Hshape|]);
    split; reflexivity.
Qed.

Lemma ack_errors_clean (fuel : nat) :
  forall i (c : ecx_contextt P) (w : world),
    (forall k, i <= k <= slavecount c ->
               Z.land (Slave.state (get_slave c k)) EC_STATE_ERROR = 0) ->
    ack_errors stack fuel i c w = (c, w).
Proof.
  induction fuel as [|fuel IH]; intros i c w Hclean; cbn [ack_errors];
    [reflexivity|].
  destruct (Z.leb_spec i (slavecount c)) as [Hi | Hi]; [|reflexivity].
  rewrite (Hclean i) by lia.
  cbn [Z.eqb negb]. apply IH. intros k Hk. apply Hclean. lia.
Qed.

(** X12.  If the state read shows no slave [1 .. slavecount] with the
    ERROR bit, [soem_try_recover] acknowledges nothing: its second call is
    already the state write to the group. *)
Theorem try_recover_without_errors (h : soem_handle_t P) (timeout_ms : Z)
    (w : world) :
  let c := snd (fst (ecx_readstate stack (context h) w)) in
  (forall k, 1 <= k <= slavecount c ->
             Z.land (Slave.state (get_slave c k)) EC_STATE_ERROR = 0) ->
  exists rest,
    bus_calls (snd (soem_try_recover stack (Some h) timeout_ms w)) =
    bus_calls w ++ call_readstate :: call_writestate 0 :: rest /\
    List.length rest = 7%nat.
Proof.
  cbv zeta. intros Hclean. unfold soem_try_recover.
  assert (Hread : bus_calls (snd (ecx_readstate stack (context h) w)) =
                  bus_calls w ++ [call_readstate]).
  { unfold ecx_readstate.
    destruct (api_readstate stack (context h)) as [r c]. reflexivity. }
  destruct (ecx_readstate stack (context h) w) as [[r0 c0] w0].
  cbn [fst snd] in *.
  rewrite (ack_errors_clean _ 1 c0 w0 Hclean).
  pose proof (bus_calls_writestate
                (set_slave c0 0
                   (Slave.set_state EC_STATE_OPERATIONAL (get_slave c0 0)))
                0 w0) as Hw.
  destruct (ecx_writestate stack _ 0 w0) as [[r2 c2] w2].
  cbn [snd] in Hw.
  destruct (settle_cycles_calls 3 c2 w2) as [cycles [Hcyc [Hlen _]]].
  destruct (settle_cycles stack 3 c2 w2) as [c3 w3].
  cbn [snd] in Hcyc.
  pose proof (bus_calls_statecheck stack c3 0 EC_STATE_OPERATIONAL
                                   (timeout_ms * 1000) w3) as Hchk.
  destruct (ecx_statecheck stack c3 0 EC_STATE_OPERATIONAL
                           (timeout_ms * 1000) w3) as [[rc c4] w4].
  cbn [fst snd] in Hchk.
  exists (cycles ++
          [call_statecheck 0 EC_STATE_OPERATIONAL (timeout_ms * 1000) rc]).
  split.
  - destruct (negb (rc =? EC_STATE_OPERATIONAL)); cbn [snd];
      rewrite ?bus_calls_log_message;
      rewrite Hchk, Hcyc, Hw, Hread, <- !app_assoc; reflexivity.
  - rewrite length_app, Hlen. reflexivity.
Qed.

Lemma ack_errors_first (fuel : nat) :
  forall i k (c : ecx_contextt P) (w : world),
    i <= k <= slavecount c ->
    (Z.to_nat (k - i) < fuel)%nat ->
    (forall j, i <= j < k ->
               Z.land (Slave.state (get_slave c j)) EC_STATE_ERROR = 0) ->
    Z.land (Slave.state (get_slave c k)) EC_STATE_ERROR <> 0 ->
    exists rest,
      bus_calls (snd (ack_errors stack fuel i c w)) =
      bus_calls w ++ call_writestate k :: rest.
Proof.
  induction fuel as [|fuel IH]; intros i k c w Hk Hfuel Hclean Hflag;
    [lia|].
  cbn [ack_errors].
  destruct (Z.leb_spec i (slavecount c)) as [_ | Hi]; [|lia].
  destruct (Z.eq_dec i k) as [-> | Hne].
  - destruct (Z.eqb_spec (Z.land (Slave.state (get_slave c k)) EC_STATE_ERROR)
                         0) as [Hz | _]; [contradiction|].
    cbn [negb].
    pose proof (bus_calls_writestate
                  (set_slave c k
                     (Slave.set_state (Z.lor EC_STATE_SAFE_OP EC_STATE_ACK)
                                      (get_slave c k))) k w) as Hw.
    destruct (ecx_writestate stack _ k w) as [[r c'] w'].
    cbn [snd] in Hw.
    destruct (ack_errors_calls fuel (k + 1) c' w') as [acks [Hcalls _]].
    exists acks. rewrite Hcalls, Hw, <- app_assoc. reflexivity.
  - rewrite (Hclean i) by lia. cbn [Z.eqb negb].
    apply IH; try assumption; try lia.
    intros j Hj. apply Hclean. lia.
Qed.

(** X13.  The lowest slave that the state read shows with the ERROR bit is
    acknowledged first: the call after the state read is the state write to
    that slave. *)
Theorem try_recover_acknowledges (h : soem_handle_t P) (timeout_ms k : Z)
    (w : world) :
  let c := snd (fst (ecx_readstate stack (context h) w)) in
  1 <= k <= slavecount c ->
  k <= EC_MAXSLAVE ->
  (forall j, 1 <= j < k ->
             Z.land (Slave.state (get_slave c j)) EC_STATE_ERROR = 0) ->
  Z.land (Slave.state (get_slave c k)) EC_STATE_ERROR <> 0 ->
  exists rest,
    bus_calls (snd (soem_try_recover stack (Some h) timeout_ms w)) =
    bus_calls w ++ call_readstate :: call_writestate k :: rest.
Proof.
  cbv zeta. intros Hk Hmax Hclean Hflag. unfold soem_try_recover.
  assert (Hread : bus_calls (snd (ecx_readstate stack (context h) w)) =
                  bus_calls w ++ [call_readstate]).
  { unfold ecx_readstate.
    destruct (api_readstate stack (context h)) as [r c]. reflexivity. }
  destruct (ecx_readstate stack (context h) w) as [[r0 c0] w0].
  cbn [fst snd] in *.
  destruct (ack_errors_first (Z.to_nat EC_MAXSLAVE) 1 k c0 w0 Hk
              ltac:(unfold EC_MAXSLAVE in *; lia) Hclean Hflag)
    as [rest Hacks].
  destruct (ack_errors stack (Z.to_nat EC_MAXSLAVE) 1 c0 w0) as [c1 w1].
  cbn [snd] in Hacks.
  pose proof (bus_calls_writestate
                (set_slave c1 0
                   (Slave.set_state EC_STATE_OPERATIONAL (get_slave c1 0)))
                0 w1) as Hw.
  destruct (ecx_writestate stack _ 0 w1) as [[r2 c2] w2].
  cbn [snd] in Hw.
  destruct (settle_cycles_calls 3 c2 w2) as [cycles [Hcyc _]].
  destruct (settle_cycles stack 3 c2 w2) as [c3 w3].
  cbn [snd] in Hcyc.
  pose proof (bus_calls_statecheck stack c3 0 EC_STATE_OPERATIONAL
                                   (timeout_ms * 1000) w3) as Hchk.
  destruct (ecx_statecheck stack c3 0 EC_STATE_OPERATIONAL
                           (timeout_ms * 1000) w3) as [[rc c4] w4].
  cbn [fst snd] in Hchk.
  exists (rest ++ [call_writestate 0] ++ cycles ++
          [call_statecheck 0 EC_STATE_OPERATIONAL (timeout_ms * 1000) rc]).
  destruct (negb (rc =? EC_STATE_OPERATIONAL)); cbn [snd];
    rewrite ?bus_calls_log_message;
    rewrite Hchk, Hcyc, Hw, Hacks, Hread, <- !app_assoc; reflexivity.
Qed.

End DiagnosticsMore.

(** ** Session lifecycle *)

Section LifecycleMore.

Context {P : Type}.
Variable stack : soem_api P.

(** *** No operation on a session allocates or frees *)

Lemma heap_LOGE fmt args w : heap (LOGE fmt args w) = heap w.
Proof. apply heap_log_message. Qed.

Lemma heap_ecx_init c ifname w :
  heap (snd (ecx_init stack c ifname w)) = heap w.
Proof.
  unfold ecx_init. now destruct (api_init stack c ifname).
Qed.

Lemma heap_ecx_config_init c w :
  heap (snd (ecx_config_init stack c w)) = heap w.
Proof.
  unfold ecx_config_init. now destruct (api_config_init stack c).
Qed.

Lemma heap_ecx_config_map_group c io g w :
  heap (snd (ecx_config_map_group stack c io g w)) = heap w.
Proof.
  unfold ecx_config_map_group.
  now destruct (api_config_map_group stack c io g (memory w)) as [[? ?] ?].
Qed.

Lemma heap_ecx_configdc c w : heap (snd (ecx_configdc stack c w)) = heap w.
Proof.
  unfold ecx_configdc. now destruct (api_configdc stack c).
Qed.

Lemma heap_ecx_statecheck c s r t w :
  heap (snd (ecx_statecheck stack c s r t w)) = heap w.
Proof.
  unfold ecx_statecheck. now destruct (api_statecheck stack c s r t).
Qed.

Lemma heap_ecx_writestate c s w :
  heap (snd (ecx_writestate stack c s w)) = heap w.
Proof.
  unfold ecx_writestate. now destruct (api_writestate stack c s).
Qed.

Lemma heap_ecx_readstate c w : heap (snd (ecx_readstate stack c w)) = heap w.
Proof.
  unfold ecx_readstate. now destruct (api_readstate stack c).
Qed.

Lemma heap_ecx_send_processdata c w :
  heap (snd (ecx_send_processdata stack c w)) = heap w.
Proof.
  unfold ecx_send_processdata.
  now destruct (api_send_processdata stack c (memory w)) as [[? ?] ?].
Qed.

Lemma heap_ecx_receive_processdata c t w :
  heap (snd (ecx_receive_processdata stack c t w)) = heap w.
Proof.
  unfold ecx_receive_processdata.
  now destruct (api_receive_processdata stack c t (memory w)) as [[? ?] ?].
Qed.

Lemma heap_write_rxpdo (handle : option (soem_handle_t P)) i rx w :
  heap (snd (soem_write_rxpdo handle i rx w)) = heap w.
Proof.
  unfold soem_write_rxpdo.
  destruct handle as [h|]; [|reflexivity].
  destruct rx as [r|]; [|reflexivity].
  destruct (_ || _); [reflexivity|].
  destruct (_ =? NULL); [reflexivity|].
  destruct (_ <? IO_RX_BYTES); cbn [snd]; [apply heap_LOGE | reflexivity].
Qed.

Lemma heap_read_txpdo (handle : option (soem_handle_t P)) i out w :
  heap (snd (soem_read_txpdo handle i out w)) = heap w.
Proof.
  unfold soem_read_txpdo.
  destruct handle as [h|]; [|reflexivity].
  destruct out as [o|]; [|reflexivity].
  destruct (_ || _); [reflexivity|].
  destruct (_ =? NULL); [reflexivity|].
  destruct (_ <? IO_TX_BYTES); cbn [snd]; [apply heap_LOGE | reflexivity].
Qed.

Lemma heap_exchange (handle : option (soem_handle_t P)) outputs outputs_len
    inputs inputs_len timeout_us w :
  heap (snd (soem_exchange_process_data stack handle outputs outputs_len
               inputs inputs_len timeout_us w)) = heap w.
Proof.
  unfold soem_exchange_process_data.
  destruct handle as [h|]; [|reflexivity].
  pose proof (heap_ecx_send_processdata (context h)
                (with_memory
                   (stage_outputs (group0 (context h)) outputs outputs_len
                                  (memory w)) w)) as Hs.
  destruct (ecx_send_processdata stack (context h) _) as [[wkc_s c1] w1].
  cbn [snd heap with_memory] in Hs.
  destruct (wkc_s <? 0); [cbn [snd]; now rewrite heap_LOGE|].
  pose proof (heap_ecx_receive_processdata c1
                (if timeout_us <? 0 then 0 else timeout_us) w1) as Hr.
  destruct (ecx_receive_processdata stack c1 _ w1) as [[wkc_r c2] w2].
  cbn [snd] in Hr.
  destruct (wkc_r <? 0); [|destruct (_ <=? 0); [|destruct (wkc_r <? _)]];
    cbn [snd]; unfold LOGW; rewrite ?heap_LOGE, ?heap_log_message;
    congruence.
Qed.

Lemma heap_stage_nop (n : nat) :
  forall i (h : soem_handle_t P) w, heap (stage_nop n i h w) = heap w.
Proof.
  induction n as [|n IH]; intros i h w; cbn [stage_nop]; [reflexivity|].
  pose proof (heap_write_rxpdo (Some h) i (Some nop_command) w) as Hw.
  destruct (soem_write_rxpdo (Some h) i (Some nop_command) w) as [ok w'].
  cbn [snd] in Hw. rewrite IH.
  destruct (ok =? 0); [now rewrite heap_LOGE | exact Hw].
Qed.

Lemma heap_report_inputs (n : nat) :
  forall i (h : soem_handle_t P) w, heap (report_inputs n i h w) = heap w.
Proof.
  induction n as [|n IH]; intros i h w; cbn [report_inputs]; [reflexivity|].
  pose proof (heap_read_txpdo (Some h) i (Some zero_tx) w) as Hr.
  destruct (soem_read_txpdo (Some h) i (Some zero_tx) w) as [[ok tx] w'].
  cbn [snd] in Hr. rewrite IH.
  destruct tx as [t|]; [|exact Hr].
  destruct (negb (ok =? 0)); [unfold LOGI; now rewrite heap_log_message|].
  exact Hr.
Qed.

(** Bring-up goes through when each of its five steps succeeds. *)
Lemma initialize_succeeds (ifname : option string) (w : world)
    (p io : Z) (rest : list Z) :
  let inited := api_init stack (zero_context stack) ifname in
  let discovered := api_config_init stack (snd inited) in
  let mapped :=
    api_config_map_group stack (snd discovered) io 0
                         (memset io 0 (64 * 1024) (memory w)) in
  let res := soem_initialize stack ifname w in
  allocator w = p :: io :: rest ->
  p <> NULL ->
  io <> NULL ->
  fst inited <> 0 ->
  0 < fst discovered ->
  0 < fst (fst mapped) ->
  to_size_t (fst (fst mapped)) <= 64 * 1024 ->
  exists h rc pre,
    fst res = Some h /\
    base h = p /\
    IOmap h = io /\
    heap (snd res) = io :: p :: heap w /\
    output_length h = to_int (Group.Obytes (group0 (context h))) /\
    input_length h = to_int (Group.Ibytes (group0 (context h))) /\
    bus_calls (snd res) =
    pre ++ [call_writestate 0;
            call_statecheck 0 EC_STATE_OPERATIONAL EC_TIMEOUTSTATE rc].
Proof.
  cbv zeta. intros Halloc Hp Hio Hinit Hfound Hmap Hfit.
  unfold soem_initialize, malloc. rewrite Halloc.
  destruct (Z.eqb_spec p NULL) as [Hnull | _]; [contradiction|].
  cbv beta iota.
  destruct (Z.eqb_spec p NULL) as [Hnull | _]; [contradiction|].
  unfold ecx_init.
  destruct (api_init stack (zero_context stack) ifname) as [rc0 c1].
  cbn [fst snd] in *.
  destruct (Z.eqb_spec rc0 0) as [Hz | _]; [contradiction|].
  unfold ecx_config_init.
  destruct (api_config_init stack c1) as [n c2].
  cbn [fst snd] in *.
  destruct (Z.leb_spec n 0) as [Hle | _]; [lia|].
  cbn [allocator record_call].
  destruct (Z.eqb_spec io NULL) as [Hnull | _]; [contradiction|].
  cbv beta iota.
  destruct (Z.eqb_spec io NULL) as [Hnull | _]; [contradiction|].
  unfold ecx_config_map_group.
  cbn [memory with_memory record_call].
  destruct (api_config_map_group stack c2 io 0
              (memset io 0 (64 * 1024) (memory w))) as [[actual c3] m3].
  cbn [fst] in Hmap, Hfit.
  destruct (Z.leb_spec actual 0) as [Hle | _]; [lia|].
  destruct (Z.gtb_spec (to_size_t actual) (64 * 1024)) as [Hgt | _]; [lia|].
  match goal with
  | |- context [ecx_configdc stack c3 ?W] =>
      pose proof (heap_ecx_configdc c3 W) as H1;
      destruct (ecx_configdc stack c3 W) as [[r4 c4] w4]
  end.
  cbn [snd heap record_call with_memory] in H1.
  match goal with
  | |- context [soem_exchange_process_data stack ?H None 0 None 0 2000 ?W] =>
      pose proof (heap_exchange H None 0 None 0 2000 W) as H2;
      destruct (soem_exchange_process_data stack H None 0 None 0 2000 W)
        as [[[rc5 hopt] ins] w5]
  end.
  cbn [snd] in H2. rewrite heap_stage_nop in H2.
  match goal with
  | |- context [ecx_statecheck stack ?C 0 EC_STATE_SAFE_OP ?T ?W] =>
      pose proof (heap_ecx_statecheck C 0 EC_STATE_SAFE_OP T W) as H3;
      destruct (ecx_statecheck stack C 0 EC_STATE_SAFE_OP T W)
        as [[r6 c6] w6]
  end.
  cbn [snd] in H3. rewrite heap_report_inputs in H3.
  match goal with
  | |- context [ecx_writestate stack ?C 0 w6] =>
      pose proof (heap_ecx_writestate C 0 w6) as H4;
      pose proof (bus_calls_writestate stack C 0 w6) as B4;
      destruct (ecx_writestate stack C 0 w6) as [[r7 c7] w7]
  end.
  cbn [snd] in H4, B4.
  pose proof (heap_ecx_statecheck c7 0 EC_STATE_OPERATIONAL EC_TIMEOUTSTATE
                                  w7) as H5.
  pose proof (bus_calls_statecheck stack c7 0 EC_STATE_OPERATIONAL
                                   EC_TIMEOUTSTATE w7) as B5.
  destruct (ecx_statecheck stack c7 0 EC_STATE_OPERATIONAL EC_TIMEOUTSTATE w7)
    as [[r8 c8] w8].
  cbn [fst snd] in *.
  exists (mk_handle p c8 io (to_int (Group.Obytes (group0 c8)))
                    (to_int (Group.Ibytes (group0 c8)))
                    (last_wkc match hopt with
                              | Some h' => h'
                              | None => mk_handle p c4 io 0 0 (-1) 0
                              end)
                    (last_expected_wkc match hopt with
                                       | Some h' => h'
                                       | None => mk_handle p c4 io 0 0 (-1) 0
                                       end)),
         r8, (bus_calls w6).
  split; [reflexivity|]. split; [reflexivity|]. split; [reflexivity|].
  split.
  { rewrite H5, H4, H3.
    destruct (rc5 <? 0); rewrite ?heap_LOGE; congruence. }
  split; [reflexivity|]. split; [reflexivity|].
  rewrite B5, B4, <- app_assoc. reflexivity.
Qed.

(** Bring-up returns a handle only when each of its five steps
    succeeded. *)
Lemma initialize_only_if (ifname : option string) (w : world)
    (h : soem_handle_t P) :
  let inited := api_init stack (zero_context stack) ifname in
  let discovered := api_config_init stack (snd inited) in
  fst (soem_initialize stack ifname w) = Some h ->
  exists p io rest,
    allocator w = p :: io :: rest /\
    p <> NULL /\
    io <> NULL /\
    fst inited <> 0 /\
    0 < fst discovered /\
    0 < fst (fst (api_config_map_group stack (snd discovered) io 0
                    (memset io 0 (64 * 1024) (memory w)))) /\
    to_size_t
      (fst (fst (api_config_map_group stack (snd discovered) io 0
                   (memset io 0 (64 * 1024) (memory w))))) <= 64 * 1024.
Proof.
  cbv zeta. unfold soem_initialize, malloc.
  destruct (allocator w) as [|p rest] eqn:Halloc; [discriminate|].
  destruct (Z.eqb_spec p NULL) as [Hp | Hp].
  { subst p. cbn [Z.eqb NULL]. discriminate. }
  cbv beta iota.
  destruct (Z.eqb_spec p NULL) as [Hnull | _]; [contradiction|].
  unfold ecx_init.
  destruct (api_init stack (zero_context stack) ifname) as [rc c1].
  cbn [fst snd].
  destruct (Z.eqb_spec rc 0) as [Hrc | Hrc]; [discriminate|].
  unfold ecx_config_init.
  destruct (api_config_init stack c1) as [n c2].
  cbn [fst snd].
  destruct (Z.leb_spec n 0) as [Hn | Hn]; [discriminate|].
  cbn [allocator record_call].
  destruct rest as [|io rest']; [discriminate|].
  destruct (Z.eqb_spec io NULL) as [Hio | Hio].
  { subst io. cbn [Z.eqb NULL]. discriminate. }
  cbv beta iota.
  destruct (Z.eqb_spec io NULL) as [Hnull | _]; [contradiction|].
  unfold ecx_config_map_group.
  cbn [memory with_memory record_call].
  destruct (api_config_map_group stack c2 io 0
              (memset io 0 (64 * 1024) (memory w))) as [[actual c3] m3]
    eqn:Hmap.
  destruct (Z.leb_spec actual 0) as [Hact | Hact]; [discriminate|].
  destruct (Z.gtb_spec (to_size_t actual) (64 * 1024)) as [Hbig | Hfit];
    [discriminate|].
  intros _. exists p, io, rest'. rewrite Hmap. cbn [fst].
  split; [reflexivity|]. repeat (split; [assumption|]). assumption.
Qed.

Lemma heap_ack_errors (fuel : nat) :
  forall i (c : ecx_contextt P) w,
    heap (snd (ack_errors stack fuel i c w)) = heap w.
Proof.
  induction fuel as [|fuel IH]; intros i c w; cbn [ack_errors];
    [reflexivity|].
  destruct (i <=? slavecount c); [|reflexivity].
  destruct (negb _); [|apply IH].
  match goal with
  | |- context [ecx_writestate stack ?C i w] =>
      pose proof (heap_ecx_writestate C i w) as Hw;
      destruct (ecx_writestate stack C i w) as [[r c'] w']
  end.
  cbn [snd] in Hw. now rewrite IH.
Qed.

Lemma heap_settle_cycles (k : nat) :
  forall (c : ecx_contextt P) w,
    heap (snd (settle_cycles stack k c w)) = heap w.
Proof.
  induction k as [|k IH]; intros c w; cbn [settle_cycles]; [reflexivity|].
  pose proof (heap_ecx_send_processdata c w) as Hs.
  destruct (ecx_send_processdata stack c w) as [[r1 c1] w1].
  pose proof (heap_ecx_receive_processdata c1 1000 w1) as Hr.
  destruct (ecx_receive_processdata stack c1 1000 w1) as [[r2 c2] w2].
  cbn [snd] in *. rewrite IH. congruence.
Qed.

Lemma heap_try_recover (handle : option (soem_handle_t P)) timeout_ms w :
  heap (snd (soem_try_recover stack handle timeout_ms w)) = heap w.
Proof.
  unfold soem_try_recover.
  destruct handle as [h|]; [|reflexivity].
  pose proof (heap_ecx_readstate (context h) w) as H0.
  destruct (ecx_readstate stack (context h) w) as [[r0 c0] w0].
  pose proof (heap_ack_errors (Z.to_nat EC_MAXSLAVE) 1 c0 w0) as H1.
  destruct (ack_errors stack (Z.to_nat EC_MAXSLAVE) 1 c0 w0) as [c1 w1].
  match goal with
  | |- context [ecx_writestate stack ?C 0 w1] =>
      pose proof (heap_ecx_writestate C 0 w1) as H2;
      destruct (ecx_writestate stack C 0 w1) as [[r2 c2] w2]
  end.
  pose proof (heap_settle_cycles 3 c2 w2) as H3.
  destruct (settle_cycles stack 3 c2 w2) as [c3 w3].
  pose proof (heap_ecx_statecheck c3 0 EC_STATE_OPERATIONAL
                                  (timeout_ms * 1000) w3) as H4.
  destruct (ecx_statecheck stack c3 0 EC_STATE_OPERATIONAL
                           (timeout_ms * 1000) w3) as [[rc c4] w4].
  cbn [snd] in *.
  destruct (negb (rc =? EC_STATE_OPERATIONAL)); cbn [snd];
    rewrite heap_log_message; congruence.
Qed.

(** An exchange and a recovery hand back the same session: the handle is
    still there, with the same two blocks. *)
Lemma exchange_keeps_blocks (h : soem_handle_t P) outputs outputs_len
    inputs inputs_len timeout_us w :
  exists h',
    snd (fst (fst (soem_exchange_process_data stack (Some h) outputs
                     outputs_len inputs inputs_len timeout_us w))) =
    Some h' /\
    base h' = base h /\ IOmap h' = IOmap h.
Proof.
  unfold soem_exchange_process_data.
  destruct (ecx_send_processdata stack (context h) _) as [[wkc_s c1] w1].
  destruct (wkc_s <? 0); [cbn [fst snd]; eauto|].
  destruct (ecx_receive_processdata stack c1 _ w1) as [[wkc_r c2] w2].
  destruct (wkc_r <? 0); [|destruct (_ <=? 0); [|destruct (wkc_r <? _)]];
    cbn [fst snd]; eauto.
Qed.

Lemma try_recover_keeps_blocks (h : soem_handle_t P) timeout_ms w :
  exists h',
    snd (fst (soem_try_recover stack (Some h) timeout_ms w)) = Some h' /\
    base h' = base h /\ IOmap h' = IOmap h.
Proof.
  unfold soem_try_recover.
  destruct (ecx_readstate stack (context h) w) as [[r0 c0] w0].
  destruct (ack_errors stack (Z.to_nat EC_MAXSLAVE) 1 c0 w0) as [c1 w1].
  destruct (ecx_writestate stack _ 0 w1) as [[r2 c2] w2].
  destruct (settle_cycles stack 3 c2 w2) as [c3 w3].
  destruct (ecx_statecheck stack c3 0 EC_STATE_OPERATIONAL
                           (timeout_ms * 1000) w3) as [[rc c4] w4].
  destruct (negb (rc =? EC_STATE_OPERATIONAL)); cbn [fst snd]; eauto.
Qed.

(** [soem_shutdown] on a session that owns its two blocks. *)
Lemma shutdown_releases (h : soem_handle_t P) (w : world) (live : list Z) :
  base h <> NULL ->
  IOmap h <> NULL ->
  heap w = IOmap h :: base h :: live ->
  heap (soem_shutdown stack (Some h) w) = live /\
  bus_calls (soem_shutdown stack (Some h) w) =
  bus_calls w ++ [call_writestate 0; call_close].
Proof.
  intros Hp Hio Hheap. unfold soem_shutdown.
  match goal with
  | |- context [ecx_writestate stack ?C 0 w] =>
      pose proof (heap_ecx_writestate C 0 w) as Hw;
      pose proof (bus_calls_writestate stack C 0 w) as Bw;
      destruct (ecx_writestate stack C 0 w) as [[r c] w1]
  end.
  cbn [snd] in Hw, Bw. unfold ecx_close.
  rewrite (free_live (base h) _ Hp), (free_live (IOmap h) _ Hio).
  cbn [heap bus_calls record_call].
  rewrite Hw, Hheap, Bw, !remove_block_head, <- app_assoc.
  split; reflexivity.
Qed.

(** X14.  Bring-up returns a handle exactly when its five steps succeed:
    both allocations, [ecx_init] (non-zero), discovery (at least one
    slave), and a mapped size between 1 and 64 KiB.  The probe exchange and
    the two state checks have no say in it. *)
Theorem initialize_success_iff (ifname : option string) (w : world) :
  let inited := api_init stack (zero_context stack) ifname in
  let discovered := api_config_init stack (snd inited) in
  fst (soem_initialize stack ifname w) <> None <->
  exists p io rest,
    allocator w = p :: io :: rest /\
    p <> NULL /\
    io <> NULL /\
    fst inited <> 0 /\
    0 < fst discovered /\
    0 < fst (fst (api_config_map_group stack (snd discovered) io 0
                    (memset io 0 (64 * 1024) (memory w)))) /\
    to_size_t
      (fst (fst (api_config_map_group stack (snd discovered) io 0
                   (memset io 0 (64 * 1024) (memory w))))) <= 64 * 1024.
Proof.
  cbv zeta. split.
  - destruct (fst (soem_initialize stack ifname w)) as [h|] eqn:Hres;
      [intros _ | intros Hne; contradiction].
    exact (initialize_only_if ifname w h Hres).
  - intros [p [io [rest [Ha [Hp [Hio [Hi [Hf [Hm Hfit]]]]]]]]].
    destruct (initialize_succeeds ifname w p io rest Ha Hp Hio Hi Hf Hm Hfit)
      as [h [rc [pre [Hres _]]]].
    rewrite Hres. discriminate.
Qed.

(** X15.  A session [soem_initialize] returns owns exactly two live
    blocks, the handle and the image, both non-null and on top of the heap;
    its cached byte counts are those of the group; and the last two calls
    into the stack were the state write to the group and the wait for
    OPERATIONAL. *)
Theorem initialize_owns_session (ifname : option string) (w : world)
    (h : soem_handle_t P) :
  let res := soem_initialize stack ifname w in
  fst res = Some h ->
  base h <> NULL /\
  IOmap h <> NULL /\
  heap (snd res) = IOmap h :: base h :: heap w /\
  output_length h = to_int (Group.Obytes (group0 (context h))) /\
  input_length h = to_int (Group.Ibytes (group0 (context h))) /\
  exists pre rc,
    bus_calls (snd res) =
    pre ++ [call_writestate 0;
            call_statecheck 0 EC_STATE_OPERATIONAL EC_TIMEOUTSTATE rc].
Proof.
  cbv zeta. intros Hres.
  destruct (initialize_only_if ifname w h Hres)
    as [p [io [rest [Ha [Hp [Hio [Hi [Hf [Hm Hfit]]]]]]]]].
  destruct (initialize_succeeds ifname w p io rest Ha Hp Hio Hi Hf Hm Hfit)
    as [h' [rc [pre [Hres' [Hb [Him [Hheap [Hol [Hil Hcalls]]]]]]]]].
  rewrite Hres in Hres'. injection Hres' as <-.
  rewrite Hb, Him.
  repeat (split; [assumption|]). eauto.
Qed.

(** X16.  A whole session leaks nothing: bring-up, then an exchange, then a
    recovery, then [soem_shutdown] leave the heap as it was before
    bring-up, whatever the stack answered, and the last two calls into the
    stack are the state write to the group and [ecx_close]. *)
Theorem session_releases_heap (ifname : option string) (w : world)
    (h : soem_handle_t P) (outputs : option (list Z)) (outputs_len : Z)
    (inputs : option (list Z)) (inputs_len timeout_us timeout_ms : Z) :
  let res := soem_initialize stack ifname w in
  let ex :=
    soem_exchange_process_data stack (Some h) outputs outputs_len inputs
                               inputs_len timeout_us (snd res) in
  let rec := soem_try_recover stack (snd (fst (fst ex))) timeout_ms (snd ex) in
  let w_end := soem_shutdown stack (snd (fst rec)) (snd rec) in
  fst res = Some h ->
  heap w_end = heap w /\
  bus_calls w_end = bus_calls (snd rec) ++ [call_writestate 0; call_close].
Proof.
  cbv zeta. intros Hres.
  destruct (initialize_only_if ifname w h Hres)
    as [p [io [rest [Ha [Hp [Hio [Hi [Hf [Hm Hfit]]]]]]]]].
  destruct (initialize_succeeds ifname w p io rest Ha Hp Hio Hi Hf Hm Hfit)
    as [h' [rc [pre [Hres' [Hb [Him [Hheap _]]]]]]].
  rewrite Hres in Hres'. injection Hres' as <-.
  destruct (exchange_keeps_blocks h outputs outputs_len inputs inputs_len
              timeout_us (snd (soem_initialize stack ifname w)))
    as [h1 [Hex [Hb1 Hi1]]].
  rewrite Hex.
  destruct (try_recover_keeps_blocks h1 timeout_ms
              (snd (soem_exchange_process_data stack (Some h) outputs
                      outputs_len inputs inputs_len timeout_us
                      (snd (soem_initialize stack ifname w)))))
    as [h2 [Hrec [Hb2 Hi2]]].
  rewrite Hrec.
  apply shutdown_releases.
  - congruence.
  - congruence.
  - rewrite heap_try_recover, heap_exchange, Hheap. congruence.
Qed.

(** X17.  On a session fresh from bring-up, [soem_get_process_sizes] and
    [soem_get_health] agree on the byte counts. *)
Theorem initialize_sizes_agree (ifname : option string) (w : world)
    (h : soem_handle_t P) (o : soem_health_t) (a b : Z) :
  let res := soem_initialize stack ifname w in
  let sizes := soem_get_process_sizes (Some h) (Some a) (Some b) in
  let report :=
    snd (fst (soem_get_health stack (Some h) (Some o) (snd res))) in
  fst res = Some h ->
  fst (fst sizes) = 1 /\
  snd (fst sizes) = option_map Health.bytes_out report /\
  snd sizes = option_map Health.bytes_in report.
Proof.
  cbv zeta. intros Hres.
  destruct (initialize_only_if ifname w h Hres)
    as [p [io [rest [Ha [Hp [Hio [Hi [Hf [Hm Hfit]]]]]]]]].
  destruct (initialize_succeeds ifname w p io rest Ha Hp Hio Hi Hf Hm Hfit)
    as [h' [rc [pre [Hres' [_ [_ [_ [Hol [Hil _]]]]]]]]].
  rewrite Hres in Hres'. injection Hres' as <-.
  unfold soem_get_process_sizes, soem_get_health.
  destruct (ecx_readstate stack (context h) _) as [[r0 c0] w0].
  cbn [fst snd option_map Health.bytes_out Health.bytes_in].
  rewrite Hol, Hil. auto.
Qed.

(** A write for slave [i] changes no byte outside its 17-byte window, and
    none at all when the slave has no output region. *)
Lemma write_rxpdo_frame (h : soem_handle_t P) (i : Z)
    (rx : option DriveRxPDO) (w : world) (a : Z) :
  Slave.outputs (get_slave (context h) i) = NULL \/
  a < Slave.outputs (get_slave (context h) i) \/
  Slave.outputs (get_slave (context h) i) + 17 <= a ->
  memory (snd (soem_write_rxpdo (Some h) i rx w)) a = memory w a.
Proof.
  intros Hout. unfold soem_write_rxpdo.
  destruct rx as [r|]; [|reflexivity].
  destruct (_ || _); [reflexivity|].
  destruct (Z.eqb_spec (Slave.outputs (get_slave (context h) i)) NULL)
    as [Hnull | Hptr]; [reflexivity|].
  destruct (_ <? IO_RX_BYTES); cbn [snd].
  { unfold LOGE. now rewrite memory_log_message. }
  cbn [memory with_memory]. rewrite write_rxpdo_image.
  apply store_bytes_outside.
  rewrite !length_app, length_buffer_prefix, !length_le_bytes.
  cbn [List.length Nat.add].
  destruct Hout as [Hnull | Hout]; [contradiction | lia].
Qed.

Lemma stage_nop_frame (n : nat) :
  forall i (h : soem_handle_t P) (w : world) (a : Z),
    (forall j, i <= j < i + Z.of_nat n ->
       Slave.outputs (get_slave (context h) j) = NULL \/
       a < Slave.outputs (get_slave (context h) j) \/
       Slave.outputs (get_slave (context h) j) + 17 <= a) ->
    memory (stage_nop n i h w) a = memory w a.
Proof.
  induction n as [|n IH]; intros i h w a Hout; cbn [stage_nop];
    [reflexivity|].
  assert (Hi : i <= i < i + Z.of_nat (S n)) by lia.
  pose proof (write_rxpdo_frame h i (Some nop_command) w a (Hout i Hi))
    as Hw.
  destruct (soem_write_rxpdo (Some h) i (Some nop_command) w) as [ok w1].
  cbn [snd] in Hw.
  rewrite IH by (intros j Hj; apply Hout; lia).
  destruct (ok =? 0); [unfold LOGE; now rewrite memory_log_message|].
  exact Hw.
Qed.

Lemma stage_nop_window (n : nat) :
  forall i k (h : soem_handle_t P) (w : world),
    i <= k < i + Z.of_nat n ->
    0 < k <= slavecount (context h) ->
    Slave.outputs (get_slave (context h) k) <> NULL ->
    IO_RX_BYTES <= Slave.Obytes (get_slave (context h) k) <= INT_MAX ->
    (forall j, i <= j < i + Z.of_nat n -> j <> k ->
       Slave.outputs (get_slave (context h) j) = NULL \/
       Slave.outputs (get_slave (context h) j) + 17 <=
         Slave.outputs (get_slave (context h) k) \/
       Slave.outputs (get_slave (context h) k) + 17 <=
         Slave.outputs (get_slave (context h) j)) ->
    load_bytes (Slave.outputs (get_slave (context h) k)) 17
               (memory (stage_nop n i h w)) =
    [78; 79; 80; 0; 0; 0; 0; 0; 0; 0; 0; 0; 0; 0; 0; 0; 0].
Proof.
  induction n as [|n IH]; intros i k h w Hk Hvalid Hptr Hsz Hapart; [lia|].
  cbn [stage_nop].
  destruct (Z.eq_dec i k) as [-> | Hne].
  - rewrite (write_rxpdo_success h k nop_command w Hvalid Hptr Hsz).
    cbn [Z.eqb].
    transitivity
      (load_bytes (Slave.outputs (get_slave (context h) k)) 17
         (store_bytes (Slave.outputs (get_slave (context h) k))
            [78; 79; 80; 0; 0; 0; 0; 0; 0; 0; 0; 0; 0; 0; 0; 0; 0]
            (memory w))).
    + apply load_bytes_ext. intros d Hd.
      apply stage_nop_frame. intros j Hj.
      assert (Hjr : k <= j < k + Z.of_nat (S n)) by lia.
      assert (Hjk : j <> k) by lia.
      destruct (Hapart j Hjr Hjk) as [Hn | [Hl | Hr]];
        [now left | right; right; lia | right; left; lia].
    + apply (load_bytes_store_bytes
               [78; 79; 80; 0; 0; 0; 0; 0; 0; 0; 0; 0; 0; 0; 0; 0; 0]).
  - destruct (soem_write_rxpdo (Some h) i (Some nop_command) w) as [ok w1].
    apply IH; try assumption; try lia.
    intros j Hj Hjk. apply Hapart; lia.
Qed.

(** X18.  The staging loop of bring-up leaves "NOP" and fourteen zero
    bytes, the execute flag among them, at the start of the output region
    of every slave that has a region of at least 20 bytes, provided the
    17-byte windows of the slaves do not overlap. *)
Theorem stage_nop_region (h : soem_handle_t P) (w : world) (k : Z) :
  0 < k <= slavecount (context h) ->
  Slave.outputs (get_slave (context h) k) <> NULL ->
  IO_RX_BYTES <= Slave.Obytes (get_slave (context h) k) <= INT_MAX ->
  (forall j, 1 <= j <= slavecount (context h) -> j <> k ->
     Slave.outputs (get_slave (context h) j) = NULL \/
     Slave.outputs (get_slave (context h) j) + 17 <=
       Slave.outputs (get_slave (context h) k) \/
     Slave.outputs (get_slave (context h) k) + 17 <=
       Slave.outputs (get_slave (context h) j)) ->
  let w' :=
    stage_nop (Z.to_nat (soem_get_slave_count (Some h))) 1 h w in
  load_bytes (Slave.outputs (get_slave (context h) k)) 17 (memory w') =
  [78; 79; 80; 0; 0; 0; 0; 0; 0; 0; 0; 0; 0; 0; 0; 0; 0] /\
  memory w' (Slave.outputs (get_slave (context h) k) + 16) = 0.
Proof.
  intros Hk Hptr Hsz Hapart. cbv zeta. cbn [soem_get_slave_count].
  assert (Hwin :
    load_bytes (Slave.outputs (get_slave (context h) k)) 17
      (memory (stage_nop (Z.to_nat (slavecount (context h))) 1 h w)) =
    [78; 79; 80; 0; 0; 0; 0; 0; 0; 0; 0; 0; 0; 0; 0; 0; 0]).
  { apply stage_nop_window; try assumption; try lia.
    intros j Hj Hjk. apply Hapart; lia. }
  split; [exact Hwin|].
  pose proof (nth_load_bytes 17 (Slave.outputs (get_slave (context h) k))
                (memory (stage_nop (Z.to_nat (slavecount (context h))) 1 h w))
                16 ltac:(lia)) as Hnth.
  rewrite Hwin in Hnth. cbn [nth] in Hnth.
  change (Z.of_nat 16) with 16 in Hnth. now rewrite <- Hnth.
Qed.

End LifecycleMore.

(** ** Introspection and error text *)

Lemma nth_array_set_same {A : Type} (d x : A) (n : nat) :
  forall l, nth n (array_set d n x l) d = x.
Proof.
  induction n as [|n IH]; intros [|y l]; cbn [array_set nth];
    auto.
Qed.

Lemma nth_array_set_other {A : Type} (d x : A) (n : nat) :
  forall m l, m <> n -> nth m (array_set d n x l) d = nth m l d.
Proof.
  induction n as [|n IH]; intros m [|y l] Hm; cbn [array_set].
  - destruct m as [|m]; [contradiction|]. now destruct m.
  - destruct m as [|m]; [contradiction | reflexivity].
  - destruct m as [|m]; [reflexivity|]. cbn [nth].
    rewrite IH by lia. now destruct m.
  - destruct m as [|m]; [reflexivity|]. cbn [nth]. apply IH. lia.
Qed.

Lemma length_array_set {A : Type} (d x : A) (n : nat) :
  forall l, List.length (array_set d n x l) = Nat.max (List.length l) (S n).
Proof.
  induction n as [|n IH]; intros [|y l]; cbn [array_set List.length].
  - reflexivity.
  - lia.
  - rewrite IH. cbn [List.length]. lia.
  - rewrite IH. lia.
Qed.

Lemma c_strlen_le (s : list Z) : (c_strlen s <= List.length s)%nat.
Proof.
  induction s as [|c s IH]; cbn [c_strlen List.length]; [lia|].
  destruct (c =? 0); lia.
Qed.

(** A string cut at or before its end, followed by a zero byte, is a C
    string of the cut length. *)
Lemma c_strlen_cut (s rest : list Z) :
  forall l, (l <= c_strlen s)%nat ->
            c_strlen (firstn l s ++ 0 :: rest) = l.
Proof.
  induction s as [|c s IH]; intros l Hl.
  - cbn [c_strlen] in Hl. replace l with O by lia. reflexivity.
  - destruct l as [|l]; [reflexivity|].
    cbn [c_strlen] in Hl. cbn [firstn app c_strlen].
    destruct (c =? 0); [lia|].
    rewrite IH by lia. reflexivity.
Qed.

Lemma repeat_zero_then_zero (m : nat) :
  repeat 0 m ++ [0] = 0 :: repeat 0 m.
Proof.
  induction m as [|m IH]; cbn [repeat app]; [reflexivity|].
  now rewrite IH.
Qed.

Lemma length_strncpy (src : list Z) (n : nat) :
  List.length (strncpy src n) = n.
Proof.
  unfold strncpy, strnlen.
  pose proof (c_strlen_le src) as Hle.
  rewrite length_app, length_firstn, repeat_length. lia.
Qed.

Section IntrospectionMore.

Context {P : Type}.
Variable identity_of : ecx_contextt P -> Z -> ec_slave_identity.
Variable api_elist2string :
  ecx_contextt P -> option (list Z) * ecx_contextt P.

(** The entry [soem_scan_slaves] writes for turn [k] of its loop. *)
Local Abbreviation scanned c k :=
  (mk_info (Z.of_nat k + 1)
           (eep_man (identity_of c (Z.of_nat k + 1)))
           (eep_id (identity_of c (Z.of_nat k + 1)))
           (eep_rev (identity_of c (Z.of_nat k + 1)))
           (strncpy (slave_name (identity_of c (Z.of_nat k + 1)))
                    (Z.to_nat EC_MAXNAME) ++ [0])).

Lemma scan_loop_entries (n : nat) :
  forall (i : nat) (c : ecx_contextt P) (buffer : list soem_slave_info_t)
         (k : nat),
    nth k (scan_loop identity_of n (Z.of_nat i) c buffer)
        (mk_info 0 0 0 0 []) =
    if (i <=? k)%nat && (k <? i + n)%nat then scanned c k
    else nth k buffer (mk_info 0 0 0 0 []).
Proof.
  induction n as [|n IH]; intros i c buffer k; cbn [scan_loop].
  - destruct (Nat.leb_spec i k); destruct (Nat.ltb_spec k (i + 0));
      cbn [andb]; try reflexivity; lia.
  - replace (Z.of_nat i + 1) with (Z.of_nat (S i)) by lia.
    rewrite IH, Nat2Z.id.
    destruct (Nat.eq_dec k i) as [-> | Hne].
    + rewrite nth_array_set_same.
      destruct (Nat.leb_spec (S i) i); [lia|].
      destruct (Nat.leb_spec i i); [|lia].
      destruct (Nat.ltb_spec i (i + S n)); [|lia].
      cbn [andb]. replace (Z.of_nat (S i)) with (Z.of_nat i + 1) by lia.
      reflexivity.
    + rewrite nth_array_set_other by assumption.
      destruct (Nat.leb_spec (S i) k); destruct (Nat.leb_spec i k);
        destruct (Nat.ltb_spec k (S i + n));
        destruct (Nat.ltb_spec k (i + S n));
        cbn [andb]; try reflexivity; lia.
Qed.

Lemma length_scan_loop (n : nat) :
  forall (i : nat) (c : ecx_contextt P) (buffer : list soem_slave_info_t),
    (i + n <= List.length buffer)%nat ->
    List.length (scan_loop identity_of n (Z.of_nat i) c buffer) =
    List.length buffer.
Proof.
  induction n as [|n IH]; intros i c buffer Hfit; cbn [scan_loop];
    [reflexivity|].
  replace (Z.of_nat i + 1) with (Z.of_nat (S i)) by lia.
  rewrite IH; rewrite Nat2Z.id, length_array_set; lia.
Qed.

Lemma scan_loop_from_start (n : nat) (c : ecx_contextt P)
    (buffer : list soem_slave_info_t) (k : nat) :
  nth k (scan_loop identity_of n 0 c buffer) (mk_info 0 0 0 0 []) =
  if (k <? n)%nat then scanned c k else nth k buffer (mk_info 0 0 0 0 []).
Proof.
  exact (scan_loop_entries n 0 c buffer k).
Qed.

(** X19.  [soem_scan_slaves] with a handle, an array and a positive
    [max_count] returns the smaller of the slave count and [max_count] -
    a negative slave count comes back as it is.  Entry [k] below that
    number holds position [k + 1] and the identity of slave [k + 1]; every
    other entry of the array is as it was, and an array with room for the
    returned number keeps its length. *)
Theorem scan_slaves_entries (h : soem_handle_t P)
    (buffer : list soem_slave_info_t) (max_count : Z) :
  0 < max_count ->
  let count := Z.min (slavecount (context h)) max_count in
  let res := soem_scan_slaves identity_of (Some h) (Some buffer) max_count in
  fst res = count /\
  exists buffer',
    snd res = Some buffer' /\
    (forall k, Z.of_nat k < count ->
       position (nth k buffer' (mk_info 0 0 0 0 [])) = Z.of_nat k + 1 /\
       vendor_id (nth k buffer' (mk_info 0 0 0 0 [])) =
       eep_man (identity_of (context h) (Z.of_nat k + 1)) /\
       product_code (nth k buffer' (mk_info 0 0 0 0 [])) =
       eep_id (identity_of (context h) (Z.of_nat k + 1)) /\
       revision (nth k buffer' (mk_info 0 0 0 0 [])) =
       eep_rev (identity_of (context h) (Z.of_nat k + 1))) /\
    (forall k, count <= Z.of_nat k ->
       nth k buffer' (mk_info 0 0 0 0 []) =
       nth k buffer (mk_info 0 0 0 0 [])) /\
    (count <= Z.of_nat (List.length buffer) ->
     List.length buffer' = List.length buffer).
Proof.
  intros Hmax. cbv zeta. unfold soem_scan_slaves.
  destruct (Z.leb_spec max_count 0) as [Hle | _]; [lia|].
  set (count := if slavecount (context h) >? max_count
                then max_count else slavecount (context h)).
  assert (Hcount : count = Z.min (slavecount (context h)) max_count).
  { unfold count.
    destruct (Z.gtb_spec (slavecount (context h)) max_count); lia. }
  cbn [fst snd]. rewrite <- Hcount. split; [reflexivity|].
  eexists. split; [reflexivity|].
  split; [|split].
  - intros k Hk. rewrite scan_loop_from_start.
    destruct (Nat.ltb_spec k (Z.to_nat count)) as [_ | Hge]; [|lia].
    cbn [position vendor_id product_code revision]. auto.
  - intros k Hk. rewrite scan_loop_from_start.
    destruct (Nat.ltb_spec k (Z.to_nat count)) as [Hlt | _]; [lia|].
    reflexivity.
  - intros Hfit. apply (length_scan_loop (Z.to_nat count) 0). lia.
Qed.

(** X20.  Every name [soem_scan_slaves] writes fills the 41 bytes of the
    field, ends in a zero byte, and is a C string of at most 40
    characters: the slave's name, cut to 40. *)
Theorem scan_slaves_names (h : soem_handle_t P)
    (buffer : list soem_slave_info_t) (max_count : Z) (k : nat) :
  0 < max_count ->
  Z.of_nat k < Z.min (slavecount (context h)) max_count ->
  let src := slave_name (identity_of (context h) (Z.of_nat k + 1)) in
  exists buffer',
    snd (soem_scan_slaves identity_of (Some h) (Some buffer) max_count) =
    Some buffer' /\
    let written := name (nth k buffer' (mk_info 0 0 0 0 [])) in
    List.length written = 41%nat /\
    nth 40 written 1 = 0 /\
    c_strlen written = Nat.min (c_strlen src) 40 /\
    firstn (c_strlen written) written = firstn (c_strlen written) src.
Proof.
  intros Hmax Hk. cbv zeta. unfold soem_scan_slaves.
  destruct (Z.leb_spec max_count 0) as [Hle | _]; [lia|].
  set (count := if slavecount (context h) >? max_count
                then max_count else slavecount (context h)).
  assert (Hcount : count = Z.min (slavecount (context h)) max_count).
  { unfold count.
    destruct (Z.gtb_spec (slavecount (context h)) max_count); lia. }
  cbn [snd]. eexists. split; [reflexivity|].
  rewrite scan_loop_from_start.
  destruct (Nat.ltb_spec k (Z.to_nat count)) as [_ | Hge]; [|lia].
  cbn [name].
  set (src := slave_name (identity_of (context h) (Z.of_nat k + 1))).
  change (Z.to_nat EC_MAXNAME) with 40%nat.
  pose proof (length_strncpy src 40) as Hlen.
  assert (Hstr : c_strlen (strncpy src 40 ++ [0]) = Nat.min (c_strlen src) 40).
  { unfold strncpy, strnlen. rewrite <- app_assoc, repeat_zero_then_zero.
    apply c_strlen_cut. lia. }
  split; [rewrite length_app, Hlen; reflexivity|].
  split; [rewrite app_nth2, Hlen by lia; reflexivity|].
  split; [exact Hstr|].
  rewrite Hstr. unfold strncpy, strnlen.
  rewrite <- app_assoc, firstn_app, firstn_firstn, Nat.min_id.
  pose proof (c_strlen_le src) as Hle.
  rewrite length_firstn.
  replace (Nat.min (c_strlen src) 40 -
           Nat.min (Nat.min (c_strlen src) 40) (List.length src))%nat
    with O by lia.
  cbn [firstn]. apply app_nil_r.
Qed.

(** X21.  [soem_drain_error_list] with a handle, a buffer and a positive
    size returns 1 and leaves in the buffer a C string shorter than
    [buf_sz]: the pending error text cut to [buf_sz - 1] characters, or the
    empty string when the stack has none.  The bytes after the terminator
    are as they were, and a buffer that has [buf_sz] bytes keeps its
    length. *)
Theorem drain_error_list_string (h : soem_handle_t P) (b : list Z)
    (buf_sz : Z) (w : world) :
  0 < buf_sz ->
  let text :=
    match fst (api_elist2string (context h)) with
    | Some e => e
    | None => []
    end in
  let n := strnlen text (Z.to_nat (buf_sz - 1)) in
  let res :=
    soem_drain_error_list api_elist2string (Some h) (Some b) buf_sz w in
  fst (fst (fst res)) = 1 /\
  exists b',
    snd (fst res) = Some b' /\
    c_strlen b' = n /\
    Z.of_nat n < buf_sz /\
    firstn n b' = firstn n text /\
    skipn (S n) b' = skipn (S n) b /\
    (buf_sz <= Z.of_nat (List.length b) -> List.length b' = List.length b).
Proof.
  intros Hsz. cbv zeta. unfold soem_drain_error_list.
  destruct (Z.leb_spec buf_sz 0) as [Hle | _]; [lia|].
  destruct (api_elist2string (context h)) as [err c].
  cbn [fst].
  assert (Hshape : forall text,
    let n := strnlen text (Z.to_nat (buf_sz - 1)) in
    c_strlen (buffer_fill b (firstn n text ++ [0])) = n /\
    Z.of_nat n < buf_sz /\
    firstn n (buffer_fill b (firstn n text ++ [0])) = firstn n text /\
    skipn (S n) (buffer_fill b (firstn n text ++ [0])) = skipn (S n) b /\
    (buf_sz <= Z.of_nat (List.length b) ->
     List.length (buffer_fill b (firstn n text ++ [0])) = List.length b)).
  { intros text. cbv zeta.
    set (n := strnlen text (Z.to_nat (buf_sz - 1))).
    pose proof (c_strlen_le text) as Hle.
    assert (Hn : (n <= c_strlen text)%nat) by (unfold n, strnlen; lia).
    assert (Hn' : (n <= Z.to_nat (buf_sz - 1))%nat)
      by (unfold n, strnlen; lia).
    assert (Hlen : List.length (firstn n text ++ [0]) = S n).
    { rewrite length_app, length_firstn. cbn [List.length]. lia. }
    unfold buffer_fill. rewrite Hlen.
    split.
    { rewrite <- app_assoc. cbn [app]. now apply c_strlen_cut. }
    split; [lia|].
    split.
    { rewrite <- app_assoc, firstn_app, firstn_firstn, Nat.min_id.
      rewrite length_firstn.
      replace (n - Nat.min n (List.length text))%nat with O by lia.
      cbn [firstn]. apply app_nil_r. }
    split.
    { rewrite skipn_app, Hlen, Nat.sub_diag.
      rewrite skipn_all2 by (rewrite Hlen; lia). reflexivity. }
    intros Hfit. rewrite length_app, Hlen, length_skipn. lia. }
  destruct err as [e|]; cbn [fst snd].
  - split; [reflexivity|]. eexists. split; [reflexivity|]. apply Hshape.
  - split; [reflexivity|]. eexists. split; [reflexivity|].
    apply (Hshape []).
Qed.

(** X22.  [soem_drain_error_list] with a null handle, a null buffer or a
    size that is not positive returns 0, hands the buffer back as it was
    and does not consume the pending error of the stack. *)
Theorem drain_error_list_bad_args (handle : option (soem_handle_t P))
    (buf : option (list Z)) (buf_sz : Z) (w : world) :
  handle = None \/ buf = None \/ buf_sz <= 0 ->
  let res := soem_drain_error_list api_elist2string handle buf buf_sz w in
  fst (fst (fst res)) = 0 /\
  snd (fst (fst res)) = handle /\
  snd (fst res) = buf /\
  memory (snd res) = memory w.
Proof.
  intros Hbad. cbv zeta. unfold soem_drain_error_list, LOGE.
  destruct handle as [h|];
    [|cbn [fst snd]; now rewrite memory_log_message].
  destruct buf as [b|];
    [|cbn [fst snd]; now rewrite memory_log_message].
  destruct (Z.leb_spec buf_sz 0) as [_ | Hpos].
  - cbn [fst snd]. now rewrite memory_log_message.
  - destruct Hbad as [Hh | [Hb | Hs]]; [discriminate | discriminate | lia].
Qed.

End IntrospectionMore.

(** ** The older shim *)

Section LegacyMore.

Context {P : Type}.
Variable stack : soem_api P.
Variable IOmap_offset : Z.

Local Abbreviation legacy_initialize :=
  (LegacySession.soem_initialize stack IOmap_offset).
Local Abbreviation legacy_shutdown := (LegacySession.soem_shutdown stack).
Local Abbreviation legacy_exchange :=
  (Legacy.soem_exchange_process_data stack).

(** The older bring-up goes through when its first three steps succeed. *)
Lemma legacy_initialize_succeeds (ifname : option string) (w : world)
    (p : Z) (rest : list Z) :
  let inited := api_init stack (zero_context stack) ifname in
  let discovered := api_config_init stack (snd inited) in
  let res := legacy_initialize ifname w in
  allocator w = p :: rest ->
  p <> NULL ->
  fst inited <> 0 ->
  0 < fst discovered ->
  exists h rc_map rc_safe rc_op,
    fst res = Some h /\
    Legacy.base h = p /\
    heap (snd res) = p :: heap w /\
    Legacy.output_length h =
    to_int (Group.Obytes (group0 (Legacy.context h))) /\
    Legacy.input_length h =
    to_int (Group.Ibytes (group0 (Legacy.context h))) /\
    bus_calls (snd res) =
    bus_calls w ++
    [call_init (fst inited);
     call_config_init (fst discovered);
     call_config_map_group (p + IOmap_offset) 0 rc_map;
     call_configdc;
     call_statecheck 0 EC_STATE_SAFE_OP (EC_TIMEOUTSTATE * 4) rc_safe;
     call_writestate 0;
     call_statecheck 0 EC_STATE_OPERATIONAL EC_TIMEOUTSTATE rc_op].
Proof.
  cbv zeta. intros Halloc Hp Hinit Hfound.
  unfold LegacySession.soem_initialize, malloc. rewrite Halloc.
  destruct (Z.eqb_spec p NULL) as [Hnull | _]; [contradiction|].
  cbv beta iota.
  destruct (Z.eqb_spec p NULL) as [Hnull | _]; [contradiction|].
  unfold ecx_init.
  destruct (api_init stack (zero_context stack) ifname) as [rc0 c1].
  cbn [fst snd] in *.
  destruct (Z.eqb_spec rc0 0) as [Hz | _]; [contradiction|].
  unfold ecx_config_init.
  destruct (api_config_init stack c1) as [n c2].
  cbn [fst snd] in *.
  destruct (Z.leb_spec n 0) as [Hle | _]; [lia|].
  unfold ecx_config_map_group, ecx_configdc, ecx_statecheck, ecx_writestate.
  destruct (api_config_map_group stack c2 (p + IOmap_offset) 0 _)
    as [[rc3 c3] m3].
  destruct (api_configdc stack c3) as [rc4 c4].
  destruct (api_statecheck stack c4 0 EC_STATE_SAFE_OP (EC_TIMEOUTSTATE * 4))
    as [rc5 c5].
  cbv beta iota.
  match goal with
  | |- context [api_writestate stack ?C 0] =>
      destruct (api_writestate stack C 0) as [rc6 c6]
  end.
  destruct (api_statecheck stack c6 0 EC_STATE_OPERATIONAL EC_TIMEOUTSTATE)
    as [rc7 c7].
  cbn [fst snd].
  eexists. exists rc3, rc5, rc7.
  split; [reflexivity|].
  cbn [Legacy.base Legacy.output_length Legacy.input_length Legacy.context
       heap bus_calls record_call with_memory].
  repeat (split; [reflexivity|]).
  rewrite <- !app_assoc. reflexivity.
Qed.

(** The older bring-up returns a handle only when its first three steps
    succeeded; otherwise the heap is as it was. *)
Lemma legacy_initialize_fails (ifname : option string) (w : world) :
  let inited := api_init stack (zero_context stack) ifname in
  let discovered := api_config_init stack (snd inited) in
  let res := legacy_initialize ifname w in
  ~ (exists p rest,
       allocator w = p :: rest /\ p <> NULL /\
       fst inited <> 0 /\ 0 < fst discovered) ->
  fst res = None /\ heap (snd res) = heap w.
Proof.
  cbv zeta. intros Hnot.
  unfold LegacySession.soem_initialize, malloc.
  destruct (allocator w) as [|p rest] eqn:Halloc; [auto|].
  destruct (Z.eqb_spec p NULL) as [Hp | Hp].
  { subst p. cbn [Z.eqb NULL fst snd heap]. auto. }
  cbv beta iota.
  destruct (Z.eqb_spec p NULL) as [Hnull | _]; [contradiction|].
  unfold ecx_init.
  destruct (api_init stack (zero_context stack) ifname) as [rc c1] eqn:Hinit.
  cbn [fst snd] in *.
  destruct (Z.eqb_spec rc 0) as [Hrc | Hrc].
  { rewrite (free_live p _ Hp). cbn [fst snd heap record_call with_memory].
    now rewrite remove_block_head. }
  unfold ecx_config_init.
  destruct (api_config_init stack c1) as [n c2] eqn:Hfound.
  cbn [fst snd] in *.
  destruct (Z.leb_spec n 0) as [Hn | Hn].
  { unfold ecx_close. rewrite (free_live p _ Hp).
    cbn [fst snd heap record_call with_memory].
    now rewrite remove_block_head. }
  exfalso. apply Hnot. exists p, rest. auto.
Qed.

Lemma heap_legacy_exchange (handle : option (Legacy.soem_handle_t P))
    outputs outputs_len inputs inputs_len timeout w :
  heap (snd (legacy_exchange handle outputs outputs_len inputs inputs_len
                             timeout w)) = heap w.
Proof.
  unfold Legacy.soem_exchange_process_data.
  destruct handle as [h|]; [|reflexivity].
  match goal with
  | |- context [ecx_send_processdata stack (Legacy.context h) ?W] =>
      assert (Hst : heap W = heap w)
        by (destruct outputs; [destruct (_ && _)|]; reflexivity);
      pose proof (heap_ecx_send_processdata stack (Legacy.context h) W) as Hs;
      destruct (ecx_send_processdata stack (Legacy.context h) W)
        as [[wkc_s c1] w1]
  end.
  cbn [snd] in Hs.
  destruct (wkc_s <? 0); [cbn [snd]; congruence|].
  pose proof (heap_ecx_receive_processdata stack c1 timeout w1) as Hr.
  destruct (ecx_receive_processdata stack c1 timeout w1) as [[wkc_r c2] w2].
  cbn [snd] in *. congruence.
Qed.

Lemma legacy_exchange_keeps_block (h : Legacy.soem_handle_t P) outputs
    outputs_len inputs inputs_len timeout w :
  exists h',
    snd (fst (fst (legacy_exchange (Some h) outputs outputs_len inputs
                                   inputs_len timeout w))) = Some h' /\
    Legacy.base h' = Legacy.base h.
Proof.
  unfold Legacy.soem_exchange_process_data.
  destruct (ecx_send_processdata stack (Legacy.context h) _)
    as [[wkc_s c1] w1].
  destruct (wkc_s <? 0); [cbn [fst snd]; eauto|].
  destruct (ecx_receive_processdata stack c1 _ w1) as [[wkc_r c2] w2].
  cbn [fst snd]. eauto.
Qed.

(** X23.  The older [soem_initialize] returns a handle exactly when its
    allocation, [ecx_init] (non-zero) and discovery (at least one slave)
    succeed.  What the mapping returns - nothing mapped, or more than the
    4096 bytes of the image inside the handle - has no say in it. *)
Theorem legacy_initialize_success_iff (ifname : option string) (w : world) :
  let inited := api_init stack (zero_context stack) ifname in
  let discovered := api_config_init stack (snd inited) in
  fst (legacy_initialize ifname w) <> None <->
  exists p rest,
    allocator w = p :: rest /\ p <> NULL /\
    fst inited <> 0 /\ 0 < fst discovered.
Proof.
  cbv zeta. split.
  - intros Hres.
    destruct (allocator w) as [|p rest] eqn:Halloc.
    { exfalso. apply Hres. apply legacy_initialize_fails.
      rewrite Halloc. intros [p [rest [Hcons _]]]. discriminate. }
    destruct (Z.eq_dec p NULL) as [Hp | Hp].
    { exfalso. apply Hres. apply legacy_initialize_fails.
      rewrite Halloc. intros [q [rest' [Hcons [Hq _]]]]. congruence. }
    destruct (Z.eq_dec
                (fst (api_init stack (zero_context stack) ifname)) 0)
      as [Hi | Hi].
    { exfalso. apply Hres. apply legacy_initialize_fails.
      intros [q [rest' [_ [_ [Hi' _]]]]]. contradiction. }
    destruct (Z_lt_dec 0
                (fst (api_config_init stack
                        (snd (api_init stack (zero_context stack) ifname)))))
      as [Hf | Hf].
    { exists p, rest. auto. }
    exfalso. apply Hres. apply legacy_initialize_fails.
    intros [q [rest' [_ [_ [_ Hf']]]]]. contradiction.
  - intros [p [rest [Ha [Hp [Hi Hf]]]]].
    destruct (legacy_initialize_succeeds ifname w p rest Ha Hp Hi Hf)
      as [h [r1 [r2 [r3 [Hres _]]]]].
    rewrite Hres. discriminate.
Qed.

(** X24.  A handle from the older [soem_initialize] is one live block on
    top of the heap; its cached byte counts are those of the group; and
    bring-up made exactly seven calls into the stack, in this order - init,
    discovery, mapping at the image inside the handle, clock set-up, the
    wait for SAFE-OP, the state write to the group, the wait for
    OPERATIONAL - and no process-data exchange.  Without a handle the heap
    is as it was. *)
Theorem legacy_initialize_outcome (ifname : option string) (w : world) :
  let inited := api_init stack (zero_context stack) ifname in
  let discovered := api_config_init stack (snd inited) in
  let res := legacy_initialize ifname w in
  match fst res with
  | None => heap (snd res) = heap w
  | Some h =>
      Legacy.base h <> NULL /\
      heap (snd res) = Legacy.base h :: heap w /\
      Legacy.output_length h =
      to_int (Group.Obytes (group0 (Legacy.context h))) /\
      Legacy.input_length h =
      to_int (Group.Ibytes (group0 (Legacy.context h))) /\
      exists rc_map rc_safe rc_op,
        bus_calls (snd res) =
        bus_calls w ++
        [call_init (fst inited);
         call_config_init (fst discovered);
         call_config_map_group (Legacy.base h + IOmap_offset) 0 rc_map;
         call_configdc;
         call_statecheck 0 EC_STATE_SAFE_OP (EC_TIMEOUTSTATE * 4) rc_safe;
         call_writestate 0;
         call_statecheck 0 EC_STATE_OPERATIONAL EC_TIMEOUTSTATE rc_op]
  end.
Proof.
  cbv zeta.
  destruct (allocator w) as [|p rest] eqn:Halloc.
  { destruct (legacy_initialize_fails ifname w) as [Hnone Hheap].
    - rewrite Halloc. intros [p [rest [Hcons _]]]. discriminate.
    - now rewrite Hnone. }
  destruct (Z.eq_dec p NULL) as [Hp | Hp].
  { destruct (legacy_initialize_fails ifname w) as [Hnone Hheap].
    - rewrite Halloc. intros [q [rest' [Hcons [Hq _]]]]. congruence.
    - now rewrite Hnone. }
  destruct (Z.eq_dec (fst (api_init stack (zero_context stack) ifname)) 0)
    as [Hi | Hi].
  { destruct (legacy_initialize_fails ifname w) as [Hnone Hheap].
    - intros [q [rest' [_ [_ [Hi' _]]]]]. contradiction.
    - now rewrite Hnone. }
  destruct (Z_lt_dec 0
              (fst (api_config_init stack
                      (snd (api_init stack (zero_context stack) ifname)))))
    as [Hf | Hf].
  - destruct (legacy_initialize_succeeds ifname w p rest Halloc Hp Hi Hf)
      as [h [r1 [r2 [r3 [Hres [Hb [Hheap [Hol [Hil Hcalls]]]]]]]]].
    rewrite Hres, Hb.
    repeat (split; [assumption|]). eauto.
  - destruct (legacy_initialize_fails ifname w) as [Hnone Hheap].
    + intros [q [rest' [_ [_ [_ Hf']]]]]. contradiction.
    + now rewrite Hnone.
Qed.

(** X25.  A whole session of the older shim leaks nothing: bring-up, then
    an exchange, then [soem_shutdown] leave the heap as it was before
    bring-up, whatever the stack answered, and shutdown ends with the
    state write to the group and [ecx_close]. *)
Theorem legacy_session_releases_heap (ifname : option string) (w : world)
    (h : Legacy.soem_handle_t P) (outputs : option (list Z))
    (outputs_len : Z) (inputs : option (list Z)) (inputs_len timeout : Z) :
  let res := legacy_initialize ifname w in
  let ex :=
    legacy_exchange (Some h) outputs outputs_len inputs inputs_len timeout
                    (snd res) in
  let w_end := legacy_shutdown (snd (fst (fst ex))) (snd ex) in
  fst res = Some h ->
  heap w_end = heap w /\
  bus_calls w_end = bus_calls (snd ex) ++ [call_writestate 0; call_close].
Proof.
  cbv zeta. intros Hres.
  assert (Hown : Legacy.base h <> NULL /\
                 heap (snd (legacy_initialize ifname w)) =
                 Legacy.base h :: heap w).
  { destruct (allocator w) as [|p rest] eqn:Halloc.
    { destruct (legacy_initialize_fails ifname w) as [Hnone _];
        [|congruence].
      rewrite Halloc. intros [p [rest [Hcons _]]]. discriminate. }
    destruct (Z.eq_dec p NULL) as [Hp | Hp].
    { destruct (legacy_initialize_fails ifname w) as [Hnone _];
        [|congruence].
      rewrite Halloc. intros [q [rest' [Hcons [Hq _]]]]. congruence. }
    destruct (Z.eq_dec (fst (api_init stack (zero_context stack) ifname)) 0)
      as [Hi | Hi].
    { destruct (legacy_initialize_fails ifname w) as [Hnone _];
        [|congruence].
      intros [q [rest' [_ [_ [Hi' _]]]]]. contradiction. }
    destruct (Z_lt_dec 0
                (fst (api_config_init stack
                        (snd (api_init stack (zero_context stack) ifname)))))
      as [Hf | Hf].
    - destruct (legacy_initialize_succeeds ifname w p rest Halloc Hp Hi Hf)
        as [h' [r1 [r2 [r3 [Hres' [Hb [Hheap _]]]]]]].
      rewrite Hres in Hres'. injection Hres' as <-.
      rewrite Hb. auto.
    - destruct (legacy_initialize_fails ifname w) as [Hnone _];
        [|congruence].
      intros [q [rest' [_ [_ [_ Hf']]]]]. contradiction. }
  destruct Hown as [Hp Hheap].
  destruct (legacy_exchange_keeps_block h outputs outputs_len inputs
              inputs_len timeout (snd (legacy_initialize ifname w)))
    as [h1 [Hex Hb1]].
  rewrite Hex. unfold LegacySession.soem_shutdown.
  match goal with
  | |- context [ecx_writestate stack ?C 0 ?W] =>
      pose proof (heap_ecx_writestate stack C 0 W) as Hw;
      pose proof (bus_calls_writestate stack C 0 W) as Bw;
      destruct (ecx_writestate stack C 0 W) as [[r c] w1]
  end.
  cbn [snd] in Hw, Bw. unfold ecx_close.
  rewrite free_live by congruence.
  cbn [heap bus_calls record_call].
  rewrite Hw, heap_legacy_exchange, Hheap, Bw, Hb1, remove_block_head,
    <- app_assoc.
  split; reflexivity.
Qed.

(** X26.  The older exchange hands back what the stack returned - the
    result of the send when that is negative, of the receive otherwise,
    with no sentinel of its own and the timeout passed on as given - and
    once the receive was made it copies the input region to the caller
    whatever the receive returned, a failure included. *)
Theorem legacy_exchange_raw_result (h : Legacy.soem_handle_t P)
    (outputs : option (list Z)) (outputs_len : Z)
    (inputs : option (list Z)) (inputs_len timeout : Z) (w : world) :
  let res :=
    legacy_exchange (Some h) outputs outputs_len inputs inputs_len timeout w in
  let rc := fst (fst (fst res)) in
  (rc < 0 /\
   bus_calls (snd res) = bus_calls w ++ [call_send_processdata rc] /\
   snd (fst res) = inputs) \/
  (exists sent h',
     0 <= sent /\
     bus_calls (snd res) =
     bus_calls w ++
     [call_send_processdata sent; call_receive_processdata timeout rc] /\
     snd (fst (fst res)) = Some h' /\
     forall buf,
       inputs = Some buf ->
       0 < inputs_len ->
       0 < Group.Ibytes (group0 (Legacy.context h')) <= INT_MAX ->
       snd (fst res) =
       Some (buffer_fill buf
               (load_bytes (Group.inputs (group0 (Legacy.context h')))
                  (Z.to_nat
                     (Z.min inputs_len
                            (Group.Ibytes (group0 (Legacy.context h')))))
                  (memory (snd res))))).
Proof.
  cbv zeta. unfold Legacy.soem_exchange_process_data.
  match goal with
  | |- context [ecx_send_processdata stack (Legacy.context h) ?W] =>
      assert (Hst : bus_calls W = bus_calls w)
        by (destruct outputs; [destruct (_ && _)|]; reflexivity);
      pose proof (bus_calls_send stack (Legacy.context h) W) as Bs;
      destruct (ecx_send_processdata stack (Legacy.context h) W)
        as [[wkc_s c1] w1]
  end.
  cbn [fst snd] in Bs. rewrite Hst in Bs.
  destruct (Z.ltb_spec wkc_s 0) as [Hneg | Hpos].
  { left. cbn [fst snd]. auto. }
  right.
  pose proof (bus_calls_receive stack c1 timeout w1) as Br.
  destruct (ecx_receive_processdata stack c1 timeout w1) as [[wkc_r c2] w2].
  cbn [fst snd] in *.
  exists wkc_s. eexists.
  split; [assumption|].
  split; [rewrite Br, Bs, <- app_assoc; reflexivity|].
  split; [reflexivity|].
  cbn [Legacy.context].
  intros buf -> Hlen Hib.
  destruct (Z.gtb_spec inputs_len 0) as [_ | Hle]; [|lia].
  destruct (Z.gtb_spec (Group.Ibytes (group0 c2)) 0) as [_ | Hle]; [|lia].
  cbn [andb]. rewrite to_int_small by lia.
  destruct (Z.gtb_spec inputs_len (Group.Ibytes (group0 c2)));
    [rewrite Z.min_r by lia | rewrite Z.min_l by lia]; reflexivity.
Qed.

End LegacyMore.

(** * More on the scripted bus *)

(** A 10-byte output region: the write is refused and nothing changes. *)
Lemma write_rxpdo_failure_keeps_memory_witness :
  let res :=
    soem_write_rxpdo (Some (Mock.handle_of Mock.short_drive)) 1
                     (Some nop_command) (Mock.world_of 255) in
  fst res = 0 /\
  memory (snd res) = memory (Mock.world_of 255) /\
  heap (snd res) = heap (Mock.world_of 255) /\
  bus_calls (snd res) = bus_calls (Mock.world_of 255).
Proof.
  apply (write_rxpdo_failure_keeps_memory
           (Some (Mock.handle_of Mock.short_drive)) 1 (Some nop_command)
           (Mock.world_of 255)).
  right. right. right. exists (Mock.handle_of Mock.short_drive).
  split; [reflexivity|]. right. right. by_evaluation.
Defined.

(** A DPOS command with parameter -2 read back through a slave whose
    inputs lie over bytes 4..11 of the command. *)
Lemma rxpdo_numeric_roundtrip_witness :
  let w' :=
    snd (soem_write_rxpdo (Some (Mock.handle_of (Mock.one_drive 0 3 8 8))) 1
           (Some Rig.dpos) (Mock.world_of 255)) in
  option_map ActualPosition
    (snd (fst (soem_read_txpdo (Some Rig.mirror_handle) 2 (Some zero_tx)
                               w'))) = Some (-2) /\
  le_value (load_bytes (4096 + 8) 4 (memory w')) = 1000 /\
  le_value (load_bytes (4096 + 12) 2 (memory w')) = 500 /\
  le_value (load_bytes (4096 + 14) 2 (memory w')) = 600.
Proof.
  exact (rxpdo_numeric_roundtrip
           (Mock.handle_of (Mock.one_drive 0 3 8 8)) Rig.mirror_handle 1 2
           Rig.dpos zero_tx (Mock.world_of 255)
           ltac:(by_evaluation) ltac:(by_evaluation) ltac:(by_evaluation)
           ltac:(by_evaluation) ltac:(by_evaluation) ltac:(by_evaluation)
           ltac:(by_evaluation) ltac:(by_evaluation) ltac:(by_evaluation)
           ltac:(by_evaluation) ltac:(by_evaluation)).
Defined.

(** NOP written over a DPOS command: byte 4 of the region is as after NOP
    alone. *)
Lemma write_rxpdo_overwrites_witness :
  memory (snd (soem_write_rxpdo
                 (Some (Mock.handle_of (Mock.one_drive 0 3 8 8))) 1
                 (Some nop_command)
                 (snd (soem_write_rxpdo
                         (Some (Mock.handle_of (Mock.one_drive 0 3 8 8))) 1
                         (Some Rig.dpos) (Mock.world_of 255))))) 4100 =
  memory (snd (soem_write_rxpdo
                 (Some (Mock.handle_of (Mock.one_drive 0 3 8 8))) 1
                 (Some nop_command) (Mock.world_of 255))) 4100.
Proof.
  exact (write_rxpdo_overwrites
           (Mock.handle_of (Mock.one_drive 0 3 8 8)) 1 Rig.dpos nop_command
           (Mock.world_of 255)
           ltac:(by_evaluation) ltac:(by_evaluation) ltac:(by_evaluation)
           4100).
Defined.

(** The drive's inputs at 4116 lie past the 17 bytes written at 4096. *)
Lemma write_rxpdo_keeps_status_witness :
  fst (soem_read_txpdo (Some (Mock.handle_of (Mock.one_drive 0 3 8 8))) 1
         (Some zero_tx)
         (snd (soem_write_rxpdo
                 (Some (Mock.handle_of (Mock.one_drive 0 3 8 8))) 1
                 (Some Rig.dpos) Mock.status_world))) =
  fst (soem_read_txpdo (Some (Mock.handle_of (Mock.one_drive 0 3 8 8))) 1
         (Some zero_tx) Mock.status_world).
Proof.
  exact (write_rxpdo_keeps_status
           (Mock.handle_of (Mock.one_drive 0 3 8 8))
           (Mock.handle_of (Mock.one_drive 0 3 8 8)) 1 1 Rig.dpos
           (Some zero_tx) Mock.status_world
           ltac:(by_evaluation) ltac:(by_evaluation) ltac:(by_evaluation)
           ltac:(right; by_evaluation)).
Defined.

(** A send that fails: the caller's two bytes come back. *)
Lemma exchange_failure_keeps_inputs_witness :
  snd (fst (soem_exchange_process_data
              (Mock.api (Mock.one_drive (-1) 3 8 8))
              (Some (Mock.handle_of (Mock.one_drive (-1) 3 8 8)))
              None 0 (Some [9; 9]) 2 1000 (Mock.world_of 0))) =
  Some [9; 9].
Proof.
  exact (exchange_failure_keeps_inputs
           (Mock.api (Mock.one_drive (-1) 3 8 8))
           (Some (Mock.handle_of (Mock.one_drive (-1) 3 8 8)))
           None 0 (Some [9; 9]) 2 1000 (Mock.world_of 0)
           ltac:(right; left; by_evaluation)).
Defined.

(** A timeout of -5 microseconds. *)
Lemma exchange_negative_timeout_witness :
  soem_exchange_process_data
    (Mock.api (Mock.one_drive 0 3 8 8))
    (Some (Mock.handle_of (Mock.one_drive 0 3 8 8)))
    None 0 None 0 (-5) (Mock.world_of 0) =
  soem_exchange_process_data
    (Mock.api (Mock.one_drive 0 3 8 8))
    (Some (Mock.handle_of (Mock.one_drive 0 3 8 8)))
    None 0 None 0 0 (Mock.world_of 0).
Proof.
  exact (exchange_negative_timeout
           (Mock.api (Mock.one_drive 0 3 8 8))
           (Some (Mock.handle_of (Mock.one_drive 0 3 8 8)))
           None 0 None 0 (-5) (Mock.world_of 0) ltac:(by_evaluation)).
Defined.

(** One operational drive: recovery goes from the state read straight to
    the state write to the group. *)
Lemma try_recover_without_errors_witness :
  exists rest,
    bus_calls (snd (soem_try_recover (Mock.api (Mock.one_drive 0 3 8 8))
                      (Some (Mock.handle_of (Mock.one_drive 0 3 8 8))) 100
                      (Mock.world_of 0))) =
    bus_calls (Mock.world_of 0) ++
    call_readstate :: call_writestate 0 :: rest /\
    List.length rest = 7%nat.
Proof.
  apply (try_recover_without_errors
           (Mock.api (Mock.one_drive 0 3 8 8))
           (Mock.handle_of (Mock.one_drive 0 3 8 8)) 100 (Mock.world_of 0)).
  intros k Hk. change (1 <= k <= 1) in Hk.
  replace k with 1 by lia. reflexivity.
Defined.

(** One drive in SAFE-OP with the ERROR bit: it is acknowledged first. *)
Lemma try_recover_acknowledges_witness :
  exists rest,
    bus_calls (snd (soem_try_recover (Mock.api (Mock.one_drive 0 3 8 20))
                      (Some (Mock.handle_of (Mock.one_drive 0 3 8 20))) 100
                      (Mock.world_of 0))) =
    bus_calls (Mock.world_of 0) ++
    call_readstate :: call_writestate 1 :: rest.
Proof.
  apply (try_recover_acknowledges
           (Mock.api (Mock.one_drive 0 3 8 20))
           (Mock.handle_of (Mock.one_drive 0 3 8 20)) 100 1
           (Mock.world_of 0)).
  - by_evaluation.
  - by_evaluation.
  - intros j Hj. lia.
  - by_evaluation.
Defined.

(** The session on one drive: handle at 1024, image at 4096, 20 and 8
    bytes. *)
Lemma initialize_owns_session_witness :
  let res := Mock.session (Mock.one_drive 0 3 8 8) in
  base Rig.session_handle <> NULL /\
  IOmap Rig.session_handle <> NULL /\
  heap (snd res) = [4096; 1024] /\
  output_length Rig.session_handle = 20 /\
  input_length Rig.session_handle = 8 /\
  exists pre rc,
    bus_calls (snd res) =
    pre ++ [call_writestate 0;
            call_statecheck 0 EC_STATE_OPERATIONAL EC_TIMEOUTSTATE rc].
Proof.
  exact (initialize_owns_session
           (Mock.api (Mock.one_drive 0 3 8 8)) (Some "eth0"%string)
           Mock.fresh_world Rig.session_handle ltac:(by_evaluation)).
Defined.

(** The same session, cycled once, recovered and shut down. *)
Lemma session_releases_heap_witness :
  let b := Mock.one_drive 0 3 8 8 in
  let ex :=
    soem_exchange_process_data (Mock.api b) (Some Rig.session_handle)
                               (Some [1; 2; 3]) 3 None 0 1000
                               (snd (Mock.session b)) in
  let rec :=
    soem_try_recover (Mock.api b) (snd (fst (fst ex))) 100 (snd ex) in
  let w_end := soem_shutdown (Mock.api b) (snd (fst rec)) (snd rec) in
  heap w_end = [] /\
  bus_calls w_end = bus_calls (snd rec) ++ [call_writestate 0; call_close].
Proof.
  exact (session_releases_heap
           (Mock.api (Mock.one_drive 0 3 8 8)) (Some "eth0"%string)
           Mock.fresh_world Rig.session_handle (Some [1; 2; 3]) 3 None 0
           1000 100 ltac:(by_evaluation)).
Defined.

(** The same session reports 20 and 8 bytes both ways. *)
Lemma initialize_sizes_agree_witness :
  let b := Mock.one_drive 0 3 8 8 in
  let sizes :=
    soem_get_process_sizes (Some Rig.session_handle) (Some 0) (Some 0) in
  let report :=
    snd (fst (soem_get_health (Mock.api b) (Some Rig.session_handle)
                              (Some Health.zero) (snd (Mock.session b)))) in
  fst (fst sizes) = 1 /\
  snd (fst sizes) = option_map Health.bytes_out report /\
  snd sizes = option_map Health.bytes_in report.
Proof.
  exact (initialize_sizes_agree
           (Mock.api (Mock.one_drive 0 3 8 8)) (Some "eth0"%string)
           Mock.fresh_world Rig.session_handle Health.zero 0 0
           ltac:(by_evaluation)).
Defined.

(** One drive, region filled with 0xFF before staging. *)
Lemma stage_nop_region_witness :
  let w' :=
    stage_nop 1 1 (Mock.handle_of (Mock.one_drive 0 3 8 8))
              (Mock.world_of 255) in
  load_bytes 4096 17 (memory w') =
  [78; 79; 80; 0; 0; 0; 0; 0; 0; 0; 0; 0; 0; 0; 0; 0; 0] /\
  memory w' (4096 + 16) = 0.
Proof.
  apply (stage_nop_region (Mock.handle_of (Mock.one_drive 0 3 8 8))
                          (Mock.world_of 255) 1).
  - by_evaluation.
  - by_evaluation.
  - by_evaluation.
  - intros j Hj Hne. change (1 <= j <= 1) in Hj. lia.
Defined.

(** One slave scanned into an array of two records, room asked for
    four. *)
Lemma scan_slaves_entries_witness :
  let res :=
    soem_scan_slaves Rig.identity_of
      (Some (Mock.handle_of (Mock.one_drive 0 3 8 8)))
      (Some [Rig.stale_info; Rig.stale_info]) 4 in
  fst res = 1 /\
  option_map (map position) (snd res) = Some [1; 9] /\
  option_map (map product_code) (snd res) = Some [101; 9].
Proof.
  cbv zeta.
  destruct (scan_slaves_entries Rig.identity_of
              (Mock.handle_of (Mock.one_drive 0 3 8 8))
              [Rig.stale_info; Rig.stale_info] 4 ltac:(by_evaluation))
    as [Hcount _].
  split; [exact Hcount|]. by_evaluation.
Defined.

(** The name "XD-C" as it reaches the caller. *)
Lemma scan_slaves_names_witness :
  exists buffer',
    snd (soem_scan_slaves Rig.identity_of
           (Some (Mock.handle_of (Mock.one_drive 0 3 8 8)))
           (Some [Rig.stale_info]) 4) = Some buffer' /\
    List.length (name (nth 0 buffer' (mk_info 0 0 0 0 []))) = 41%nat /\
    nth 40 (name (nth 0 buffer' (mk_info 0 0 0 0 []))) 1 = 0 /\
    c_strlen (name (nth 0 buffer' (mk_info 0 0 0 0 []))) = 4%nat /\
    firstn (c_strlen (name (nth 0 buffer' (mk_info 0 0 0 0 []))))
           (name (nth 0 buffer' (mk_info 0 0 0 0 []))) =
    firstn (c_strlen (name (nth 0 buffer' (mk_info 0 0 0 0 []))))
           ([88; 68; 45; 67] ++ repeat 0 37).
Proof.
  exact (scan_slaves_names Rig.identity_of
           (Mock.handle_of (Mock.one_drive 0 3 8 8)) [Rig.stale_info] 4 0
           ltac:(by_evaluation) ltac:(by_evaluation)).
Defined.

(** "SDO abort" drained into four bytes of a six-byte buffer: "SDO", the
    terminator, and the two bytes that were there. *)
Lemma drain_error_list_string_witness :
  let res :=
    soem_drain_error_list Rig.pending_error
      (Some (Mock.handle_of (Mock.one_drive 0 3 8 8)))
      (Some [9; 9; 9; 9; 9; 9]) 4 (Mock.world_of 0) in
  fst (fst (fst res)) = 1 /\
  exists b',
    snd (fst res) = Some b' /\
    c_strlen b' = 3%nat /\
    Z.of_nat 3 < 4 /\
    firstn 3 b' = [83; 68; 79] /\
    skipn 4 b' = [9; 9] /\
    (4 <= Z.of_nat 6 -> List.length b' = 6%nat).
Proof.
  exact (drain_error_list_string Rig.pending_error
           (Mock.handle_of (Mock.one_drive 0 3 8 8)) [9; 9; 9; 9; 9; 9] 4
           (Mock.world_of 0) ltac:(by_evaluation)).
Defined.

(** A size of zero: nothing is drained. *)
Lemma drain_error_list_bad_args_witness :
  let res :=
    soem_drain_error_list Rig.pending_error
      (Some (Mock.handle_of (Mock.one_drive 0 3 8 8)))
      (Some [9; 9]) 0 (Mock.world_of 0) in
  fst (fst (fst res)) = 0 /\
  snd (fst (fst res)) = Some (Mock.handle_of (Mock.one_drive 0 3 8 8)) /\
  snd (fst res) = Some [9; 9] /\
  memory (snd res) = memory (Mock.world_of 0).
Proof.
  exact (drain_error_list_bad_args Rig.pending_error
           (Some (Mock.handle_of (Mock.one_drive 0 3 8 8))) (Some [9; 9]) 0
           (Mock.world_of 0) ltac:(right; right; by_evaluation)).
Defined.

(** The older shim brought up on one drive, cycled once and shut down. *)
Lemma legacy_session_releases_heap_witness :
  let b := Mock.one_drive 0 3 8 8 in
  let ex :=
    Legacy.soem_exchange_process_data (Mock.api b)
      (Some Rig.legacy_session_handle) (Some [1; 2; 3]) 3 None 0 1000
      (snd Rig.legacy_session) in
  let w_end :=
    LegacySession.soem_shutdown (Mock.api b) (snd (fst (fst ex))) (snd ex) in
  heap w_end = [] /\
  bus_calls w_end = bus_calls (snd ex) ++ [call_writestate 0; call_close].
Proof.
  exact (legacy_session_releases_heap
           (Mock.api (Mock.one_drive 0 3 8 8)) 3072 (Some "eth0"%string)
           Mock.fresh_world Rig.legacy_session_handle (Some [1; 2; 3]) 3
           None 0 1000 ltac:(by_evaluation)).
Defined.

(** A bus that leaves memory alone, a 3-byte payload, a region filled with
    0xFF: byte 1 is the payload's, byte 5 is zero. *)
Lemma exchange_zero_then_copy_witness :
  let res :=
    soem_exchange_process_data (Mock.api Mock.oversized)
      (Some (Mock.handle_of Mock.oversized)) (Some [1; 2; 3]) 3 None 0 1000
      (Mock.world_of 255) in
  memory (snd res) (4096 + 1) = 2 /\ memory (snd res) (4096 + 5) = 0.
Proof.
  split.
  - refine (exchange_zero_then_copy (Mock.api Mock.oversized)
              (Mock.handle_of Mock.oversized) [1; 2; 3] 3 None 0 1000
              (Mock.world_of 255) _ _ _ _ 1 _);
      first [by_evaluation | intros; reflexivity].
  - refine (exchange_zero_then_copy (Mock.api Mock.oversized)
              (Mock.handle_of Mock.oversized) [1; 2; 3] 3 None 0 1000
              (Mock.world_of 255) _ _ _ _ 5 _);
      first [by_evaluation | intros; reflexivity].
Defined.

(** The same bus, no payload: byte 5 of the region keeps its 0xFF. *)
Lemma exchange_outputs_omitted_witness :
  memory (snd (soem_exchange_process_data (Mock.api Mock.oversized)
                 (Some (Mock.handle_of Mock.oversized)) None 0 None 0 1000
                 (Mock.world_of 255))) 4101 =
  memory (Mock.world_of 255) 4101.
Proof.
  refine (exchange_outputs_omitted (Mock.api Mock.oversized)
            (Mock.handle_of Mock.oversized) None 0 None 0 1000
            (Mock.world_of 255) _ _ _ 4101 _).
  - intros; reflexivity.
  - intros; reflexivity.
  - left; reflexivity.
  - by_evaluation.
Defined.

(** The older shim on the same bus and payload: byte 1 is the payload's,
    byte 5 keeps its 0xFF. *)
Lemma legacy_exchange_output_region_witness :
  let res :=
    Legacy.soem_exchange_process_data (Mock.api Mock.oversized)
      (Some (Mock.legacy_handle_of Mock.oversized)) (Some [1; 2; 3]) 3
      None 0 1000 (Mock.world_of 255) in
  memory (snd res) (4096 + 1) = 2 /\
  memory (snd res) (4096 + 5) = memory (Mock.world_of 255) (4096 + 5).
Proof.
  split.
  - refine (legacy_exchange_output_region (Mock.api Mock.oversized)
              (Mock.legacy_handle_of Mock.oversized) [1; 2; 3] 3 None 0 1000
              (Mock.world_of 255) _ _ _ _ 1 _);
      first [by_evaluation | intros; reflexivity].
  - refine (legacy_exchange_output_region (Mock.api Mock.oversized)
              (Mock.legacy_handle_of Mock.oversized) [1; 2; 3] 3 None 0 1000
              (Mock.world_of 255) _ _ _ _ 5 _);
      first [by_evaluation | intros; reflexivity].
Defined.
